(** * Remote-control client: binary codec and transport

    A shallow embedding of the codec and transport layer of the TRACE32
    remote-control client (package [lauterbach.trace32.rcl._rc]):

    - [common.py]          alignment helpers and [int2bytearray];
    - [_address.py]        [Address.serialize] / [Address.deserialize];
    - [_breakpoint.py]     [Breakpoint.serialize] / [Breakpoint.deserialize];
    - [_register.py]       [Register] setters, [__eq__], [_serialize], [_deserialize];
    - [_symbol.py]         [Symbol.serialize] / [Symbol.deserialize];
    - [_memory_bundle.py]  [MemoryAccessBundle.serialize];
    - [_directaccess.py]   [DirectAccessBundle._get_requests];
    - [hlinknet.py]        [CommunicationBase.receive], the TCP receive path,
                           [CommunicationUdp.sync], [Link.__init__];
    - [_library.py]        [Library.generic_api_call],
                           [Library.t32_transfermemorybundleobj].

    Conventions.  Python [bytes] are lists of [byte]; Python integers are
    [Z]; buffer offsets and lengths are [nat].  A Python call that may raise
    returns an [outcome]; methods that mutate an object thread the object
    explicitly.  The transport and the request engine, whose state outlives
    an exception, return the state next to the outcome. *)

From Stdlib Require Import ZArith List Lia Bool Arith.
From Stdlib Require Import Strings.Byte.
From Stdlib Require Strings.String.
Import ListNotations.
Import String.StringSyntax.
Delimit Scope string_scope with string.


Open Scope Z_scope.

(* ================================================================== *)
(** * Python values, exceptions, bytes                                 *)
(* ================================================================== *)

Module Py.

(** The exception classes that the modelled code raises or lets escape. *)
Inductive exn : Type :=
| ValueError
| TypeError
| OverflowError
| StructError            (* struct.error *)
| IndexError
| UnboundLocalError
| AssertionError
| RecursionError
| NotImplementedError
| ConnectionError
| SocketTimeout          (* socket.timeout *)
| SocketError            (* any other failure of a socket call *)
| ApiStatusError (code : Z)   (* whatever Library.raise_error raises for a status *)
| ApiProtocolTransmitError
| ApiConnectionConfigError
| ApiConnectionInitError
| ApiConnectionSyncError
| ApiConnectionTimeoutError
| ApiConnectionTransmitError
| RegisterValueError
| BreakpointError
| DirectAccessError.

(** Reasons for which the model, not the program, gives up:
    a loop ran out of the iteration budget the model gave it, or a value
    left the fragment of Python the model represents (text outside ASCII). *)
Inductive stuck : Type :=
| OutOfFuel
| Unmodelled.

Inductive outcome (A : Type) : Type :=
| Ok (a : A)
| Raise (e : exn)
| Stuck (w : stuck).

Arguments Ok {A} a.
Arguments Raise {A} e.
Arguments Stuck {A} w.

Definition bind {A B} (m : outcome A) (k : A -> outcome B) : outcome B :=
  match m with
  | Ok a => k a
  | Raise e => Raise e
  | Stuck w => Stuck w
  end.

Definition is_ok {A} (m : outcome A) : bool :=
  match m with Ok _ => true | _ => false end.

(** ** bytes *)

Definition bytes := list byte.

Fixpoint bytes_eqb (a b : bytes) : bool :=
  match a, b with
  | [], [] => true
  | x :: a', y :: b' => Byte.eqb x y && bytes_eqb a' b'
  | _, _ => false
  end.

(** [b[lo:hi]] for non-negative [lo], [hi]; Python clips at the end. *)
Definition slice (b : bytes) (lo hi : nat) : bytes :=
  firstn (hi - lo)%nat (skipn lo b).

(** [b[lo:]] *)
Definition slice_from (b : bytes) (lo : nat) : bytes := skipn lo b.

Definition byte_of_Z (z : Z) : byte :=
  match Byte.of_N (Z.to_N (z mod 256)) with
  | Some b => b
  | None => x00
  end.

Definition Z_of_byte (b : byte) : Z := Z.of_N (Byte.to_N b).

(** Little-endian digits of [n] on [len] bytes (two's complement when
    [n] is negative). *)
Fixpoint to_bytes_le (n : Z) (len : nat) : bytes :=
  match len with
  | O => []
  | S l => byte_of_Z (n mod 256) :: to_bytes_le (n / 256) l
  end.

(** [int.from_bytes(b, byteorder="little", signed=False)] *)
Fixpoint from_bytes_le (b : bytes) : Z :=
  match b with
  | [] => 0
  | x :: r => Z_of_byte x + 256 * from_bytes_le r
  end.

(** [int.from_bytes(b, byteorder="little", signed=True)] *)
Definition from_bytes_le_signed (b : bytes) : Z :=
  let u := from_bytes_le b in
  let w := 256 ^ Z.of_nat (length b) in
  if 2 * u <? w then u else u - w.

(** [n.to_bytes(len, "little", signed=False)] *)
Definition to_bytes_unsigned (n : Z) (len : nat) : outcome bytes :=
  if (0 <=? n) && (n <? 256 ^ Z.of_nat len)
  then Ok (to_bytes_le n len) else Raise OverflowError.

(** [n.to_bytes(len, "little", signed=True)] *)
Definition to_bytes_signed (n : Z) (len : nat) : outcome bytes :=
  if (- (256 ^ Z.of_nat len) <=? 2 * n) && (2 * n <? 256 ^ Z.of_nat len)
  then Ok (to_bytes_le n len) else Raise OverflowError.

(** ** struct.pack, one function per format character.  The native
    formats of [_register.py] ("2sH", "q", "Q", "d") are those of a
    little-endian host, on which they coincide with the "<" ones. *)

Definition pack_uint (len : nat) (n : Z) : outcome bytes :=
  if (0 <=? n) && (n <? 256 ^ Z.of_nat len)
  then Ok (to_bytes_le n len) else Raise StructError.

Definition pack_B := pack_uint 1.
Definition pack_H := pack_uint 2.
Definition pack_I := pack_uint 4.   (* "I" and "L" with "<" *)
Definition pack_Q := pack_uint 8.

Definition pack_q (n : Z) : outcome bytes :=
  if (- 2 ^ 63 <=? n) && (n <? 2 ^ 63)
  then Ok (to_bytes_le n 8) else Raise StructError.

(** Format "[n]s": the argument cut or NUL-padded to exactly [n] bytes. *)
Definition pack_s (n : nat) (data : bytes) : bytes :=
  firstn n data ++ repeat x00 (n - length data)%nat.

(** Format "[n]x": [n] pad bytes. *)
Definition pack_x (n : nat) : bytes := repeat x00 n.

(** ** str.  Text is a list of code points held in a [byte]; only the
    ASCII range is modelled, where UTF-8 (and, without a backslash,
    "unicode_escape") maps a code point to the byte of the same number.
    Outside that range the codecs answer [Stuck Unmodelled]. *)

Definition str := list byte.

Definition is_ascii (b : byte) : bool := (Byte.to_N b <? 128)%N.

(** [s.encode()] *)
Definition encode (s : str) : outcome bytes :=
  if forallb is_ascii s then Ok s else Stuck Unmodelled.

(** [b.decode()] *)
Definition decode (b : bytes) : outcome str :=
  if forallb is_ascii b then Ok b else Stuck Unmodelled.

Definition backslash : byte := x5c.

(** [b.decode("unicode_escape")] *)
Definition decode_unicode_escape (b : bytes) : outcome str :=
  if forallb (fun c => is_ascii c && negb (Byte.eqb c backslash)) b
  then Ok b else Stuck Unmodelled.

(** [s.lstrip(c)], [s.rstrip(c)], [s.strip(c)] for a one-character [c]. *)
Fixpoint lstrip (c : byte) (s : str) : str :=
  match s with
  | x :: r => if Byte.eqb x c then lstrip c r else s
  | [] => []
  end.

Definition rstrip (c : byte) (s : str) : str := rev (lstrip c (rev s)).

Definition strip (c : byte) (s : str) : str := rstrip c (lstrip c s).

(** [s.upper()] on ASCII text. *)
Definition upper_char (c : byte) : byte :=
  let n := Byte.to_N c in
  if ((97 <=? n) && (n <=? 122))%N
  then match Byte.of_N (n - 32) with Some u => u | None => c end
  else c.

Definition upper (s : str) : str := map upper_char s.

(** A bytes literal, written as a string: [B "AD"] is [b"AD"]. *)
Definition B (s : String.string) : bytes := String.list_byte_of_string s.
Arguments B s%_string.

(** float: the IEEE-754 binary64 bit pattern, as struct.pack("d") lays it
    out; no arithmetic on floats is modelled. *)
Definition float := Z.

Definition pack_d (f : float) : bytes := to_bytes_le f 8.

(** [struct.unpack("<d", b)[0]] *)
Definition unpack_d (b : bytes) : outcome float :=
  if Nat.eqb (length b) 8 then Ok (from_bytes_le b) else Raise StructError.

End Py.

Import Py.

Declare Scope py_scope.
Delimit Scope py_scope with py.
Notation "x <- m ;; k" := (bind m (fun x => k))
  (at level 61, m at next level, right associativity) : py_scope.
Notation "' p <- m ;; k" := (bind m (fun p => k))
  (at level 61, p pattern, m at next level, right associativity) : py_scope.
Open Scope py_scope.

(* ================================================================== *)
(** * common.py                                                        *)
(* ================================================================== *)

Module Common.

(** [align_up(n, m)]: the count from [n] up to the next multiple of [m]. *)
Definition align_up (n m : Z) : Z :=
  if negb (n mod m =? 0) then m - n mod m else 0.

Definition align_eight (n : Z) : Z := align_up n 8.

(** [int2bytearray(n, length)] *)
Definition int2bytearray (n : Z) (length : nat) : outcome bytes :=
  if n <? 0 then to_bytes_signed n length else to_bytes_unsigned n length.

End Common.

(* ================================================================== *)
(** * _address.py                                                      *)
(* ================================================================== *)

Module Address.

Definition T32_ADDRTYPE_NONE : Z := 0.
Definition T32_ADDRTYPE_COMMON : Z := 1.
Definition T32_ADDRTYPE_A32 : Z := 2.
Definition T32_ADDRTYPE_A64 : Z := 3.
Definition T32_ADDRTYPE_MAX : Z := 4.

(** The attributes of an [Address]; [None] is Python's [None]. *)
Record t : Type := mk { access : option str; value : option Z }.

(** [Address.parse_access] *)
Definition parse_access (byte_buffer : bytes) : outcome str :=
  result <- decode byte_buffer ;;
  let result := strip x00 result in
  let result := strip x3a result in
  Ok result.

(** [Address.serialize(address_offset, width=...)] *)
Definition serialize (self : t) (address_offset : Z) (width : option Z)
  : outcome (nat * bytes) :=
  let addr_type := T32_ADDRTYPE_A64 in
  result <- Common.int2bytearray addr_type 2 ;;
  result <-
    (if addr_type =? T32_ADDRTYPE_A32 then
       v <- match value self with Some v => Ok v | None => Raise TypeError end ;;
       b <- Common.int2bytearray (v + address_offset) 4 ;;
       Ok (result ++ b)
     else if addr_type =? T32_ADDRTYPE_A64 then
       v <- match value self with Some v => Ok v | None => Raise TypeError end ;;
       b <- Common.int2bytearray (v + address_offset) 8 ;;
       Ok (result ++ b)
     else Raise ValueError) ;;
  result <-
    match access self with
    | Some a =>
        access <- encode a ;;
        let access_len := Z.of_nat (length access) + 1 in
        (* align access length to even bytes *)
        let access_len := access_len + (0 - access_len) mod 2 in
        h <- pack_H access_len ;;
        Ok (result ++ B "AC" ++ h ++ pack_s (Z.to_nat access_len) access)
    | None => Ok result
    end ;;
  result <-
    match width with
    | Some w => h <- pack_H w ;; Ok (result ++ B "WI" ++ h)
    | None => Ok result
    end ;;
  let result := result ++ B "XX" in
  Ok (length result, result).

(** The [while read_ptr < len(recv_buffer)] loop of [Address.deserialize].
    [addr_access] is the local variable of that name: [None] while it is
    still unbound.  The other locals ([addr_core], [addr_spaceid], ...) are
    assigned and never read. *)
Fixpoint deserialize_loop (fuel : nat) (recv_buffer : bytes) (read_ptr : nat)
         (addr_access : option str) : outcome (nat * option str) :=
  match fuel with
  | O => Stuck OutOfFuel
  | S fuel =>
    if (read_ptr <? length recv_buffer)%nat then
      let parameter_id := slice recv_buffer read_ptr (read_ptr + 2) in
      if bytes_eqb parameter_id (B "AC") then
        let read_ptr := (read_ptr + 2)%nat in
        let addr_access_len :=
          Z.to_nat (from_bytes_le (slice recv_buffer read_ptr (read_ptr + 2))) in
        let read_ptr := (read_ptr + 2)%nat in
        let value := slice recv_buffer read_ptr (read_ptr + addr_access_len) in
        let next_read_ptr := (read_ptr + addr_access_len)%nat in
        a <- parse_access value ;;
        deserialize_loop fuel recv_buffer next_read_ptr (Some a)
      else if bytes_eqb parameter_id (B "WI") then
        deserialize_loop fuel recv_buffer (read_ptr + 2 + 2) addr_access
      else if bytes_eqb parameter_id (B "CO") then
        deserialize_loop fuel recv_buffer (read_ptr + 2 + 2) addr_access
      else if bytes_eqb parameter_id (B "SI") || bytes_eqb parameter_id (B "IM") then
        deserialize_loop fuel recv_buffer (read_ptr + 2 + 4) addr_access
      else if bytes_eqb parameter_id (B "AT") then
        deserialize_loop fuel recv_buffer (read_ptr + 2 + 4) addr_access
      else if bytes_eqb parameter_id (B "MU") then
        deserialize_loop fuel recv_buffer (read_ptr + 2 + 2) addr_access
      else if bytes_eqb parameter_id (B "TU") then
        deserialize_loop fuel recv_buffer (read_ptr + 2 + 2) addr_access
      else if bytes_eqb parameter_id (B "XX") then
        Ok ((read_ptr + 2)%nat, addr_access)
      else Raise ValueError
    else Ok (read_ptr, addr_access)
  end.

(** [Address.deserialize(conn, recv_buffer)]: the consumed length and the
    new object.  Every turn of the loop moves [read_ptr] forward, so
    [length recv_buffer] turns (and one more to leave) are enough. *)
Definition deserialize (recv_buffer : bytes) : outcome (nat * t) :=
  let addr_type := from_bytes_le (slice recv_buffer 0 2) in
  '(addr_value, read_ptr) <-
    (if addr_type =? T32_ADDRTYPE_A32 then
       Ok (from_bytes_le (slice recv_buffer 2 6), 6%nat)
     else if addr_type =? T32_ADDRTYPE_A64 then
       Ok (from_bytes_le (slice recv_buffer 2 10), 10%nat)
     else Raise ValueError) ;;
  '(read_ptr, addr_access) <-
    deserialize_loop (S (length recv_buffer)) recv_buffer read_ptr None ;;
  match addr_access with
  | None => Raise UnboundLocalError
  | Some a => Ok (read_ptr, mk (Some a) (Some addr_value))
  end.

End Address.


(* ================================================================== *)
(** * _breakpoint.py                                                   *)
(* ================================================================== *)

Module Breakpoint.

(** [Breakpoint.Action] (an IntEnum: only the listed values are members). *)
Inductive Action : Type :=
| NONE | STOP | SPOT | ALPHA | BETA | CHARLIE | DELTA | ECHO
| WATCH | TRACEENABLE | TRACEDATA | TRACEON | TRACEOFF | TRACETRIGGER.

Definition Action_value (a : Action) : Z :=
  match a with
  | NONE => 0x00 | STOP => 0x01 | SPOT => 0x02 | ALPHA => 0x04
  | BETA => 0x08 | CHARLIE => 0x10 | DELTA => 0x20 | ECHO => 0x40
  | WATCH => 0x02000000 | TRACEENABLE => 0x04000000
  | TRACEDATA => 0x08000000 | TRACEON => 0x10000000
  | TRACEOFF => 0x20000000 | TRACETRIGGER => 0x40000000
  end.

Definition all_actions : list Action :=
  [NONE; STOP; SPOT; ALPHA; BETA; CHARLIE; DELTA; ECHO;
   WATCH; TRACEENABLE; TRACEDATA; TRACEON; TRACEOFF; TRACETRIGGER].

(** [Breakpoint.Action(n)]: the member of value [n], else ValueError. *)
Definition Action_of (n : Z) : outcome Action :=
  match find (fun a => Action_value a =? n) all_actions with
  | Some a => Ok a
  | None => Raise ValueError
  end.

(** [Breakpoint.Type] *)
Inductive Type_ : Type := DELETED | PROGRAM | READ | WRITE | RW.

Definition Type_value (t : Type_) : Z :=
  match t with
  | DELETED => 0x00 | PROGRAM => 0x01 | READ => 0x02 | WRITE => 0x04 | RW => 0x06
  end.

Definition Type_of (n : Z) : outcome Type_ :=
  match find (fun a => Type_value a =? n) [DELETED; PROGRAM; READ; WRITE; RW] with
  | Some a => Ok a
  | None => Raise ValueError
  end.

(** [Breakpoint.Impl] *)
Inductive Impl : Type := AUTO | SOFT | ONCHIP | HARD | MARK.

Definition Impl_value (i : Impl) : Z :=
  match i with
  | AUTO => 0x00 | SOFT => 0x01 | ONCHIP => 0x02 | HARD => 0x04 | MARK => 0x08
  end.

Definition Impl_of (n : Z) : outcome Impl :=
  match find (fun a => Impl_value a =? n) [AUTO; SOFT; ONCHIP; HARD; MARK] with
  | Some a => Ok a
  | None => Raise ValueError
  end.

(** The attributes of a [Breakpoint].  [address = None] stands for any
    value that is not an [Address] instance. *)
Record t : Type := mk {
  action : option Action;
  address : option Address.t;
  core : option Z;
  enabled : bool;
  impl : option Impl;
  size : option Z;
  type_ : option Type_
}.

(** [Breakpoint(conn)]: every keyword at its default. *)
Definition default : t := mk None None None true None None None.

Definition set_action (self : t) v := mk v (address self) (core self) (enabled self) (impl self) (size self) (type_ self).
Definition set_address (self : t) v := mk (action self) v (core self) (enabled self) (impl self) (size self) (type_ self).
Definition set_core (self : t) v := mk (action self) (address self) v (enabled self) (impl self) (size self) (type_ self).
Definition set_enabled (self : t) v := mk (action self) (address self) (core self) v (impl self) (size self) (type_ self).
Definition set_impl (self : t) v := mk (action self) (address self) (core self) (enabled self) v (size self) (type_ self).
Definition set_size (self : t) v := mk (action self) (address self) (core self) (enabled self) (impl self) v (type_ self).
Definition set_type (self : t) v := mk (action self) (address self) (core self) (enabled self) (impl self) (size self) v.

(** [struct.pack("<2sI", tag, n)] and [struct.pack("<2sQ", tag, n)] *)
Definition pack_2sI (tag : bytes) (n : Z) : outcome bytes :=
  b <- pack_I n ;; Ok (pack_s 2 tag ++ b).
Definition pack_2sQ (tag : bytes) (n : Z) : outcome bytes :=
  b <- pack_Q n ;; Ok (pack_s 2 tag ++ b).

(** [Breakpoint.serialize()] *)
Definition serialize (self : t) : outcome (nat * bytes) :=
  a <- match address self with Some a => Ok a | None => Raise BreakpointError end ;;
  '(addr_params_size, addr_params) <- Address.serialize a 0 None ;;
  let result := B "AD" ++ addr_params in
  result <-
    match size self with
    | Some sz => f <- pack_2sQ (B "SZ") sz ;; Ok (result ++ f)
    | None => Ok result
    end ;;
  f <- pack_2sI (B "TY")
         (match type_ self with Some ty => Type_value ty | None => Type_value PROGRAM end) ;;
  let result := result ++ f in
  f <- pack_2sI (B "IM")
         (match impl self with Some i => Impl_value i | None => Impl_value AUTO end) ;;
  let result := result ++ f in
  f <- pack_2sI (B "CA")
         (match action self with Some a => Action_value a | None => Action_value NONE end) ;;
  let result := result ++ f in
  let result := result ++ B "EN" in
  let result := result ++ (if enabled self then [x01; x00] else [x00; x00]) in
  result <-
    match core self with
    | Some c => f <- pack_2sI (B "CO") c ;; Ok (result ++ f)
    | None => Ok result
    end ;;
  let result := result ++ B "XX" in
  let result := result ++ [x00; x00] in
  Ok (length result, result).

(** The [while read_ptr < len(recv_buffer)] loop of [Breakpoint.deserialize],
    acting on [self]. *)
Fixpoint deserialize_loop (fuel : nat) (self : t) (recv_buffer : bytes)
         (read_ptr : nat) : outcome t :=
  match fuel with
  | O => Stuck OutOfFuel
  | S fuel =>
    if (read_ptr <? length recv_buffer)%nat then
      let parameter_id := slice recv_buffer read_ptr (read_ptr + 2) in
      if bytes_eqb parameter_id (B "SZ") then
        let read_ptr := (read_ptr + 2)%nat in
        let next_read_ptr := (read_ptr + 8)%nat in
        let self := set_size self (Some (from_bytes_le (slice recv_buffer read_ptr next_read_ptr))) in
        deserialize_loop fuel self recv_buffer next_read_ptr
      else if bytes_eqb parameter_id (B "AD") then
        let read_ptr := (read_ptr + 2)%nat in
        '(addr_params_size, address) <- Address.deserialize (slice_from recv_buffer read_ptr) ;;
        let next_read_ptr := (read_ptr + addr_params_size)%nat in
        let self := set_address self (Some address) in
        deserialize_loop fuel self recv_buffer next_read_ptr
      else if bytes_eqb parameter_id (B "TY") then
        let read_ptr := (read_ptr + 2)%nat in
        let next_read_ptr := (read_ptr + 4)%nat in
        ty <- Type_of (from_bytes_le (slice recv_buffer read_ptr next_read_ptr)) ;;
        deserialize_loop fuel (set_type self (Some ty)) recv_buffer next_read_ptr
      else if bytes_eqb parameter_id (B "DM") || bytes_eqb parameter_id (B "IM") then
        let read_ptr := (read_ptr + 2)%nat in
        let next_read_ptr := (read_ptr + 4)%nat in
        i <- Impl_of (from_bytes_le (slice recv_buffer read_ptr next_read_ptr)) ;;
        deserialize_loop fuel (set_impl self (Some i)) recv_buffer next_read_ptr
      else if bytes_eqb parameter_id (B "jj") then
        ty <- Type_of 0 ;;
        let self := set_type self (Some ty) in
        i <- Impl_of 0 ;;
        let self := set_impl self (Some i) in
        Ok self
      else if bytes_eqb parameter_id (B "hh") then
        (* sent by PowerView for a reason unknown to the client: skipped *)
        deserialize_loop fuel self recv_buffer (read_ptr + 2 + 2)
      else if bytes_eqb parameter_id (B "CA") then
        let read_ptr := (read_ptr + 2)%nat in
        let next_read_ptr := (read_ptr + 4)%nat in
        a <- Action_of (from_bytes_le (slice recv_buffer read_ptr next_read_ptr)) ;;
        deserialize_loop fuel (set_action self (Some a)) recv_buffer next_read_ptr
      else if bytes_eqb parameter_id (B "EN") then
        let read_ptr := (read_ptr + 2)%nat in
        let next_read_ptr := (read_ptr + 2)%nat in
        let en := from_bytes_le (slice recv_buffer read_ptr next_read_ptr) =? 1 in
        deserialize_loop fuel (set_enabled self en) recv_buffer next_read_ptr
      else if bytes_eqb parameter_id (B "CO") then
        let read_ptr := (read_ptr + 2)%nat in
        let next_read_ptr := (read_ptr + 4)%nat in
        let c := from_bytes_le (slice recv_buffer read_ptr (read_ptr + 4)) in
        deserialize_loop fuel (set_core self (Some c)) recv_buffer next_read_ptr
      else if bytes_eqb parameter_id (B "XX") then
        Ok self
      else Raise ValueError
    else Ok self
  end.

(** [Breakpoint.deserialize(recv_buffer)]: [self] after the update. *)
Definition deserialize (self : t) (recv_buffer : bytes) : outcome t :=
  deserialize_loop (S (length recv_buffer)) self recv_buffer 0.

End Breakpoint.

(* ================================================================== *)
(** * _symbol.py                                                       *)
(* ================================================================== *)

Module Symbol.

Record t : Type := mk {
  address : option Address.t;
  name : option str;
  path : option str;
  size : option Z
}.

(** [Symbol(conn, address=..., name=...)] *)
Definition init (address : option Address.t) (name : option str) : t :=
  mk address name None None.

(** [Symbol.serialize()] *)
Definition serialize (self : t) : outcome (nat * bytes) :=
  let result := [] in
  result <-
    match address self with
    | Some a =>
        let result := result ++ B "AD" in
        '(addr_params_size, addr_params) <- Address.serialize a 0 None ;;
        Ok (result ++ addr_params)
    | None => Ok result
    end ;;
  result <-
    match name self with
    | Some n =>
        (* str_serialize *)
        let len0a := Z.land (Z.of_nat (length n) + 2) (Z.lnot 1) in
        h <- pack_H len0a ;;
        e <- encode n ;;
        Ok (result ++ pack_s 2 (B "NM") ++ h ++ pack_s (Z.to_nat len0a) e)
    | None => Ok result
    end ;;
  let result := result ++ B "XX" in
  Ok (length result, result).

(** The loop of [Symbol.deserialize], acting on [self]. *)
Fixpoint deserialize_loop (fuel : nat) (self : t) (recv_buffer : bytes)
         (read_ptr : nat) : outcome t :=
  match fuel with
  | O => Stuck OutOfFuel
  | S fuel =>
    if (read_ptr <? length recv_buffer)%nat then
      let parameter_id := slice recv_buffer read_ptr (read_ptr + 2) in
      let read_ptr := (read_ptr + 2)%nat in
      if bytes_eqb parameter_id (B "AD") then
        '(addr_params_size, address) <- Address.deserialize (slice_from recv_buffer read_ptr) ;;
        let next_read_ptr := (read_ptr + addr_params_size)%nat in
        deserialize_loop fuel (mk (Some address) (name self) (path self) (size self))
                         recv_buffer next_read_ptr
      else if bytes_eqb parameter_id (B "NM") then
        let field_len := Z.to_nat (from_bytes_le (slice recv_buffer read_ptr (read_ptr + 2))) in
        let read_ptr := (read_ptr + 2)%nat in
        let next_read_ptr := (read_ptr + field_len)%nat in
        (* str_deserialize *)
        d <- decode (slice recv_buffer read_ptr next_read_ptr) ;;
        let name_ := rstrip x00 d in
        deserialize_loop fuel (mk (address self) (Some name_) (path self) (size self))
                         recv_buffer next_read_ptr
      else if bytes_eqb parameter_id (B "PT") then
        let field_len := Z.to_nat (from_bytes_le (slice recv_buffer read_ptr (read_ptr + 2))) in
        let read_ptr := (read_ptr + 2)%nat in
        let next_read_ptr := (read_ptr + field_len)%nat in
        d <- decode (slice recv_buffer read_ptr next_read_ptr) ;;
        let path_ := rstrip x00 d in
        deserialize_loop fuel (mk (address self) (name self) (Some path_) (size self))
                         recv_buffer next_read_ptr
      else if bytes_eqb parameter_id (B "SZ") then
        let next_read_ptr := (read_ptr + 8)%nat in
        let size_ := from_bytes_le (slice recv_buffer read_ptr next_read_ptr) in
        deserialize_loop fuel (mk (address self) (name self) (path self) (Some size_))
                         recv_buffer next_read_ptr
      else if bytes_eqb parameter_id (B "NE") then
        let field_len := Z.to_nat (from_bytes_le (slice recv_buffer read_ptr (read_ptr + 2))) in
        let read_ptr := (read_ptr + 2)%nat in
        let next_read_ptr := (read_ptr + field_len)%nat in
        d <- decode (slice recv_buffer read_ptr next_read_ptr) ;;
        let name_extension := rstrip x00 d in
        match name self with
        | None => Raise AssertionError
        | Some n =>
            deserialize_loop fuel
              (mk (address self) (Some (n ++ name_extension)) (path self) (size self))
              recv_buffer next_read_ptr
        end
      else if bytes_eqb parameter_id (B "XX") then
        Ok self
      else Raise ValueError
    else Ok self
  end.

(** [Symbol.deserialize(recv_buffer)] for a buffer that is not [None]:
    the four attributes are reset, then read from the buffer. *)
Definition deserialize (self : t) (recv_buffer : bytes) : outcome t :=
  let self := mk None None None (Some 0) in
  deserialize_loop (S (length recv_buffer)) self recv_buffer 0.

End Symbol.

(* ================================================================== *)
(** * _register.py                                                     *)
(* ================================================================== *)

Module Register.

(** [Unit] (IntEnum) *)
Inductive Unit : Type := CPU | FPU | VPU.

Definition Unit_value (u : Unit) : Z :=
  match u with CPU => 0x04 | FPU => 0x08 | VPU => 0x10 end.

Definition Unit_name (u : Unit) : str :=
  match u with CPU => B "CPU" | FPU => B "FPU" | VPU => B "VPU" end.

(** [Unit(n)] *)
Definition Unit_of (n : Z) : outcome Unit :=
  match find (fun u => Unit_value u =? n) [CPU; FPU; VPU] with
  | Some u => Ok u
  | None => Raise ValueError
  end.

(** [Unit[name]]; the KeyError is turned into ValueError by the caller. *)
Definition Unit_named (name : str) : outcome Unit :=
  match find (fun u => bytes_eqb (Unit_name u) name) [CPU; FPU; VPU] with
  | Some u => Ok u
  | None => Raise ValueError
  end.

(** The attributes of a [Register]. *)
Record t : Type := mk {
  core : option Z;
  name : option str;
  unit : option str;
  value : option Z;
  fvalue : option float
}.

(** What a caller may assign to [value] or [fvalue]. *)
Inductive pyval : Type :=
| PyNone
| PyInt (z : Z)
| PyFloat (f : float)
| PyOther.                (* any object that is neither of the above *)

(** The [value] setter. *)
Definition set_value (self : t) (v : pyval) : outcome t :=
  match v with
  | PyNone => Ok (mk (core self) (name self) (unit self) None (fvalue self))
  | PyInt z => Ok (mk (core self) (name self) (unit self) (Some z) None)
  | _ => Raise RegisterValueError
  end.

(** The [fvalue] setter. *)
Definition set_fvalue (self : t) (v : pyval) : outcome t :=
  match v with
  | PyNone => Ok (mk (core self) (name self) (unit self) (value self) None)
  | PyFloat f => Ok (mk (core self) (name self) (unit self) None (Some f))
  | _ => Raise RegisterValueError
  end.

(** [Register(conn, core=, name=, value=, unit=, fvalue=)]: [core], [name]
    and [unit] are stored, then [value] and [fvalue] go through the setters,
    in this order. *)
Definition init (core : option Z) (name : option str) (value : pyval)
           (unit : option str) (fvalue : pyval) : outcome t :=
  let self := mk core name unit None None in
  self <- set_value self value ;;
  set_fvalue self fvalue.

Definition option_eqb {A} (eqb : A -> A -> bool) (a b : option A) : bool :=
  match a, b with
  | Some x, Some y => eqb x y
  | None, None => true
  | _, _ => false
  end.

(** [Register.__eq__] against another [Register]. *)
Definition eq (self other : t) : bool :=
  if option_eqb Z.eqb (core self) (core other)
     && option_eqb bytes_eqb (name self) (name other)
     && option_eqb Z.eqb (value self) (value other)
  then true else false.

(** [Register._serialize()] *)
Definition _serialize (self : t) : outcome bytes :=
  let result := [] in
  result <-
    match name self with
    | Some n =>
        let name_len := Z.of_nat (length n) in
        let name_len := if Z.land name_len 1 =? 0 then name_len else name_len + 1 in
        h <- pack_H name_len ;;
        e <- encode n ;;
        Ok (result ++ pack_s 2 (B "NM") ++ h ++ pack_s (Z.to_nat name_len) e)
    | None => Ok result
    end ;;
  reg_type <-
    match unit self with
    | Some u => r <- Unit_named (upper u) ;; Ok (Unit_value r)
    | None => Ok (Unit_value CPU)
    end ;;
  h <- pack_H reg_type ;;
  let result := result ++ pack_s 2 (B "TY") ++ h in
  result <-
    match value self with
    | Some v =>
        bytes_value <- match pack_q v with
                       | Raise StructError => pack_Q v
                       | r => r
                       end ;;
        Ok (result ++ pack_s 2 (B "VA") ++ bytes_value)
    | None => Ok result
    end ;;
  result <-
    match fvalue self with
    | Some f => Ok (result ++ pack_s 2 (B "FV") ++ pack_d f)
    | None => Ok result
    end ;;
  result <-
    match core self with
    | Some c => h <- pack_H c ;; Ok (result ++ pack_s 2 (B "CO") ++ h)
    | None => Ok result
    end ;;
  Ok (result ++ pack_s 4 (B "XXXX")).

(** The blocks of [Register._deserialize(data)], one per
    [if data[counter : counter + 2] == tag]; each takes and returns the
    local variable [counter] and [self]. *)

(** Name extraction *)
Definition extract_name (self : t) (data : bytes) (counter : nat)
  : outcome (nat * t) :=
  if bytes_eqb (slice data counter (counter + 2)) (B "NM") then
    let name_len := Z.to_nat (from_bytes_le (slice data (counter + 2) (counter + 3))) in
    n <- decode_unicode_escape (slice data (counter + 4) (counter + name_len + 4)) ;;
    n <- match rev n with
         | [] => Raise IndexError
         | last :: front => Ok (if Byte.eqb last x00 then rev front else n)
         end ;;
    Ok ((counter + (4 + name_len))%nat,
        mk (core self) (Some n) (unit self) (value self) (fvalue self))
  else Ok (counter, self).

(** Type extraction *)
Definition extract_type (self : t) (data : bytes) (counter : nat)
  : outcome (nat * t) :=
  if bytes_eqb (slice data counter (counter + 2)) (B "TY") then
    let reg_type := slice data (counter + 2) (counter + 4) in
    u <- Unit_of (from_bytes_le reg_type) ;;
    Ok ((counter + 4)%nat,
        mk (core self) (name self) (Some (Unit_name u)) (value self) (fvalue self))
  else Ok (counter, self).

(** Value extraction *)
Definition extract_value (self : t) (data : bytes) (counter : nat)
  : outcome (nat * t) :=
  if bytes_eqb (slice data counter (counter + 2)) (B "VA") then
    let v := from_bytes_le (slice data (counter + 2) (counter + 10)) in
    Ok ((counter + 10)%nat,
        mk (core self) (name self) (unit self) (Some v) (fvalue self))
  else Ok (counter, self).

(** Floating Point Value extraction *)
Definition extract_fvalue (self : t) (data : bytes) (counter : nat)
  : outcome (nat * t) :=
  if bytes_eqb (slice data counter (counter + 2)) (B "FV") then
    f <- unpack_d (slice data (counter + 2) (counter + 10)) ;;
    Ok ((counter + 10)%nat,
        mk (core self) (name self) (unit self) (value self) (Some f))
  else Ok (counter, self).

(** Core extraction *)
Definition extract_core (self : t) (data : bytes) (counter : nat)
  : outcome (nat * t) :=
  if bytes_eqb (slice data counter (counter + 2)) (B "CO") then
    let c := from_bytes_le_signed (slice data (counter + 2) (counter + 4)) in
    Ok ((counter + 4)%nat,
        mk (Some c) (name self) (unit self) (value self) (fvalue self))
  else Ok (counter, self).

(** The two [return] statements that end the method. *)
Definition extract_end (self : t) (data : bytes) (counter : nat)
  : outcome (nat * t) :=
  if bytes_eqb (slice data counter (counter + 2)) (B "XX")
  then Ok (counter, self)
  else Ok ((counter + 1)%nat, self).

(** [Register._deserialize(data)]: the length processed and [self] after
    the update. *)
Definition _deserialize (self : t) (data : bytes) : outcome (nat * t) :=
  let counter := 0%nat in
  '(counter, self) <- extract_name self data counter ;;
  '(counter, self) <- extract_type self data counter ;;
  '(counter, self) <- extract_value self data counter ;;
  '(counter, self) <- extract_fvalue self data counter ;;
  '(counter, self) <- extract_core self data counter ;;
  extract_end self data counter.

End Register.

(* ================================================================== *)
(** * hlinknet.py                                                      *)
(* ================================================================== *)

Module Hlinknet.

(** UDP specific constant definitions *)
Definition T32_API_RECEIVE : Z := 0x01.
Definition T32_API_SYNCREQUEST : Z := 0x02.
Definition T32_API_CONNECTREQUEST : Z := 0x03.
Definition T32_API_DISCONNECT : Z := 0x04.
Definition T32_API_SYNCBACKREQ : Z := 0x05.
Definition T32_API_NOTIFICATION : Z := 0x06.
Definition T32_API_NORMAL_TRANSMIT : Z := 0x11.
Definition T32_API_SYNCACKN : Z := 0x12.
Definition T32_API_SYNCACKN_BACK : Z := 0x13.
Definition T32_API_SYNCBACK : Z := 0x22.
Definition T32_API_KEEPALIVE : Z := 0xFE.
Definition PCKLEN_MAX : Z := 0x4000.
Definition MAGIC_PATTERN : bytes := B "TRACE32" ++ [x00].
Definition MAGIC_PATTERN_LENGTH : nat := length MAGIC_PATTERN.

(** TCP specific constant definitions *)
Definition T32_NETTCP_RCL_REQ : Z := 0x0010.
Definition T32_NETTCP_RCL_RESP : Z := 0x0011.
Definition T32_NETTCP_RCL_NOTIFY : Z := 0x0012.

(** An entry of a [queue.Queue]: a bytes object or [None]. *)
Definition message := option bytes.

(** The socket as the client sees it: what was handed to [sendto], and
    what the coming calls of [recvfrom]/[recv] return, one element per
    call; when [incoming] is used up the call times out. *)
Record socket : Type := mkSocket {
  sent : list bytes;
  incoming : list bytes
}.

(** Which subclass of [CommunicationBase] an object belongs to. *)
Inductive protocol : Type := TCP | UDP.

(** The attributes of a [CommunicationBase] object. *)
Record comm : Type := mkComm {
  kind : protocol;
  _socket : option socket;
  socket_content : bytes;
  _transmit_block_id : Z;
  _receive_block_id : Z;
  _packlen : Z;
  _timeout : option float;
  _notify_queue : list message;
  _response_queue : list message;
  _port : Z
}.

(** [CommunicationBase.__init__(packlen, timeout)] *)
Definition init (k : protocol) (packlen : Z) (timeout : option float) : comm :=
  mkComm k None [] 0 0 packlen timeout [] [] 0.

Definition with_socket (self : comm) v :=
  mkComm (kind self) v (socket_content self) (_transmit_block_id self)
         (_receive_block_id self) (_packlen self) (_timeout self)
         (_notify_queue self) (_response_queue self) (_port self).
Definition with_socket_content (self : comm) v :=
  mkComm (kind self) (_socket self) v (_transmit_block_id self)
         (_receive_block_id self) (_packlen self) (_timeout self)
         (_notify_queue self) (_response_queue self) (_port self).
Definition with_transmit_block_id (self : comm) v :=
  mkComm (kind self) (_socket self) (socket_content self) v
         (_receive_block_id self) (_packlen self) (_timeout self)
         (_notify_queue self) (_response_queue self) (_port self).
Definition with_receive_block_id (self : comm) v :=
  mkComm (kind self) (_socket self) (socket_content self) (_transmit_block_id self)
         v (_packlen self) (_timeout self)
         (_notify_queue self) (_response_queue self) (_port self).
Definition with_packlen (self : comm) v :=
  mkComm (kind self) (_socket self) (socket_content self) (_transmit_block_id self)
         (_receive_block_id self) v (_timeout self)
         (_notify_queue self) (_response_queue self) (_port self).
Definition with_notify_queue (self : comm) v :=
  mkComm (kind self) (_socket self) (socket_content self) (_transmit_block_id self)
         (_receive_block_id self) (_packlen self) (_timeout self)
         v (_response_queue self) (_port self).
Definition with_response_queue (self : comm) v :=
  mkComm (kind self) (_socket self) (socket_content self) (_transmit_block_id self)
         (_receive_block_id self) (_packlen self) (_timeout self)
         (_notify_queue self) v (_port self).
Definition with_port (self : comm) v :=
  mkComm (kind self) (_socket self) (socket_content self) (_transmit_block_id self)
         (_receive_block_id self) (_packlen self) (_timeout self)
         (_notify_queue self) (_response_queue self) v.

(** [self._socket.sendto(data, ...)] on an open socket *)
Definition sendto (self : comm) (data : bytes) : outcome unit * comm :=
  match _socket self with
  | Some sk => (Ok tt, with_socket self (Some (mkSocket (sent sk ++ [data]) (incoming sk))))
  | None => (Raise SocketError, self)
  end.

(** [self._socket.recvfrom(...)] *)
Definition recvfrom (self : comm) : outcome bytes * comm :=
  match _socket self with
  | Some sk =>
      match incoming sk with
      | data :: rest => (Ok data, with_socket self (Some (mkSocket (sent sk) rest)))
      | [] => (Raise SocketTimeout, self)
      end
  | None => (Raise SocketError, self)
  end.

(** ** CommunicationTcp *)

Definition ALIGN64 : nat := 0x08.
Definition HEADER_LEN : nat := 0x08.
Definition RCL_REQ : Z := 0x0010.
Definition RCL_RESP : Z := 0x0011.
Definition RCL_NOTIFY : Z := 0x0012.

(** [CommunicationTcp.transmit(data)] *)
Definition tcp_transmit (self : comm) (data : bytes) : outcome unit * comm :=
  let size := Z.of_nat (length data) in
  let padding_length := Common.align_eight (size + 4 + 4) in
  match (h1 <- pack_I size ;; h2 <- pack_I T32_NETTCP_RCL_REQ ;;
         Ok (h1 ++ h2 ++ pack_s (length data) data ++ pack_x (Z.to_nat padding_length))) with
  | Ok send_data =>
      match sendto self send_data with
      | (Ok _, self) => (Ok tt, self)
      | (_, self) => (Raise ApiConnectionTransmitError, self)
      end
  | _ => (Raise ApiConnectionTransmitError, self)
  end.

(** The [while True] loop of [CommunicationTcp.extract_message]. *)
Fixpoint tcp_extract_message_loop (fuel : nat) (self : comm) : outcome unit * comm :=
  match fuel with
  | O => (Stuck OutOfFuel, self)
  | S fuel =>
    let socket_content_ := socket_content self in
    let content_len := length socket_content_ in
    if (HEADER_LEN <=? content_len)%nat then
      (* The first 4 bytes of the message contain the length of the payload *)
      let message_payload_len := Z.to_nat (from_bytes_le (slice socket_content_ 0 4)) in
      (* message length with header *)
      let message_len := (message_payload_len + HEADER_LEN)%nat in
      if (message_len <=? content_len)%nat then
        let message_type := from_bytes_le (slice socket_content_ 4 8) in
        let message_payload := slice socket_content_ HEADER_LEN message_len in
        let message_len_stuffed :=
          (((message_len + ALIGN64 - 1) / ALIGN64) * ALIGN64)%nat in
        (* the processed message is now deleted from the socket cache *)
        let self := with_socket_content self (slice_from socket_content_ message_len_stuffed) in
        if message_type =? RCL_NOTIFY then
          tcp_extract_message_loop fuel
            (with_notify_queue self (_notify_queue self ++ [Some message_payload]))
        else if message_type =? RCL_RESP then
          tcp_extract_message_loop fuel
            (with_response_queue self (_response_queue self ++ [Some message_payload]))
        else (Raise ConnectionError, self)
      else (Ok tt, self)
    else
      (* Without Header there can be no valid payload *)
      (Ok tt, with_socket_content self [])
  end.

(** [CommunicationTcp.extract_message()]: each turn that does not leave
    the loop removes at least [HEADER_LEN] bytes from the cache. *)
Definition tcp_extract_message (self : comm) : outcome unit * comm :=
  tcp_extract_message_loop (S (length (socket_content self))) self.

(** The body of [CommunicationTcp.poll_response] once [recvfrom] has
    returned [message_received]. *)
Definition tcp_poll_received (self : comm) (message_received : bytes)
  : outcome unit * comm :=
  tcp_extract_message
    (with_socket_content self (socket_content self ++ message_received)).

(** ** CommunicationUdp *)

Definition MESSAGE_COMPLETE : Z := 0x00.
Definition MESSAGE_INCOMPLETE : Z := 0x01.
Definition HANDSHAKE : Z := 0x02.
Definition HEADER_LEN_SHORT : nat := 0x04.
Definition HEADER_LEN_LONG : nat := 0x07.

(** [CommunicationUdp.extract_message(packet)] *)
Definition udp_extract_message (self : comm) (packet : bytes) : outcome unit * comm :=
  let header_length :=
    match socket_content self with [] => HEADER_LEN_LONG | _ => HEADER_LEN_SHORT end in
  let content_len := length packet in
  match packet with
  | [] => (Raise IndexError, self)
  | p0 :: _ =>
    if Z_of_byte p0 =? 43 (* ord("+") *) then (Ok tt, self)
    else if (content_len <? header_length)%nat then (Ok tt, self)
    else
      match nth_error packet 1 with
      | None => (Raise IndexError, self)
      | Some p1 =>
        if Z_of_byte p1 =? HANDSHAKE then
          match _socket self with
          | Some _ => sendto self ([x07; x00; x00; x00; x00; x00; x00; x00] ++ MAGIC_PATTERN)
          | None => (Raise ConnectionError (* ConnectionResetError *), self)
          end
        else if Z_of_byte p1 =? MESSAGE_COMPLETE then
          let content := socket_content self ++ slice_from packet header_length in
          if Z_of_byte p0 =? T32_API_NOTIFICATION then
            (Ok tt, with_socket_content
                      (with_notify_queue self (_notify_queue self ++ [Some content])) [])
          else if Z_of_byte p0 =? T32_API_RECEIVE then
            (Ok tt, with_socket_content
                      (with_response_queue self (_response_queue self ++ [Some content])) [])
          else (Raise ConnectionError, with_socket_content self content)
        else if Z_of_byte p1 =? MESSAGE_INCOMPLETE then
          (Ok tt, with_socket_content self
                    (socket_content self ++ slice_from packet header_length))
        else (Ok tt, self)
      end
  end.

(** The body of [poll_response] of either subclass once [recvfrom] has
    returned [received]. *)
Definition poll_received (self : comm) (received : bytes) : outcome unit * comm :=
  match kind self with
  | TCP => tcp_poll_received self received
  | UDP => udp_extract_message self received
  end.

(** [poll_response()] *)
Definition poll_response (self : comm) : outcome unit * comm :=
  match _socket self with
  | None => (Raise ValueError, self)
  | Some _ =>
      match recvfrom self with
      | (Ok received, self) => poll_received self received
      | (Raise e, self) => (Raise e, self)
      | (Stuck w, self) => (Stuck w, self)
      end
  end.

(** ** CommunicationBase.receive *)

(** The turns of the [while True] loop of [receive] that find a message in
    the response queue: the queue is consumed from its head until a
    message makes the method return or raise ([Some]), or the queue is
    empty ([None], where the method goes on to [poll_response]). *)
Fixpoint receive_queued (q : list message) (message_id : Z)
  : option (outcome bytes) * list message :=
  match q with
  | [] => (None, [])
  | None :: q' => (Some (Raise ConnectionError), q')
  | Some msg :: q' =>
      match msg with
      | [] => receive_queued q' message_id
      | m0 :: _ =>
          if Z_of_byte m0 =? T32_API_KEEPALIVE then receive_queued q' message_id
          else
            match nth_error msg 1 with
            | None => (Some (Raise IndexError), q')
            | Some m1 =>
                if Z_of_byte m1 <? message_id then receive_queued q' message_id
                else if Z_of_byte m1 =? message_id then (Some (Ok msg), q')
                else (Some (Raise ConnectionError), q')
            end
      end
  end.

(** [receive(message_id)], by recursion on the reads the socket still
    holds ([reads] is [incoming] of the socket of [self]): every
    [poll_response] uses one up, and times out when none is left. *)
Fixpoint receive_loop (reads : list bytes) (self : comm) (message_id : Z)
  : outcome bytes * comm :=
  match receive_queued (_response_queue self) message_id with
  | (Some r, q) => (r, with_response_queue self q)
  | (None, q) =>
      let self := with_response_queue self q in
      match _socket self with
      | None => (Raise ValueError, self)
      | Some sk =>
          match reads with
          | [] => (Raise SocketTimeout, self)
          | received :: reads' =>
              let self := with_socket self (Some (mkSocket (sent sk) reads')) in
              match poll_received self received with
              | (Ok _, self) => receive_loop reads' self message_id
              | (Raise e, self) => (Raise e, self)
              | (Stuck w, self) => (Stuck w, self)
              end
          end
      end
  end.

Definition receive (self : comm) (message_id : Z) : outcome bytes * comm :=
  receive_loop (match _socket self with Some sk => incoming sk | None => [] end)
               self message_id.

(** ** CommunicationUdp.sync *)

(** [struct.pack("BBHI8s", kind, 0x00, self._transmit_block_id, 0x00,
    MAGIC_PATTERN)] *)
Definition sync_datagram (kind_ : Z) (self : comm) : outcome bytes :=
  b0 <- pack_B kind_ ;;
  b1 <- pack_B 0x00 ;;
  h <- pack_H (_transmit_block_id self) ;;
  i <- pack_I 0x00 ;;
  Ok (b0 ++ b1 ++ h ++ i ++ pack_s MAGIC_PATTERN_LENGTH MAGIC_PATTERN).

Section SyncAttempts.

(** The recursive call [self.sync(...)]. *)
Variable retry : comm -> Z -> outcome bool * comm.
Variable maxTries : Z.

(** [for attempt in range(maxTries): ... else: raise ...], with [n]
    turns left; the result is the value of [success] when the loop is
    left through [break]. *)
Fixpoint sync_attempts (n : nat) (attempt : Z) (self : comm) : outcome bool * comm :=
  match n with
  | O => (Raise ApiConnectionSyncError, self)
  | S n =>
    match recvfrom self with
    | (Ok recv_data, self) =>
      match recv_data with
      | [] => (Raise IndexError, self)
      | r0 :: _ =>
        if (Z_of_byte r0 =? T32_API_SYNCBACKREQ) && (length recv_data =? 16)%nat then
          (* initiate retry with remaining attempts *)
          retry self (maxTries - attempt)
        else if (Z_of_byte r0 =? T32_API_SYNCACKN) && (length recv_data =? 16)%nat
                && bytes_eqb (slice_from recv_data 8) MAGIC_PATTERN then
          (Ok false,
           with_receive_block_id self (from_bytes_le (slice recv_data 2 4)))
        else sync_attempts n (attempt + 1) self
      end
    | (Raise e, self) => (Raise e, self)
    | (Stuck w, self) => (Stuck w, self)
    end
  end.

End SyncAttempts.

(** [except Exception as e: raise ApiConnectionSyncError(e)] *)
Definition sync_wrap {A} (r : outcome A * comm) : outcome A * comm :=
  match r with
  | (Raise _, self) => (Raise ApiConnectionSyncError, self)
  | r => r
  end.

(** [CommunicationUdp.sync(maxTries)].  [depth] is the number of nested
    calls of [sync] that the interpreter still allows before it raises
    RecursionError. *)
Fixpoint udp_sync (depth : nat) (self : comm) (maxTries : Z) : outcome bool * comm :=
  match depth with
  | O => (Raise RecursionError, self)
  | S depth =>
    match sync_datagram T32_API_SYNCREQUEST self with
    | Ok send_data =>
      sync_wrap
        match sendto self send_data with
        | (Ok _, self) =>
          match sync_attempts (udp_sync depth) maxTries (Z.to_nat maxTries) 0 self with
          | (Ok success, self) =>
            if negb success then
              match sync_datagram T32_API_SYNCBACK self with
              | Ok send_data =>
                match sendto self send_data with
                | (Ok _, self) => (Ok true, self)
                | (Raise e, self) => (Raise e, self)
                | (Stuck w, self) => (Stuck w, self)
                end
              | Raise e => (Raise e, self)
              | Stuck w => (Stuck w, self)
              end
            else (Ok success, self)
          | (Raise e, self) => (Raise e, self)
          | (Stuck w, self) => (Stuck w, self)
          end
        | (Raise e, self) => (Raise e, self)
        | (Stuck w, self) => (Stuck w, self)
        end
    | Raise e => (Raise e, self)
    | Stuck w => (Stuck w, self)
    end
  end.

(** [sync(maxTries)] of either subclass; the TCP one is a stub. *)
Definition sync (depth : nat) (self : comm) (maxTries : Z) : outcome bool * comm :=
  match kind self with
  | TCP => (Ok true, self)
  | UDP => udp_sync depth self maxTries
  end.

(** ** connect *)

(** What the operating system and the peer answer while a socket is
    set up: whether the socket can be created (and, for TCP, connected),
    the receive buffer size the system grants, the local port, and the
    datagrams or stream chunks the peer will send. *)
Record net : Type := mkNet {
  reachable : bool;
  rcvbuf : Z;
  receive_port : Z;
  peer : list bytes
}.

(** [CommunicationTcp.connect(node, port)] *)
Definition tcp_connect (env : net) (self : comm) (port : Z) : outcome unit * comm :=
  match _socket self with
  | Some _ => (Ok tt, self)
  | None =>
      let self := with_port self port in
      if reachable env
      then (Ok tt, with_socket self (Some (mkSocket [] (peer env))))
      else (Raise SocketError, with_socket self (Some (mkSocket [] [])))
  end.

(** [CommunicationUdp.connect(node, port)] *)
Definition udp_connect (env : net) (self : comm) (port : Z) : outcome unit * comm :=
  match _socket self with
  | Some _ => (Ok tt, self)
  | None =>
    let self := with_port self port in
    if negb (reachable env) then (Raise ApiConnectionInitError, self)
    else
      let self := with_socket self (Some (mkSocket [] (peer env))) in
      (* negotiate send/receive packet size *)
      let self := with_packlen self (Z.min (rcvbuf env) (_packlen self)) in
      (* Connection *)
      let self := with_transmit_block_id self 1 in
      let padding_length := _packlen self - (1 + 1 + 2 + 2 + 2 + Z.of_nat MAGIC_PATTERN_LENGTH) in
      match (if padding_length <? 0 then Raise StructError else
             b0 <- pack_B T32_API_CONNECTREQUEST ;;
             b1 <- pack_B 0x01 ;;
             h1 <- pack_H (_transmit_block_id self) ;;
             h2 <- pack_H (_port self) ;;
             h3 <- pack_H (receive_port env) ;;
             Ok (b0 ++ b1 ++ h1 ++ h2 ++ h3 ++ pack_s MAGIC_PATTERN_LENGTH MAGIC_PATTERN
                    ++ pack_x (Z.to_nat padding_length))) with
      | Ok magic_sequence =>
        match sendto self magic_sequence with
        | (Ok _, self) =>
          match recvfrom self with
          | (Ok data, self) =>
            match data with
            | [] => (Raise IndexError, self)
            | d0 :: _ =>
              if negb (Z_of_byte d0 =? T32_API_SYNCACKN_BACK) then
                (Raise ApiConnectionInitError, self)
              else if negb (bytes_eqb (slice_from data 1) (slice_from magic_sequence 1)) then
                (Raise ApiConnectionInitError, self)
              else
                (Ok tt, with_receive_block_id self (from_bytes_le (slice data 2 4)))
            end
          | (_, self) => (Raise ApiConnectionInitError, self)
          end
        | (_, self) => (Raise ApiConnectionInitError, self)
        end
      | Raise e => (Raise e, self)
      | Stuck w => (Stuck w, self)
      end
  end.

Definition connect (env : net) (self : comm) (port : Z) : outcome unit * comm :=
  match kind self with
  | TCP => tcp_connect env self port
  | UDP => udp_connect env self port
  end.

(** [CommunicationUdp.transmit(data)]: the [while chunk] loop sends the
    chunk number [chunk_count] (counted from 1) and moves on. *)
Fixpoint udp_transmit_loop (fuel : nat) (self : comm) (data : bytes)
         (chunk_size : nat) (chunk : bytes) (chunk_count : nat) : outcome unit * comm :=
  match fuel with
  | O => (Stuck OutOfFuel, self)
  | S fuel =>
    match chunk with
    | [] => (Ok tt, self)
    | _ =>
      let followingPacketFlag :=
        match slice_from data (chunk_size * chunk_count) with [] => 0 | _ => 1 end in
      match (b0 <- pack_B T32_API_NORMAL_TRANSMIT ;;
             b1 <- pack_B followingPacketFlag ;;
             h <- pack_H (_transmit_block_id self) ;;
             Ok (b0 ++ b1 ++ h ++ pack_s (length chunk) chunk)) with
      | Ok send_data =>
        match sendto self send_data with
        | (Ok _, self) =>
          let self := with_transmit_block_id self
                        ((_transmit_block_id self + 1) mod (Z.shiftl 1 16)) in
          (* prepare next chunk *)
          let chunk_from := (chunk_size * chunk_count)%nat in
          let chunk_to := (chunk_size * (chunk_count + 1))%nat in
          udp_transmit_loop fuel self data chunk_size
                            (slice data chunk_from chunk_to) (chunk_count + 1)
        | (_, self) => (Raise ApiConnectionTransmitError, self)
        end
      | _ => (Raise ApiConnectionTransmitError, self)
      end
    end
  end.

Definition udp_transmit (self : comm) (data : bytes) : outcome unit * comm :=
  (* prepend header *)
  let data := repeat x00 5 ++ data in
  let chunk_size := _packlen self - 4 in
  if chunk_size <? 0 then (Stuck Unmodelled, self)
  else
    let chunk_size := Z.to_nat chunk_size in
    udp_transmit_loop (S (length data)) self data chunk_size (slice data 0 chunk_size) 1.

Definition transmit (self : comm) (data : bytes) : outcome unit * comm :=
  match kind self with
  | TCP => tcp_transmit self data
  | UDP => udp_transmit self data
  end.

End Hlinknet.

(** ** Link *)

Module Link.

Import Hlinknet.

(** The attributes of a [Link].  [transmit_calls] is not an attribute of
    the Python object: it records, in order, the argument of every call of
    [Link.transmit], so that statements can speak about what was handed
    to the transport. *)
Record t : Type := mk {
  node : str;
  port : Z;
  packlen : Z;
  protocol : str;
  timeout : option float;
  _message_id : Z;
  _line : comm;
  transmit_calls : list bytes
}.

Definition with_line (self : t) (l : comm) : t :=
  mk (node self) (port self) (packlen self) (protocol self) (timeout self)
     (_message_id self) l (transmit_calls self).

(** [Link.__init__(node, port, packlen, protocol, timeout)] in the
    network environment [env]. *)
Definition init (env : net) (node : str) (port packlen : Z) (protocol : str)
           (timeout : option float) : outcome t :=
  (* the protocol setter *)
  if negb (bytes_eqb protocol (B "TCP") || bytes_eqb protocol (B "UDP"))
  then Raise ApiConnectionConfigError
  else
    line <-
      (if bytes_eqb protocol (B "TCP") then
         (* ignore packlen parameter for TCP, always use 16384 *)
         Ok (Hlinknet.init TCP 0x4000 timeout)
       else if bytes_eqb protocol (B "UDP") then
         Ok (Hlinknet.init UDP packlen timeout)
       else Raise NotImplementedError) ;;
    let self := mk node port packlen protocol timeout 0 line [] in
    (* self.connect() *)
    match Hlinknet.connect env (_line self) (port) with
    | (Ok _, l) => Ok (with_line self l)
    | (Raise e, _) => Raise e
    | (Stuck w, _) => Stuck w
    end.

(** [Link.get_message_id()] *)
Definition get_message_id (self : t) : Z := _message_id self mod 255.

(** [Link.increment_message_id(n=1)] *)
Definition increment_message_id (self : t) : Z * t :=
  let self := mk (node self) (port self) (packlen self) (protocol self) (timeout self)
                 (_message_id self + 1) (_line self) (transmit_calls self) in
  (_message_id self mod 255, self).

(** [Link.transmit(data)] *)
Definition transmit (self : t) (data : bytes) : outcome unit * t :=
  let self := mk (node self) (port self) (packlen self) (protocol self) (timeout self)
                 (_message_id self) (_line self) (transmit_calls self ++ [data]) in
  let '(r, l) := Hlinknet.transmit (_line self) data in
  (r, with_line self l).

(** [Link.receive()] *)
Definition receive (self : t) : outcome bytes * t :=
  let msg_id := get_message_id self in
  match Hlinknet.receive (_line self) msg_id with
  | (Raise SocketTimeout, l) => (Raise ApiConnectionTimeoutError, with_line self l)
  | (r, l) => (r, with_line self l)
  end.

(** [Link.getHeadersize()] *)
Definition getHeadersize (self : t) : Z :=
  match kind (_line self) with TCP => 8 + 2 | UDP => 5 + 4 end.

End Link.

(* ================================================================== *)
(** * _memory_bundle.py                                                *)
(* ================================================================== *)

Module MemoryBundle.

Definition _EMU_CBMAXDATASIZE : Z := 0x3C00.

(** [MemoryAccessBundleType] *)
Definition WRITE : Z := 0.
Definition READ : Z := 1.
Definition READWRITE : Z := 2.

(** The three subclasses of [MemoryAccess], with their fields. *)
Inductive MemoryAccess : Type :=
| MemoryReadAccess (address : Address.t) (length : Z) (width : option Z)
| MemoryWriteAccess (address : Address.t) (data : bytes) (width : option Z)
| MemoryReadWriteAccess (address : Address.t) (data mask : bytes) (width : option Z).

(** [struct.pack("<HH", a, b)] *)
Definition pack_HH (a b : Z) : outcome bytes :=
  x <- pack_H a ;; y <- pack_H b ;; Ok (x ++ y).

(** [access.serialize()] of each subclass *)
Definition access_serialize (a : MemoryAccess) : outcome bytes :=
  match a with
  | MemoryReadAccess address length_ _ =>
      h <- pack_HH READ length_ ;;
      '(_, ad) <- Address.serialize address 0 (Some 1) ;;
      Ok (h ++ ad)
  | MemoryWriteAccess address data _ =>
      h <- pack_HH WRITE (Z.of_nat (length data)) ;;
      '(_, ad) <- Address.serialize address 0 (Some 1) ;;
      let tmp := h ++ ad ++ data in
      Ok (if Z.of_nat (length data) mod 2 =? 0 then tmp else tmp ++ [x00])
  | MemoryReadWriteAccess address data mask _ =>
      if negb (length data =? length mask)%nat then Raise AssertionError
      else
        h <- pack_HH READWRITE (Z.of_nat (length data)) ;;
        '(_, ad) <- Address.serialize address 0 (Some 1) ;;
        Ok (h ++ ad ++ data ++ mask)
  end.

(** [MemoryAccessResult] *)
Record MemoryAccessResult : Type := mkResult {
  data : option bytes;
  error : bool            (* whether [error] holds an exception *)
}.

(** [access.deserialize(buffer)] of each subclass *)
Definition access_deserialize (a : MemoryAccess) (buffer : bytes)
  : outcome (bytes * MemoryAccessResult) :=
  if (length buffer <? 2)%nat then Raise StructError
  else
    let ok := from_bytes_le (slice buffer 0 2) in
    match a with
    | MemoryReadAccess _ length_ _ =>
        if ok =? 1 then
          if length_ <? 0 then Stuck Unmodelled
          else
            let n := Z.to_nat length_ in
            Ok (slice_from buffer (2 + n), mkResult (Some (slice buffer 2 (2 + n))) false)
        else Ok (slice_from buffer 2, mkResult None true)
    | MemoryWriteAccess _ _ _ =>
        if ok =? 1 then Ok (slice_from buffer 2, mkResult None false)
        else Ok (slice_from buffer 2, mkResult None true)
    | MemoryReadWriteAccess _ data_ _ _ =>
        if ok =? 1 then
          let n := length data_ in
          Ok (slice_from buffer (2 + n), mkResult (Some (slice buffer 2 (2 + n))) false)
        else Ok (slice_from buffer 2, mkResult None true)
    end.

(** A [MemoryAccessBundle] is its [access_list]. *)
Definition t := list MemoryAccess.

(** [for access in self.access_list: data += access.serialize()] *)
Fixpoint serialize_accesses (data : bytes) (access_list : t) : outcome bytes :=
  match access_list with
  | [] => Ok data
  | access :: rest =>
      tmp <- access_serialize access ;;
      serialize_accesses (data ++ tmp) rest
  end.

(** [MemoryAccessBundle.serialize()] *)
Definition serialize (self : t) : outcome bytes :=
  data <- pack_HH 0 (Z.of_nat (length self)) ;;
  data <- serialize_accesses data self ;;
  let data := data ++ B "XX" in
  (* overwrite data[0:2] *)
  h <- pack_H (Z.of_nat (length data)) ;;
  let data := h ++ slice_from data 2 in
  if Z.of_nat (length data) >? _EMU_CBMAXDATASIZE then Raise NotImplementedError
  else Ok data.

(** [MemoryAccessBundle.deserialize(buffer)] *)
Fixpoint deserialize_accesses (access_list : t) (buffer : bytes)
  : outcome (bytes * list MemoryAccessResult) :=
  match access_list with
  | [] => Ok (buffer, [])
  | access :: rest =>
      '(buffer, result) <- access_deserialize access buffer ;;
      '(buffer, results) <- deserialize_accesses rest buffer ;;
      Ok (buffer, result :: results)
  end.

Definition deserialize (self : t) (buffer : bytes)
  : outcome (bytes * list MemoryAccessResult) :=
  '(buffer, results) <- deserialize_accesses self buffer ;;
  if bytes_eqb (slice buffer 0 2) (B "XX") then Ok (slice_from buffer 2, results)
  else Raise AssertionError.

End MemoryBundle.

(* ================================================================== *)
(** * _directaccess.py                                                 *)
(* ================================================================== *)

Module DirectAccess.

Definition _EMU_CBMAXDATASIZE : Z := 0x3C00.

(** [DirectAccessCommand] *)
Definition SETINFO : Z := 2.
Definition GETINFO : Z := 3.
Definition SHIFTRAW : Z := 12.

(** [DirectAccessShiftRawOptions] *)
Record ShiftRawOptions : Type := mkOptions {
  lasttms_one : bool;
  tms_one : bool;
  tdi_lasttdo : bool;
  tdi_one : bool
}.

(** The subclasses of [DirectAccess].  [instance_type] and [info_id] are
    the values of the IntEnum members given by the caller. *)
Inductive access : Type :=
| GetInfo (instance_type instance info_id : Z)
| SetInfo (instance_type instance info_id value : Z)
| ShiftRaw (num_bits : Z) (tms tdi : option bytes) (tdo : bool)
           (options : ShiftRawOptions).

(** [DirectAccess._serialize_header(cmd, payload_bitlen)] *)
Definition _serialize_header (cmd payload_bitlen : Z) : outcome bytes :=
  if payload_bitlen <? 0x0F then
    pack_B (Z.lor (Z.shiftl cmd 4) payload_bitlen)
  else if payload_bitlen <? 0xFF then
    a <- pack_B (Z.lor (Z.shiftl cmd 4) 0x0F) ;;
    b <- pack_B payload_bitlen ;;
    Ok (a ++ b)
  else
    a <- pack_B (Z.lor (Z.shiftl cmd 4) 0x0F) ;;
    b <- pack_B 0xFF ;;
    c <- pack_I payload_bitlen ;;
    Ok (a ++ b ++ c).

(** [struct.pack("<BHH", a, b, c)] *)
Definition pack_BHH (a b c : Z) : outcome bytes :=
  x <- pack_B a ;; y <- pack_H b ;; z <- pack_H c ;; Ok (x ++ y ++ z).

(** The truth value of an optional bytes object. *)
Definition truthy (b : option bytes) : bool :=
  match b with Some (_ :: _) => true | _ => false end.

(** [DirectAccessShiftRaw._serialize_payload()] *)
Definition _serialize_payload (num_bits : Z) (tms tdi : option bytes) (tdo : bool)
           (o : ShiftRawOptions) : outcome bytes :=
  let options := 0x0000 in
  let options := if truthy tms then Z.lor options 0x0001 else options in
  let options := if truthy tdi then Z.lor options 0x0002 else options in
  let options := if tdo then Z.lor options 0x0004 else options in
  let options := if lasttms_one o then Z.lor options 0x0008 else options in
  let options := if tms_one o then Z.lor options 0x0010 else options in
  let options := if tdi_lasttdo o then Z.lor options 0x0020 else options in
  let options := if tdi_one o then Z.lor options 0x0040 else options in
  let tmp := [x90] in     (* EMUMCI CMD Special Shift *)
  let tmp := tmp ++ [x00] in
  ob <- to_bytes_unsigned options 2 ;;
  let tmp := tmp ++ ob in
  nb <- to_bytes_unsigned num_bits 4 ;;
  let tmp := tmp ++ nb in
  let tmp := if truthy tms then tmp ++ match tms with Some b => b | None => [] end else tmp in
  let tmp := if truthy tdi then tmp ++ match tdi with Some b => b | None => [] end else tmp in
  let tmp :=
    match tms, tdi with
    | None, None =>
        (* fake payload if we want tdo but no tdi/tms *)
        if tdo then tmp ++ repeat x00 (Z.to_nat ((num_bits + 7) / 8)) else tmp
    | _, _ => tmp
    end in
  Ok tmp.

(** [access._serialize()] of each subclass *)
Definition _serialize (a : access) : outcome bytes :=
  match a with
  | GetInfo instance_type instance info_id =>
      let cmd := GETINFO in
      f <- pack_BHH instance_type instance info_id ;;
      let payload := [xff; xff; xff; xff] ++ f in
      if (length payload <? 8)%nat then Raise AssertionError
      else
        let payload_bitlen := Z.of_nat (length payload) * 8 in
        h <- _serialize_header cmd payload_bitlen ;;
        Ok (h ++ payload)
  | SetInfo instance_type instance info_id value =>
      let cmd := SETINFO in
      f <- pack_BHH instance_type instance info_id ;;
      v <- pack_I value ;;
      let payload := [xff; xff; xff; xff] ++ f ++ v in
      let payload_bitlen := Z.of_nat (length payload) * 8 in
      h <- _serialize_header cmd payload_bitlen ;;
      Ok (h ++ payload)
  | ShiftRaw num_bits tms tdi tdo options =>
      let cmd := SHIFTRAW in
      let cmd := Z.lor cmd 0x02 in       (* poutbits always for shift raw *)
      let cmd := if tdo then Z.lor cmd 0x01 else cmd in
      payload <- _serialize_payload num_bits tms tdi tdo options ;;
      let payload_bitlen := Z.of_nat (length payload) * 8 in
      h <- _serialize_header cmd payload_bitlen ;;
      Ok (h ++ payload)
  end.

(** [DirectAccessBundleRequest] *)
Record request : Type := mkRequest {
  access_list : list access;
  payload : bytes
}.

Definition new_request : request := mkRequest [] [].

(** [DirectAccessBundleRequest.add_access(access, buffer)] *)
Definition add_access (r : request) (a : access) (buffer : bytes) : request :=
  mkRequest (access_list r ++ [a]) (payload r ++ buffer).

Definition T32_DIRECTACCESS_RELEASE : byte := x00.
Definition T32_DIRECTACCESS_HOLD : byte := x01.

(** The [for access in self._access_list] loop of [_get_requests]: the
    requests yielded during the loop, and the request under construction
    when the loop ends, or the exception that ends the generator. *)
Fixpoint _get_requests_loop (accesses : list access) (req : request)
  : list request * outcome request :=
  match accesses with
  | [] => ([], Ok req)
  | a :: rest =>
      match _serialize a with
      | Ok tmp =>
          if Z.of_nat (length tmp) >? _EMU_CBMAXDATASIZE - 1 then
            ([], Raise DirectAccessError)
          else if Z.of_nat (length (payload req)) + Z.of_nat (length tmp)
                    >? _EMU_CBMAXDATASIZE - 1 then
            let closed := mkRequest (access_list req)
                                    (payload req ++ [T32_DIRECTACCESS_HOLD]) in
            let '(ys, r) := _get_requests_loop rest (add_access new_request a tmp) in
            (closed :: ys, r)
          else _get_requests_loop rest (add_access req a tmp)
      | Raise e => ([], Raise e)
      | Stuck w => ([], Stuck w)
      end
  end.

(** [DirectAccessBundle._get_requests(release_debug_port=...)]: the
    requests the generator yields, in order, and how it ends. *)
Definition _get_requests (_access_list : list access) (release_debug_port : bool)
  : list request * outcome unit :=
  match _get_requests_loop _access_list new_request with
  | (ys, Ok req) =>
      let req :=
        if release_debug_port
        then mkRequest (access_list req) (payload req ++ [T32_DIRECTACCESS_RELEASE])
        else mkRequest (access_list req) (payload req ++ [T32_DIRECTACCESS_HOLD]) in
      (ys ++ [req], Ok tt)
  | (ys, Raise e) => (ys, Raise e)
  | (ys, Stuck w) => (ys, Stuck w)
  end.

End DirectAccess.

(* ================================================================== *)
(** * _library.py                                                      *)
(* ================================================================== *)

Module Library.

Definition RAPI_CMD_DEVICE_SPECIFIC : Z := 0x74.
Definition RAPI_DSCMD_BUNDLE_OBJ_TRANSFER : Z := 0x38.
Definition RAPI_DSCMD_DAAPI : Z := 0x92.
Definition T32_ERR_OK : Z := 0x00.

(** The attributes of a [Library] that the calls below use. *)
Record t : Type := mk {
  _link : Link.t;
  _maxpacketsize : Z
}.

(** The message [send_data] that [generic_api_call] builds; [message_id]
    is the value returned by [increment_message_id()]. *)
Definition send_data (rapi_cmd opt_arg : Z) (payload : bytes)
           (force_length : option Z) (force_16bit_length : bool) (message_id : Z)
  : outcome bytes :=
  let payload_length := length payload in
  let msg_len := 2 + Z.of_nat payload_length in
  let msg_len := match force_length with Some l => l | None => msg_len end in
  if (msg_len >? 0xFF) || force_16bit_length then
    let msg_len := msg_len + 2 in
    if msg_len >? 0xF000 then Raise ApiProtocolTransmitError
    else
      b0 <- pack_B 0 ;;
      b1 <- pack_B rapi_cmd ;;
      b2 <- pack_B opt_arg ;;
      b3 <- pack_B message_id ;;
      h <- pack_H msg_len ;;
      Ok (b0 ++ b1 ++ b2 ++ b3 ++ h ++ pack_s payload_length payload
             ++ pack_x (payload_length mod 2))
  else
    b0 <- pack_B msg_len ;;
    b1 <- pack_B rapi_cmd ;;
    b2 <- pack_B opt_arg ;;
    b3 <- pack_B message_id ;;
    Ok (b0 ++ b1 ++ b2 ++ b3 ++ pack_s payload_length payload
           ++ pack_x (payload_length mod 2)).

(** [Library.generic_api_call(rapi_cmd, opt_arg, sendonly, payload,
    force_length, force_16bit_length)]: the returned value ([None] for a
    send-only call) and the library afterwards. *)
Definition generic_api_call (self : t) (rapi_cmd opt_arg : Z) (sendonly : bool)
           (payload : bytes) (force_length : option Z) (force_16bit_length : bool)
  : outcome (option bytes) * t :=
  let payload_length := length payload in
  let msg_len := 2 + Z.of_nat payload_length in
  let msg_len := match force_length with Some l => l | None => msg_len end in
  if ((msg_len >? 0xFF) || force_16bit_length) && (msg_len + 2 >? 0xF000) then
    (Raise ApiProtocolTransmitError, self)
  else
    let '(message_id, link) := Link.increment_message_id (_link self) in
    let self := mk link (_maxpacketsize self) in
    match send_data rapi_cmd opt_arg payload force_length force_16bit_length message_id with
    | Ok data =>
        match Link.transmit (_link self) data with
        | (Ok _, link) =>
            let self := mk link (_maxpacketsize self) in
            if sendonly then (Ok None, self)
            else
              match Link.receive (_link self) with
              | (Ok recv_data, link) =>
                  let self := mk link (_maxpacketsize self) in
                  match recv_data with
                  | [] => (Raise IndexError, self)
                  | r0 :: _ =>
                      if negb (Z_of_byte r0 =? T32_ERR_OK)
                      then (Raise (ApiStatusError (Z_of_byte r0)), self)
                      else (Ok (Some (slice_from recv_data 2)), self)
                  end
              | (Raise e, link) => (Raise e, mk link (_maxpacketsize self))
              | (Stuck w, link) => (Stuck w, mk link (_maxpacketsize self))
              end
        | (Raise e, link) => (Raise e, mk link (_maxpacketsize self))
        | (Stuck w, link) => (Stuck w, mk link (_maxpacketsize self))
        end
    | Raise e => (Raise e, self)
    | Stuck w => (Stuck w, self)
    end.

(** [Library.t32_transfermemorybundleobj(bundle)] *)
Definition t32_transfermemorybundleobj (self : t) (bundle : MemoryBundle.t)
  : outcome (list MemoryBundle.MemoryAccessResult) * t :=
  match MemoryBundle.serialize bundle with
  | Ok tx_data =>
      match generic_api_call self RAPI_CMD_DEVICE_SPECIFIC RAPI_DSCMD_BUNDLE_OBJ_TRANSFER
                             false tx_data (Some 0) false with
      | (Ok (Some rx_data), self) =>
          match MemoryBundle.deserialize bundle rx_data with
          | Ok (_, result) => (Ok result, self)
          | Raise e => (Raise e, self)
          | Stuck w => (Stuck w, self)
          end
      | (Ok None, self) => (Raise TypeError, self)
      | (Raise e, self) => (Raise e, self)
      | (Stuck w, self) => (Stuck w, self)
      end
  | Raise e => (Raise e, self)
  | Stuck w => (Stuck w, self)
  end.

End Library.

(* ================================================================== *)
(** * common.py: the alignment loops                                   *)
(* ================================================================== *)

Module Align.

(** The [while size % align_to: size += 1] loop of [up_align]. *)
Fixpoint up_align_loop (fuel : nat) (size align_to : Z) : outcome Z :=
  match fuel with
  | O => Stuck OutOfFuel
  | S fuel =>
      if negb (size mod align_to =? 0)
      then up_align_loop fuel (size + 1) align_to
      else Ok size
  end.

(** [up_align(size, align_to)] for a positive [align_to] (Python raises
    ZeroDivisionError for 0): the loop makes fewer than [align_to] turns. *)
Definition up_align (size : Z) (align_to : positive) : outcome Z :=
  up_align_loop (Pos.to_nat align_to) size (Z.pos align_to).

(** The [while size % align_to: size -= 1] loop of [down_align]. *)
Fixpoint down_align_loop (fuel : nat) (size align_to : Z) : outcome Z :=
  match fuel with
  | O => Stuck OutOfFuel
  | S fuel =>
      if negb (size mod align_to =? 0)
      then down_align_loop fuel (size - 1) align_to
      else Ok size
  end.

(** [down_align(size, align_to)] for a positive [align_to]. *)
Definition down_align (size : Z) (align_to : positive) : outcome Z :=
  down_align_loop (Pos.to_nat align_to) size (Z.pos align_to).

End Align.

(* ================================================================== *)
(** * _register.py: RegisterService                                    *)
(* ================================================================== *)

Module RegisterService.

(** [Register(conn)]: every keyword at its default. *)
Definition blank : Register.t := Register.mk None None None None None.

(** The [while counter < len(data)] loop of
    [RegisterService.__deserialize_registers]. *)
Fixpoint deserialize_registers_loop (fuel : nat) (data : bytes) (counter : nat)
         (registers : list Register.t) : outcome (list Register.t) :=
  match fuel with
  | O => Stuck OutOfFuel
  | S fuel =>
    if (counter <? length data)%nat then
      let reg := blank in
      '(n, reg) <- Register._deserialize reg (slice_from data counter) ;;
      let counter := (counter + n)%nat in
      if bytes_eqb (slice data counter (counter + 2)) (B "XX")
         && match Register.name reg with Some _ => true | None => false end
      then deserialize_registers_loop fuel data (counter + 4) (registers ++ [reg])
      else deserialize_registers_loop fuel data (counter + 1) registers
    else Ok registers
  end.

(** [RegisterService.__deserialize_registers(data)]: every turn moves
    [counter] forward, so [len(data)] turns and one more are enough. *)
Definition deserialize_registers (data : bytes) : outcome (list Register.t) :=
  deserialize_registers_loop (S (length data)) data 0 [].

(** [Mode] *)
Definition READALL : Z := 0x00.
Definition WRITEBYNAMES : Z := 0x03.


(** [for reg in regs: data += reg._serialize()] *)
Fixpoint serialize_all (data : bytes) (regs : list Register.t) : outcome bytes :=
  match regs with
  | [] => Ok data
  | reg :: regs => b <- Register._serialize reg ;; serialize_all (data ++ b) regs
  end.


End RegisterService.

(* ================================================================== *)
(** * Objects within the range of the wire format                      *)
(* ================================================================== *)

Module Valid.

(** An access code that survives the trip: ASCII, with no NUL and no colon
    at either end (the decoder strips them), short enough for the 16-bit
    length field. *)
Definition access_ok (a : str) : bool :=
  forallb is_ascii a
  && bytes_eqb (lstrip x00 a) a && bytes_eqb (rstrip x00 a) a
  && bytes_eqb (lstrip x3a a) a && bytes_eqb (rstrip x3a a) a
  && (Z.of_nat (length a) + 2 <=? 0xFFFF).

Definition address_ok (x : Address.t) : bool :=
  match Address.access x, Address.value x with
  | Some a, Some v => access_ok a && (0 <=? v) && (v <? 2 ^ 64)
  | _, _ => false
  end.

Definition width_ok (w : option Z) : bool :=
  match w with Some w => (0 <=? w) && (w <=? 0xFFFF) | None => true end.

(** [got] carries every value that was set in [set]. *)
Definition agrees {A} (set got : option A) : Prop :=
  match set with Some v => got = Some v | None => True end.

Definition breakpoint_ok (x : Breakpoint.t) : bool :=
  match Breakpoint.address x with Some a => address_ok a | None => false end
  && match Breakpoint.size x with Some s => (0 <=? s) && (s <? 2 ^ 64) | None => true end
  && match Breakpoint.core x with Some c => (0 <=? c) && (c <? 2 ^ 32) | None => true end.

(** A symbol name that survives the trip: ASCII, not ending in NUL (the
    decoder strips the padding), short enough for the length field. *)
Definition name_ok (n : str) : bool :=
  forallb is_ascii n && bytes_eqb (rstrip x00 n) n
  && (Z.of_nat (length n) + 2 <=? 0xFFFF).

Definition symbol_ok (x : Symbol.t) : bool :=
  match Symbol.address x with Some a => address_ok a | None => true end
  && match Symbol.name x with Some n => name_ok n | None => true end.

(** A register name that survives the trip: ASCII without backslash (the
    decoder reads escapes), not empty and not ending in NUL (the decoder
    drops one), at most 254 characters (the decoder reads one byte of the
    length). *)
Definition regname_ok (n : str) : bool :=
  forallb (fun c => is_ascii c && negb (Byte.eqb c backslash)) n
  && match rev n with [] => false | last :: _ => negb (Byte.eqb last x00) end
  && (Z.of_nat (length n) <=? 254).

Definition unit_ok (u : str) : bool :=
  bytes_eqb u (B "CPU") || bytes_eqb u (B "FPU") || bytes_eqb u (B "VPU").

Definition in_range (lo hi : Z) (o : option Z) : bool :=
  match o with Some v => (lo <=? v) && (v <? hi) | None => true end.

Definition register_ok (x : Register.t) : bool :=
  match Register.name x with Some n => regname_ok n | None => true end
  && match Register.unit x with Some u => unit_ok u | None => true end
  && in_range 0 (2 ^ 64) (Register.value x)
  && in_range 0 (2 ^ 64) (Register.fvalue x)
  && in_range 0 (2 ^ 15) (Register.core x).

(** ** Assignments to a register *)

(** [reg.value = v] or [reg.fvalue = v]. *)
Inductive assignment : Type :=
| AssignValue (v : Register.pyval)
| AssignFvalue (v : Register.pyval).

Definition assign (self : Register.t) (a : assignment) : outcome Register.t :=
  match a with
  | AssignValue v => Register.set_value self v
  | AssignFvalue v => Register.set_fvalue self v
  end.

(** The register after a sequence of assignments; one that raises leaves
    the register as it was. *)
Fixpoint assign_all (self : Register.t) (l : list assignment) : Register.t :=
  match l with
  | [] => self
  | a :: l' =>
      match assign self a with
      | Ok self' => assign_all self' l'
      | _ => assign_all self l'
      end
  end.

(** At most one of [value] and [fvalue] is not [None]. *)
Definition exclusive (r : Register.t) : Prop :=
  Register.value r = None \/ Register.fvalue r = None.

(** The line of the link that a constructor call returns. *)
Definition line_of (r : outcome Link.t) : outcome Hlinknet.comm :=
  l <- r ;; Ok (Link._line l).

(** ** Response messages *)

(** The message id recorded in a response: its second byte, when the
    message is not a keepalive. *)
Definition recorded_id (m : bytes) : option Z :=
  match m with
  | m0 :: m1 :: _ =>
      if Z_of_byte m0 =? Hlinknet.T32_API_KEEPALIVE then None else Some (Z_of_byte m1)
  | _ => None
  end.

(** The queue entries that [receive] passes over while it waits for
    [message_id]: empty messages, keepalives, and responses with a lower
    recorded id. *)
Definition passed_over (message_id : Z) (m : Hlinknet.message) : bool :=
  match m with
  | None => false
  | Some [] => true
  | Some (m0 :: r) =>
      (Z_of_byte m0 =? Hlinknet.T32_API_KEEPALIVE)
      || match r with m1 :: _ => Z_of_byte m1 <? message_id | [] => false end
  end.

(** A response message of recorded id [i]. *)
Definition response (i : byte) (payload : bytes) : Hlinknet.message :=
  Some (x00 :: i :: payload).

(** ** TCP frames *)

(** A frame as the peer writes it to the stream: payload length,
    message type, payload, padding to a multiple of eight bytes. *)
Definition tcp_frame (message_type : Z) (payload : bytes) : bytes :=
  to_bytes_le (Z.of_nat (length payload)) 4 ++ to_bytes_le message_type 4
    ++ payload
    ++ repeat x00 (Z.to_nat (Common.align_eight (Z.of_nat (length payload) + 4 + 4))).

(** A connected TCP transport on which the coming reads return [reads]. *)
Definition tcp_with_reads (reads : list bytes) : Hlinknet.comm :=
  Hlinknet.with_socket (Hlinknet.init Hlinknet.TCP 0x4000 None)
                       (Some (Hlinknet.mkSocket [] reads)).

(** [n] calls of [poll_response], stopped by the first that raises. *)
Fixpoint poll_times (n : nat) (self : Hlinknet.comm) : outcome unit * Hlinknet.comm :=
  match n with
  | O => (Ok tt, self)
  | S n =>
      match Hlinknet.poll_response self with
      | (Ok _, self) => poll_times n self
      | r => r
      end
  end.

(** ** A library to call *)

(** A library whose link is a connected TCP transport with nothing to
    read and nothing sent so far. *)
Definition idle_library : Library.t :=
  Library.mk
    (Link.mk (B "localhost") 20000 0x4000 (B "TCP") None 0 (tcp_with_reads []) [])
    0x4000.

(** ** Bundles *)

(** A write of 30000 zero bytes at address 0x1000, and a bundle of three
    such writes. *)
Definition big_write : MemoryBundle.MemoryAccess :=
  MemoryBundle.MemoryWriteAccess (Address.mk None (Some 0x1000))
                                 (repeat x00 (Z.to_nat 30000)) None.

Definition three_writes : MemoryBundle.t := [big_write; big_write; big_write].

(** ** Direct-access requests *)

(** [_serialize] of every access of a bundle. *)
Fixpoint serialize_all (accesses : list DirectAccess.access) : outcome (list bytes) :=
  match accesses with
  | [] => Ok []
  | a :: rest =>
      s <- DirectAccess._serialize a ;;
      ss <- serialize_all rest ;;
      Ok (s :: ss)
  end.

(** The total serialized size of the accesses. *)
Definition total_size (ss : list bytes) : Z := Z.of_nat (length (concat ss)).

Definition ceil_div (a b : Z) : Z := (a + b - 1) / b.

(** The flag byte that ends the payload of a request, and the payload
    before it. *)
Definition flag_of (r : DirectAccess.request) : byte := last (DirectAccess.payload r) x00.
Definition body_of (r : DirectAccess.request) : bytes := removelast (DirectAccess.payload r).

(** Every serialized access fits in a request of its own. *)
Definition fits (s : bytes) : Prop :=
  Z.of_nat (length s) <= DirectAccess._EMU_CBMAXDATASIZE - 1.

(** A raw shift of 8178 bytes of TMS, whose serialized form has 0x2000
    bytes, and a bundle of three of them. *)
Definition shift_0x2000 : DirectAccess.access :=
  DirectAccess.ShiftRaw 65424 (Some (repeat x00 (Z.to_nat 8178))) None false
                        (DirectAccess.mkOptions false false false false).

Definition three_shifts : list DirectAccess.access :=
  [shift_0x2000; shift_0x2000; shift_0x2000].

(** ** UDP sync *)

(** A sync-back-request: sixteen bytes, the first of which is
    [T32_API_SYNCBACKREQ]. *)
Definition syncback_request : bytes := x05 :: repeat x00 15.

(** A bound UDP transport on which the coming reads return [reads]. *)
Definition udp_with_reads (reads : list bytes) : Hlinknet.comm :=
  Hlinknet.with_socket (Hlinknet.init Hlinknet.UDP 0x4000 None)
                       (Some (Hlinknet.mkSocket [] reads)).

(** The number of datagrams sent so far, and of reads still pending. *)
Definition sent_count (self : Hlinknet.comm) : nat :=
  match Hlinknet._socket self with
  | Some sk => length (Hlinknet.sent sk)
  | None => 0
  end.

Definition pending_count (self : Hlinknet.comm) : nat :=
  match Hlinknet._socket self with
  | Some sk => length (Hlinknet.incoming sk)
  | None => 0
  end.

(** ** Sample objects *)

Definition data_0x1000 : Address.t := Address.mk (Some (B "D")) (Some 0x1000).

Definition program_breakpoint : Breakpoint.t :=
  Breakpoint.set_size
    (Breakpoint.set_address Breakpoint.default
       (Some (Address.mk (Some (B "P")) (Some 0x4000))))
    (Some 4).

Definition register_r0 : Register.t :=
  Register.mk (Some 1) (Some (B "R0")) (Some (B "CPU")) (Some 42) None.

Definition symbol_main : Symbol.t :=
  Symbol.init (Some (Address.mk (Some (B "P")) (Some 0x4000))) (Some (B "main")).

(** [Register(conn)], as a caller makes it before [_deserialize]. *)
Definition fresh_register : Register.t := Register.mk None None None None None.

(** The register that [_deserialize] makes of the bytes of [x]. *)
Definition register_trip (x : Register.t) : outcome Register.t :=
  buf <- Register._serialize x ;;
  r <- Register._deserialize fresh_register buf ;;
  Ok (snd r).

Definition address_trip (x : Address.t) : outcome Address.t :=
  r <- Address.serialize x 0 None ;;
  r <- Address.deserialize (snd r) ;;
  Ok (snd r).

(** ** Sample requests *)

(** A payload of ten bytes. *)
Definition ten_bytes : bytes := B "0123456789".

(** A bundle that reads one info and sets another. *)
Definition two_infos : list DirectAccess.access :=
  [DirectAccess.GetInfo 1 0 2; DirectAccess.SetInfo 1 0 2 5].

End Valid.

(* ================================================================== *)
(** * Facts about bytes and integers                                   *)
(* ================================================================== *)

Module PyFacts.

Lemma Z_of_byte_range (b : byte) : 0 <= Z_of_byte b < 256.
Proof.
  unfold Z_of_byte. pose proof (Byte.to_N_bounded b). lia.
Qed.

Lemma Z_of_byte_of_Z (z : Z) : Z_of_byte (byte_of_Z z) = z mod 256.
Proof.
  unfold Z_of_byte, byte_of_Z.
  assert (Hm : 0 <= z mod 256 < 256) by (apply Z.mod_pos_bound; lia).
  destruct (Byte.of_N (Z.to_N (z mod 256))) as [b|] eqn:E.
  - apply Byte.to_of_N in E. rewrite E, Z2N.id by lia. reflexivity.
  - apply Byte.of_N_None_iff in E. lia.
Qed.

Lemma length_to_bytes_le (len : nat) : forall n, length (to_bytes_le n len) = len.
Proof.
  induction len as [|len IH]; intro n; simpl; [reflexivity|].
  now rewrite IH.
Qed.

Lemma from_bytes_le_range (b : bytes) :
  0 <= from_bytes_le b < 256 ^ Z.of_nat (length b).
Proof.
  induction b as [|x r IH].
  - simpl. lia.
  - cbn [from_bytes_le length]. rewrite Nat2Z.inj_succ, Z.pow_succ_r by lia.
    pose proof (Z_of_byte_range x). lia.
Qed.

(** Reading back the digits gives the number modulo [256 ^ len]. *)
Lemma from_to_bytes_le_mod (len : nat) :
  forall n, from_bytes_le (to_bytes_le n len) = n mod 256 ^ Z.of_nat len.
Proof.
  induction len as [|len IH]; intro n.
  - simpl. now rewrite Z.mod_1_r.
  - cbn [to_bytes_le from_bytes_le].
    rewrite IH, Z_of_byte_of_Z, Z.mod_mod by lia.
    rewrite Nat2Z.inj_succ, Z.pow_succ_r by lia.
    assert (Hp : 0 < 256 ^ Z.of_nat len) by (apply Z.pow_pos_nonneg; lia).
    rewrite (Z.rem_mul_r n 256 (256 ^ Z.of_nat len)) by lia.
    lia.
Qed.

Lemma from_to_bytes_le (len : nat) (n : Z) :
  0 <= n < 256 ^ Z.of_nat len -> from_bytes_le (to_bytes_le n len) = n.
Proof.
  intro H. rewrite from_to_bytes_le_mod. now apply Z.mod_small.
Qed.

Lemma byte_eqb_refl (b : byte) : Byte.eqb b b = true.
Proof. now apply Byte.byte_dec_lb. Qed.

Lemma bytes_eqb_refl (a : bytes) : bytes_eqb a a = true.
Proof.
  induction a as [|x a IH]; simpl; [reflexivity|].
  now rewrite byte_eqb_refl, IH.
Qed.

Lemma bytes_eqb_eq (a b : bytes) : bytes_eqb a b = true <-> a = b.
Proof.
  split.
  - revert b. induction a as [|x a IH]; intros [|y b] H; simpl in H;
      try discriminate; [reflexivity|].
    apply andb_true_iff in H. destruct H as [H1 H2].
    apply Byte.byte_dec_bl in H1. apply IH in H2. now subst.
  - intros ->. apply bytes_eqb_refl.
Qed.

Lemma pack_uint_ok (len : nat) (n : Z) :
  0 <= n < 256 ^ Z.of_nat len -> pack_uint len n = Ok (to_bytes_le n len).
Proof.
  intros [H1 H2]. unfold pack_uint.
  apply Z.leb_le in H1. apply Z.ltb_lt in H2. now rewrite H1, H2.
Qed.

Lemma pack_H_ok (n : Z) : 0 <= n <= 0xFFFF -> pack_H n = Ok (to_bytes_le n 2).
Proof. intro H. apply pack_uint_ok. change (256 ^ Z.of_nat 2) with 65536. lia. Qed.

Lemma pack_I_ok (n : Z) : 0 <= n < 2 ^ 32 -> pack_I n = Ok (to_bytes_le n 4).
Proof. intro H. apply pack_uint_ok. change (256 ^ Z.of_nat 4) with (2 ^ 32). lia. Qed.

Lemma pack_Q_ok (n : Z) : 0 <= n < 2 ^ 64 -> pack_Q n = Ok (to_bytes_le n 8).
Proof. intro H. apply pack_uint_ok. change (256 ^ Z.of_nat 8) with (2 ^ 64). lia. Qed.

Lemma pack_B_ok (n : Z) : 0 <= n <= 0xFF -> pack_B n = Ok [byte_of_Z n].
Proof.
  intro H. unfold pack_B. rewrite pack_uint_ok by (change (256 ^ Z.of_nat 1) with 256; lia).
  cbn [to_bytes_le]. rewrite Z.mod_small by lia. reflexivity.
Qed.

Lemma int2bytearray_ok (n : Z) (len : nat) :
  0 <= n < 256 ^ Z.of_nat len -> Common.int2bytearray n len = Ok (to_bytes_le n len).
Proof.
  intros [H1 H2]. unfold Common.int2bytearray, to_bytes_unsigned.
  destruct (n <? 0) eqn:E; [apply Z.ltb_lt in E; lia|].
  apply Z.leb_le in H1. apply Z.ltb_lt in H2. now rewrite H1, H2.
Qed.

(** ** Slices *)

Lemma firstn_app_exact {A} (a r : list A) (k : nat) :
  length a = k -> firstn k (a ++ r) = a.
Proof.
  intros <-. rewrite firstn_app, Nat.sub_diag, firstn_all. simpl.
  apply app_nil_r.
Qed.

Lemma skipn_app_exact {A} (a r : list A) (k : nat) :
  length a = k -> skipn k (a ++ r) = r.
Proof.
  intros <-. rewrite skipn_app, Nat.sub_diag, skipn_all. reflexivity.
Qed.

Lemma slice_add (b : bytes) (p k : nat) :
  slice b p (p + k) = firstn k (skipn p b).
Proof. unfold slice. now rewrite Nat.add_comm, Nat.add_sub. Qed.

Lemma slice_skipn (b : bytes) (p lo hi : nat) :
  slice (skipn p b) lo hi = slice b (p + lo) (p + hi).
Proof.
  unfold slice. rewrite skipn_skipn.
  replace (p + hi - (p + lo))%nat with (hi - lo)%nat by lia.
  now rewrite (Nat.add_comm lo p).
Qed.

Lemma ltb_length_skipn {A} (b : list A) (p : nat) :
  (p <? length b)%nat = (0 <? length (skipn p b))%nat.
Proof.
  rewrite length_skipn.
  destruct (p <? length b)%nat eqn:E1; destruct (0 <? length b - p)%nat eqn:E2;
    try reflexivity.
  - apply Nat.ltb_lt in E1. apply Nat.ltb_ge in E2. lia.
  - apply Nat.ltb_ge in E1. apply Nat.ltb_lt in E2. lia.
Qed.

Lemma pack_s_exact (n : nat) (data : bytes) : length data = n -> pack_s n data = data.
Proof.
  intros <-. unfold pack_s. rewrite firstn_all, Nat.sub_diag. simpl.
  apply app_nil_r.
Qed.

Lemma pack_s_pad (n : nat) (data : bytes) :
  (length data <= n)%nat -> pack_s n data = data ++ repeat x00 (n - length data).
Proof. intro H. unfold pack_s. now rewrite firstn_all2. Qed.

Lemma length_pack_s (n : nat) (data : bytes) : length (pack_s n data) = n.
Proof.
  unfold pack_s. rewrite length_app, length_firstn, repeat_length. lia.
Qed.

(** ** strip *)

Lemma lstrip_repeat (c : byte) (k : nat) (s : str) :
  lstrip c (repeat c k ++ s) = lstrip c s.
Proof.
  induction k as [|k IH]; simpl; [reflexivity|].
  now rewrite byte_eqb_refl.
Qed.

Lemma lstrip_app_fixed (c : byte) (s t : str) :
  s <> [] -> lstrip c s = s -> lstrip c (s ++ t) = s ++ t.
Proof.
  destruct s as [|x s]; [congruence|]. intros _ H. simpl in *.
  destruct (Byte.eqb x c) eqn:E; [|reflexivity].
  exfalso.
  assert (Hl : forall u, (length (lstrip c u) <= length u)%nat).
  { induction u as [|y u IHu]; simpl; [lia|].
    destruct (Byte.eqb y c); simpl; lia. }
  specialize (Hl s). rewrite H in Hl. simpl in Hl. lia.
Qed.

Lemma rev_repeat {A} (x : A) (k : nat) : rev (repeat x k) = repeat x k.
Proof.
  induction k as [|k IH]; simpl; [reflexivity|].
  rewrite IH. clear IH. induction k as [|k IH]; simpl; [reflexivity|].
  now rewrite IH.
Qed.

Lemma rstrip_pad (c : byte) (s : str) (k : nat) :
  rstrip c (s ++ repeat c k) = rstrip c s.
Proof.
  unfold rstrip. now rewrite rev_app_distr, rev_repeat, lstrip_repeat.
Qed.

(** Padding with the stripped character is undone by [strip]. *)
Lemma strip_pad (c : byte) (s : str) (k : nat) :
  lstrip c s = s -> rstrip c s = s -> strip c (s ++ repeat c k) = s.
Proof.
  intros Hl Hr. unfold strip.
  destruct s as [|x s].
  - simpl. rewrite <- (app_nil_r (repeat c k)), lstrip_repeat. reflexivity.
  - rewrite lstrip_app_fixed by (assumption || discriminate).
    now rewrite rstrip_pad.
Qed.

(** ** Tactics for the decoders.  Tags are compared as literals; offsets
    are literal and the fixed-size fields are written out byte by byte,
    so slices are cut by rewriting. *)

Ltac tags :=
  repeat match goal with
         | |- context [B ?s] =>
             let v := eval vm_compute in (B s) in change (B s) with v
         end.

Ltac eval_eqb :=
  repeat match goal with
         | |- context [bytes_eqb ?a ?b] =>
             let v := eval vm_compute in (bytes_eqb a b) in
             match v with true => idtac | false => idtac end;
             change (bytes_eqb a b) with v
         end;
  cbv beta iota; cbn [orb].

Ltac cut_slices :=
  unfold slice, slice_from;
  cbn [Nat.add Nat.sub Nat.mul];
  rewrite ?Nat.sub_0_r;
  repeat (rewrite ?firstn_cons, ?skipn_cons, ?firstn_O, ?skipn_O).

Ltac lens :=
  rewrite ?length_app, ?length_to_bytes_le, ?repeat_length, ?length_pack_s;
  tags; cbn [length]; lia.

(** Where a decode loop ends when started at offset [p]. *)
Definition shift {A} (p : nat) (r : outcome (nat * A)) : outcome (nat * A) :=
  match r with
  | Ok (q, a) => Ok ((p + q)%nat, a)
  | Raise e => Raise e
  | Stuck w => Stuck w
  end.

Lemma shift_bind {A C} (p : nat) (m : outcome C) (k : C -> outcome (nat * A)) :
  shift p (bind m k) = bind m (fun x => shift p (k x)).
Proof. now destruct m. Qed.

End PyFacts.

(* ================================================================== *)
(** * Address: what is written is read back                            *)
(* ================================================================== *)

Module AddressFacts.

Import PyFacts Valid.

(** The even length announced for the access code of [a]. *)
Definition access_len (a : str) : Z :=
  let l := Z.of_nat (length a) + 1 in l + (0 - l) mod 2.

Definition access_field (a : str) : bytes :=
  B "AC" ++ to_bytes_le (access_len a) 2
    ++ a ++ repeat x00 (Z.to_nat (access_len a) - length a).

Definition width_field (w : option Z) : bytes :=
  match w with Some w => B "WI" ++ to_bytes_le w 2 | None => [] end.

(** The bytes of an address of value [v] and access code [a]. *)
Definition wire (v : Z) (a : str) (w : option Z) : bytes :=
  [x03; x00] ++ to_bytes_le v 8 ++ access_field a ++ width_field w ++ B "XX".

Lemma access_len_bounds (a : str) :
  Z.of_nat (length a) + 1 <= access_len a <= Z.of_nat (length a) + 2.
Proof.
  unfold access_len. cbv zeta.
  pose proof (Z.mod_pos_bound (0 - (Z.of_nat (length a) + 1)) 2). lia.
Qed.

Lemma address_serialize_wire (a : str) (v off : Z) (w : option Z) :
  access_ok a = true -> 0 <= v + off < 2 ^ 64 -> width_ok w = true ->
  Address.serialize (Address.mk (Some a) (Some v)) off w
  = Ok (length (wire (v + off) a w), wire (v + off) a w).
Proof.
  intros Ha Hv Hw. unfold access_ok in Ha.
  repeat (apply andb_true_iff in Ha; destruct Ha as [Ha ?]).
  pose proof (access_len_bounds a) as Hb.
  assert (Hl : Z.of_nat (length a) + 2 <= 0xFFFF) by now apply Z.leb_le.
  unfold Address.serialize. cbn [Address.value Address.access].
  change (Common.int2bytearray Address.T32_ADDRTYPE_A64 2) with (@Ok bytes [x03; x00]).
  change (Address.T32_ADDRTYPE_A64 =? Address.T32_ADDRTYPE_A32) with false.
  change (Address.T32_ADDRTYPE_A64 =? Address.T32_ADDRTYPE_A64) with true.
  cbn [bind].
  rewrite int2bytearray_ok by (change (256 ^ Z.of_nat 8) with (2 ^ 64); lia).
  cbn [bind]. unfold encode. rewrite Ha. cbn [bind].
  fold (access_len a).
  rewrite pack_H_ok by lia. cbn [bind].
  rewrite pack_s_pad by lia.
  assert (E : forall r : bytes,
             match w with
             | Some w0 => h <- pack_H w0;; Ok (r ++ B "WI" ++ h)
             | None => Ok r
             end = Ok (r ++ width_field w)).
  { intro r. destruct w as [w0|]; simpl.
    - unfold width_ok in Hw. apply andb_true_iff in Hw. destruct Hw as [Hw1 Hw2].
      apply Z.leb_le in Hw1. apply Z.leb_le in Hw2.
      rewrite pack_H_ok by lia. reflexivity.
    - now rewrite app_nil_r. }
  rewrite E. cbn [bind].
  unfold wire, access_field. rewrite <- !app_assoc. reflexivity.
Qed.

(** The loop only looks at the buffer from the read pointer on. *)
Lemma address_loop_relocate_gen (fuel : nat) :
  forall buf p q acc,
    Address.deserialize_loop fuel buf (p + q) acc
    = shift p (Address.deserialize_loop fuel (skipn p buf) q acc).
Proof.
  induction fuel as [|fuel IH]; intros buf p q acc; [reflexivity|].
  cbn [Address.deserialize_loop].
  rewrite !slice_skipn, length_skipn.
  replace (q <? length buf - p)%nat with (p + q <? length buf)%nat
    by (destruct (p + q <? length buf)%nat eqn:E1;
        destruct (q <? length buf - p)%nat eqn:E2; try reflexivity;
        [apply Nat.ltb_lt in E1; apply Nat.ltb_ge in E2
        |apply Nat.ltb_ge in E1; apply Nat.ltb_lt in E2]; lia).
  rewrite !Nat.add_assoc.
  destruct (p + q <? length buf)%nat; [|reflexivity].
  repeat match goal with
         | |- context [if ?c then _ else _] => destruct c
         end;
    try reflexivity;
    try (rewrite <- !Nat.add_assoc; rewrite IH; reflexivity).
  rewrite shift_bind. destruct (Address.parse_access _); cbn [bind]; try reflexivity.
  - rewrite <- !Nat.add_assoc. rewrite IH. reflexivity.
  - cbn [shift]. now rewrite <- !Nat.add_assoc.
Qed.

Lemma address_loop_relocate (fuel : nat) (buf : bytes) (p : nat) (acc : option str) :
  Address.deserialize_loop fuel buf p acc
  = shift p (Address.deserialize_loop fuel (skipn p buf) 0 acc).
Proof. rewrite <- address_loop_relocate_gen. now rewrite Nat.add_0_r. Qed.

Lemma parse_access_pad (a : str) (k : nat) :
  access_ok a = true -> Address.parse_access (a ++ repeat x00 k) = Ok a.
Proof.
  intro Ha. unfold access_ok in Ha.
  repeat (apply andb_true_iff in Ha; destruct Ha as [Ha ?]).
  repeat match goal with H : bytes_eqb _ _ = true |- _ => apply bytes_eqb_eq in H end.
  unfold Address.parse_access, decode.
  assert (Hp : forallb is_ascii (a ++ repeat x00 k) = true).
  { rewrite forallb_app, Ha. simpl. clear. induction k; simpl; auto. }
  rewrite Hp. cbn [bind].
  rewrite strip_pad by assumption.
  unfold strip. congruence.
Qed.

Lemma address_step_AC (fuel : nat) (a : str) (rest : bytes) (acc : option str) :
  access_ok a = true ->
  Address.deserialize_loop (S fuel) (access_field a ++ rest) 0 acc
  = shift (length (access_field a)) (Address.deserialize_loop fuel rest 0 (Some a)).
Proof.
  intro Ha. pose proof (access_len_bounds a) as Hb.
  assert (Hl : Z.of_nat (length a) + 2 <= 0xFFFF).
  { unfold access_ok in Ha. apply andb_true_iff in Ha. destruct Ha as [_ Ha].
    now apply Z.leb_le. }
  set (pad := repeat x00 (Z.to_nat (access_len a) - length a)).
  assert (Hlen : length (a ++ pad) = Z.to_nat (access_len a)).
  { unfold pad. rewrite length_app, repeat_length. lia. }
  assert (Hf : from_bytes_le (to_bytes_le (access_len a) 2) = access_len a)
    by (apply from_to_bytes_le; change (256 ^ Z.of_nat 2) with 65536; lia).
  unfold access_field. fold pad. rewrite <- !app_assoc.
  rewrite (app_assoc a pad rest).
  cbn [to_bytes_le] in *. tags. cbn [app] in *.
  cbn [Address.deserialize_loop length Nat.ltb Nat.leb].
  cut_slices.
  change (bytes_eqb [x41; x43] [x41; x43]) with true. cbv iota.
  rewrite Hf.
  rewrite firstn_app_exact by exact Hlen.
  unfold pad. rewrite parse_access_pad by exact Ha. cbn [bind]. fold pad.
  rewrite address_loop_relocate.
  repeat rewrite skipn_cons. rewrite skipn_app_exact by exact Hlen.
  f_equal. rewrite Hlen. reflexivity.
Qed.

Lemma address_step_WI (fuel : nat) (w : Z) (rest : bytes) (acc : option str) :
  Address.deserialize_loop (S fuel) (B "WI" ++ to_bytes_le w 2 ++ rest) 0 acc
  = shift 4 (Address.deserialize_loop fuel rest 0 acc).
Proof.
  cbn [to_bytes_le]. tags. cbn [app].
  cbn [Address.deserialize_loop length Nat.ltb Nat.leb].
  cut_slices.
  change (bytes_eqb [x57; x49] [x41; x43]) with false.
  change (bytes_eqb [x57; x49] [x57; x49]) with true. cbv iota.
  rewrite address_loop_relocate. repeat rewrite skipn_cons. rewrite skipn_O. reflexivity.
Qed.

Lemma address_step_XX (fuel : nat) (rest : bytes) (acc : option str) :
  Address.deserialize_loop (S fuel) (B "XX" ++ rest) 0 acc = Ok (2%nat, acc).
Proof.
  tags. cbn [app].
  cbn [Address.deserialize_loop length Nat.ltb Nat.leb].
  cut_slices. reflexivity.
Qed.

(** Decoding what [serialize] wrote, whatever follows it in the buffer. *)
Lemma address_deserialize_wire (a : str) (v : Z) (w : option Z) (tail : bytes) :
  access_ok a = true -> 0 <= v < 2 ^ 64 ->
  Address.deserialize (wire v a w ++ tail)
  = Ok (length (wire v a w), Address.mk (Some a) (Some v)).
Proof.
  intros Ha Hv. unfold Address.deserialize, wire.
  rewrite <- !app_assoc. cbn [app].
  cut_slices.
  change (from_bytes_le [x03; x00]) with 3.
  change (3 =? Address.T32_ADDRTYPE_A32) with false.
  change (3 =? Address.T32_ADDRTYPE_A64) with true. cbv iota. cbn [bind].
  rewrite firstn_app_exact by apply length_to_bytes_le.
  rewrite from_to_bytes_le by (change (256 ^ Z.of_nat 8) with (2 ^ 64); lia).
  cbn [length].
  rewrite address_loop_relocate.
  repeat rewrite skipn_cons. rewrite skipn_app_exact by apply length_to_bytes_le.
  rewrite address_step_AC by exact Ha.
  destruct w as [w|]; cbn [width_field app].
  - rewrite <- !app_assoc. rewrite address_step_WI, address_step_XX. cbn [shift bind].
    f_equal. f_equal. lens.
  - rewrite address_step_XX. cbn [shift bind].
    f_equal. f_equal. lens.
Qed.

Theorem address_roundtrip (x : Address.t) (w : option Z) :
  address_ok x = true -> width_ok w = true ->
  exists n buf,
    Address.serialize x 0 w = Ok (n, buf)
    /\ Address.deserialize buf = Ok (n, x).
Proof.
  intros Hx Hw. destruct x as [[a|] [v|]]; try discriminate.
  unfold address_ok in Hx. cbn in Hx.
  apply andb_true_iff in Hx. destruct Hx as [Hx H2].
  apply andb_true_iff in Hx. destruct Hx as [Ha H1].
  apply Z.leb_le in H1. apply Z.ltb_lt in H2.
  exists (length (wire v a w)), (wire v a w). split.
  - rewrite <- (Z.add_0_r v) at 2 3. apply address_serialize_wire; auto. lia.
  - rewrite <- (app_nil_r (wire v a w)) at 1. now apply address_deserialize_wire.
Qed.
End AddressFacts.

(* ================================================================== *)
(** * Breakpoint: what is written is read back                         *)
(* ================================================================== *)

Module BreakpointFacts.

Import PyFacts Valid Breakpoint.

Lemma Type_of_value (ty : Type_) : Type_of (Type_value ty) = Ok ty.
Proof. now destruct ty. Qed.

Lemma Impl_of_value (i : Impl) : Impl_of (Impl_value i) = Ok i.
Proof. now destruct i. Qed.

Lemma Action_of_value (a : Action) : Action_of (Action_value a) = Ok a.
Proof. now destruct a. Qed.

Lemma Type_value_range (ty : Type_) : 0 <= Type_value ty < 2 ^ 32.
Proof. destruct ty; cbn; lia. Qed.

Lemma Impl_value_range (i : Impl) : 0 <= Impl_value i < 2 ^ 32.
Proof. destruct i; cbn; lia. Qed.

Lemma Action_value_range (a : Action) : 0 <= Action_value a < 2 ^ 32.
Proof. destruct a; cbn; lia. Qed.

Lemma breakpoint_loop_relocate_gen (fuel : nat) :
  forall self buf p q,
    deserialize_loop fuel self buf (p + q) = deserialize_loop fuel self (skipn p buf) q.
Proof.
  induction fuel as [|fuel IH]; intros self buf p q; [reflexivity|].
  cbn [deserialize_loop].
  unfold slice_from. rewrite !slice_skipn, length_skipn, !skipn_skipn.
  replace (q <? length buf - p)%nat with (p + q <? length buf)%nat
    by (destruct (p + q <? length buf)%nat eqn:E1;
        destruct (q <? length buf - p)%nat eqn:E2; try reflexivity;
        [apply Nat.ltb_lt in E1; apply Nat.ltb_ge in E2
        |apply Nat.ltb_ge in E1; apply Nat.ltb_lt in E2]; lia).
  rewrite !Nat.add_assoc.
  rewrite (Nat.add_comm (q + 2) p), !Nat.add_assoc.
  destruct (p + q <? length buf)%nat; [|reflexivity].
  repeat match goal with
         | |- context [if ?c then _ else _] => destruct c
         end;
    try reflexivity;
    try (rewrite <- !Nat.add_assoc; rewrite IH; reflexivity);
    match goal with
    | |- bind ?m _ = bind ?m _ => destruct m as [[? ?]| |] + destruct m
    end; cbn [bind]; try reflexivity;
    rewrite <- !Nat.add_assoc; rewrite IH; reflexivity.
Qed.

Lemma breakpoint_loop_relocate (fuel : nat) (self : t) (buf : bytes) (p : nat) :
  deserialize_loop fuel self buf p = deserialize_loop fuel self (skipn p buf) 0.
Proof. rewrite <- breakpoint_loop_relocate_gen. now rewrite Nat.add_0_r. Qed.


Ltac step_start :=
  tags; cbn [app];
  cbn [deserialize_loop length Nat.ltb Nat.leb];
  cut_slices; eval_eqb.

Ltac step_next :=
  rewrite breakpoint_loop_relocate; repeat rewrite skipn_cons;
  rewrite ?skipn_O, ?skipn_app_exact by apply length_to_bytes_le.

Lemma breakpoint_step_AD (fuel : nat) (self : t) (a : str) (v : Z) (rest : bytes) :
  access_ok a = true -> 0 <= v < 2 ^ 64 ->
  deserialize_loop (S fuel) self (B "AD" ++ AddressFacts.wire v a None ++ rest) 0
  = deserialize_loop fuel (set_address self (Some (Address.mk (Some a) (Some v)))) rest 0.
Proof.
  intros Ha Hv. step_start.
  rewrite AddressFacts.address_deserialize_wire by assumption. cbn [bind].
  rewrite breakpoint_loop_relocate. repeat rewrite skipn_cons.
  now rewrite skipn_app_exact.
Qed.

Lemma breakpoint_step_SZ (fuel : nat) (self : t) (s : Z) (rest : bytes) :
  0 <= s < 2 ^ 64 ->
  deserialize_loop (S fuel) self (B "SZ" ++ to_bytes_le s 8 ++ rest) 0
  = deserialize_loop fuel (set_size self (Some s)) rest 0.
Proof.
  intro Hs. step_start.
  rewrite firstn_app_exact by apply length_to_bytes_le.
  rewrite from_to_bytes_le by (change (256 ^ Z.of_nat 8) with (2 ^ 64); lia).
  now step_next.
Qed.

Lemma breakpoint_step_TY (fuel : nat) (self : t) (ty : Type_) (rest : bytes) :
  deserialize_loop (S fuel) self (B "TY" ++ to_bytes_le (Type_value ty) 4 ++ rest) 0
  = deserialize_loop fuel (set_type self (Some ty)) rest 0.
Proof.
  step_start.
  rewrite firstn_app_exact by apply length_to_bytes_le.
  rewrite from_to_bytes_le by apply Type_value_range.
  rewrite Type_of_value. cbn [bind]. now step_next.
Qed.

Lemma breakpoint_step_IM (fuel : nat) (self : t) (i : Impl) (rest : bytes) :
  deserialize_loop (S fuel) self (B "IM" ++ to_bytes_le (Impl_value i) 4 ++ rest) 0
  = deserialize_loop fuel (set_impl self (Some i)) rest 0.
Proof.
  step_start.
  rewrite firstn_app_exact by apply length_to_bytes_le.
  rewrite from_to_bytes_le by apply Impl_value_range.
  rewrite Impl_of_value. cbn [bind]. now step_next.
Qed.

Lemma breakpoint_step_CA (fuel : nat) (self : t) (a : Action) (rest : bytes) :
  deserialize_loop (S fuel) self (B "CA" ++ to_bytes_le (Action_value a) 4 ++ rest) 0
  = deserialize_loop fuel (set_action self (Some a)) rest 0.
Proof.
  step_start.
  rewrite firstn_app_exact by apply length_to_bytes_le.
  rewrite from_to_bytes_le by apply Action_value_range.
  rewrite Action_of_value. cbn [bind]. now step_next.
Qed.

Lemma breakpoint_step_EN (fuel : nat) (self : t) (en : bool) (rest : bytes) :
  deserialize_loop (S fuel) self
    (B "EN" ++ (if en then [x01; x00] else [x00; x00]) ++ rest) 0
  = deserialize_loop fuel (set_enabled self en) rest 0.
Proof.
  destruct en; step_start; cbn [firstn]; step_next; reflexivity.
Qed.

Lemma breakpoint_step_CO (fuel : nat) (self : t) (c : Z) (rest : bytes) :
  0 <= c < 2 ^ 32 ->
  deserialize_loop (S fuel) self (B "CO" ++ to_bytes_le c 4 ++ rest) 0
  = deserialize_loop fuel (set_core self (Some c)) rest 0.
Proof.
  intro Hc. step_start.
  rewrite firstn_app_exact by apply length_to_bytes_le.
  rewrite from_to_bytes_le by exact Hc.
  now step_next.
Qed.

Lemma breakpoint_step_XX (fuel : nat) (self : t) (rest : bytes) :
  deserialize_loop (S fuel) self (B "XX" ++ rest) 0 = Ok self.
Proof. step_start. reflexivity. Qed.

Definition or_default {A} (o : option A) (d : A) : A :=
  match o with Some v => v | None => d end.

Definition size_field (s : option Z) : bytes :=
  match s with Some s => B "SZ" ++ to_bytes_le s 8 | None => [] end.

Definition core_field (c : option Z) : bytes :=
  match c with Some c => B "CO" ++ to_bytes_le c 4 | None => [] end.

(** The bytes of a breakpoint at the address of value [v] and access
    code [a]. *)
Definition wire (x : t) (v : Z) (a : str) : bytes :=
  B "AD" ++ AddressFacts.wire v a None
    ++ size_field (size x)
    ++ B "TY" ++ to_bytes_le (Type_value (or_default (type_ x) PROGRAM)) 4
    ++ B "IM" ++ to_bytes_le (Impl_value (or_default (impl x) AUTO)) 4
    ++ B "CA" ++ to_bytes_le (Action_value (or_default (action x) NONE)) 4
    ++ B "EN" ++ (if enabled x then [x01; x00] else [x00; x00])
    ++ core_field (core x)
    ++ B "XX" ++ [x00; x00].

Lemma breakpoint_serialize_wire (x : t) (v : Z) (a : str) :
  breakpoint_ok x = true -> address x = Some (Address.mk (Some a) (Some v)) ->
  serialize x = Ok (length (wire x v a), wire x v a).
Proof.
  intros Hx Hadr. unfold breakpoint_ok in Hx. rewrite Hadr in Hx.
  apply andb_true_iff in Hx. destruct Hx as [Hx Hc].
  apply andb_true_iff in Hx. destruct Hx as [Ha Hs].
  unfold address_ok in Ha. cbn in Ha.
  apply andb_true_iff in Ha. destruct Ha as [Ha H2].
  apply andb_true_iff in Ha. destruct Ha as [Ha H1].
  apply Z.leb_le in H1. apply Z.ltb_lt in H2.
  unfold serialize. rewrite Hadr. cbn [bind].
  pose proof (AddressFacts.address_serialize_wire a v 0 None Ha) as Hser.
  rewrite Z.add_0_r in Hser. rewrite Hser by (auto; lia). cbn [bind].
  unfold pack_2sQ, pack_2sI.
  assert (Esz : forall r : bytes,
             match size x with
             | Some sz => f <- (b <- pack_Q sz;; Ok (pack_s 2 (B "SZ") ++ b));; Ok (r ++ f)
             | None => Ok r
             end = Ok (r ++ size_field (size x))).
  { intro r. destruct (size x) as [s|]; cbn [size_field].
    - apply andb_true_iff in Hs. destruct Hs as [Hs1 Hs2].
      apply Z.leb_le in Hs1. apply Z.ltb_lt in Hs2.
      rewrite pack_Q_ok by lia. reflexivity.
    - now rewrite app_nil_r. }
  rewrite Esz. cbn [bind].
  assert (Eco : forall r : bytes,
             match core x with
             | Some c => f <- (b <- pack_I c;; Ok (pack_s 2 (B "CO") ++ b));; Ok (r ++ f)
             | None => Ok r
             end = Ok (r ++ core_field (core x))).
  { intro r. destruct (core x) as [c|]; cbn [core_field].
    - apply andb_true_iff in Hc. destruct Hc as [Hc1 Hc2].
      apply Z.leb_le in Hc1. apply Z.ltb_lt in Hc2.
      rewrite pack_I_ok by lia. reflexivity.
    - now rewrite app_nil_r. }
  replace (match type_ x with Some ty => Type_value ty | None => Type_value PROGRAM end)
    with (Type_value (or_default (type_ x) PROGRAM)) by now destruct (type_ x).
  replace (match impl x with Some i => Impl_value i | None => Impl_value AUTO end)
    with (Impl_value (or_default (impl x) AUTO)) by now destruct (impl x).
  replace (match action x with Some a0 => Action_value a0 | None => Action_value NONE end)
    with (Action_value (or_default (action x) NONE)) by now destruct (action x).
  rewrite !pack_I_ok
    by (apply Type_value_range || apply Impl_value_range || apply Action_value_range).
  cbn [bind]. rewrite Eco. cbn [bind].
  unfold wire. tags. cbn [pack_s firstn length Nat.sub repeat].
  rewrite <- !app_assoc. reflexivity.
Qed.

(** What [deserialize] makes of [self] on the bytes of [x]. *)
Definition decoded (self x : t) : t :=
  mk (Some (or_default (action x) NONE))
     (address x)
     (match core x with Some c => Some c | None => core self end)
     (enabled x)
     (Some (or_default (impl x) AUTO))
     (match size x with Some s => Some s | None => size self end)
     (Some (or_default (type_ x) PROGRAM)).

Lemma breakpoint_deserialize_wire (self x : t) (v : Z) (a : str) :
  breakpoint_ok x = true -> address x = Some (Address.mk (Some a) (Some v)) ->
  deserialize self (wire x v a) = Ok (decoded self x).
Proof.
  intros Hx Hadr. unfold breakpoint_ok in Hx. rewrite Hadr in Hx.
  apply andb_true_iff in Hx. destruct Hx as [Hx Hc].
  apply andb_true_iff in Hx. destruct Hx as [Ha Hs].
  unfold address_ok in Ha. cbn in Ha.
  apply andb_true_iff in Ha. destruct Ha as [Ha H2].
  apply andb_true_iff in Ha. destruct Ha as [Ha H1].
  apply Z.leb_le in H1. apply Z.ltb_lt in H2.
  unfold deserialize.
  assert (Hfuel : exists f, length (wire x v a) = (8 + f)%nat).
  { exists (length (wire x v a) - 8)%nat. unfold wire, AddressFacts.wire. lens. }
  destruct Hfuel as [f ->]. cbn [Nat.add].
  unfold wire, decoded. rewrite Hadr.
  rewrite breakpoint_step_AD by (auto; lia).
  destruct (size x) as [s|]; destruct (core x) as [c|]; cbn [size_field core_field app];
    rewrite <- ?app_assoc;
    repeat match goal with
           | H : (_ && _) = true |- _ =>
               apply andb_true_iff in H; let H1 := fresh in let H2 := fresh in
               destruct H as [H1 H2]; apply Z.leb_le in H1; apply Z.ltb_lt in H2
           end;
    rewrite ?breakpoint_step_SZ by lia;
    rewrite breakpoint_step_TY, breakpoint_step_IM, breakpoint_step_CA, breakpoint_step_EN;
    rewrite ?breakpoint_step_CO by lia;
    rewrite breakpoint_step_XX; destruct self; reflexivity.
Qed.

Theorem breakpoint_roundtrip (self x : t) :
  breakpoint_ok x = true ->
  exists n buf y,
    serialize x = Ok (n, buf)
    /\ deserialize self buf = Ok y
    /\ agrees (action x) (action y)
    /\ address y = address x
    /\ agrees (core x) (core y)
    /\ enabled y = enabled x
    /\ agrees (impl x) (impl y)
    /\ agrees (size x) (size y)
    /\ agrees (type_ x) (type_ y).
Proof.
  intro Hx.
  assert (Hadr : exists a v, address x = Some (Address.mk (Some a) (Some v))).
  { unfold breakpoint_ok in Hx. destruct (address x) as [[[a|] [v|]]|]; try discriminate.
    now exists a, v. }
  destruct Hadr as (a & v & Hadr).
  exists (length (wire x v a)), (wire x v a), (decoded self x).
  split; [now apply breakpoint_serialize_wire|].
  split; [now apply breakpoint_deserialize_wire|].
  unfold decoded, agrees, or_default. cbn.
  repeat split;
    match goal with |- match ?o with _ => _ end => now destruct o end.
Qed.
End BreakpointFacts.

(* ================================================================== *)
(** * Symbol: what is written is read back                             *)
(* ================================================================== *)

Module SymbolFacts.

Import PyFacts Valid Symbol.

Lemma land_lnot_1 (x : Z) : Z.land x (Z.lnot 1) = 2 * (x / 2).
Proof.
  rewrite <- Z.ldiff_land. change 1 with (Z.ones 1).
  rewrite Z.ldiff_ones_r by lia.
  rewrite Z.shiftr_div_pow2, Z.shiftl_mul_pow2 by lia.
  change (2 ^ 1) with 2. lia.
Qed.

(** The even length announced for the name [n]. *)
Definition len0a (n : str) : Z := Z.land (Z.of_nat (length n) + 2) (Z.lnot 1).

Lemma len0a_bounds (n : str) :
  Z.of_nat (length n) + 1 <= len0a n <= Z.of_nat (length n) + 2.
Proof.
  unfold len0a. rewrite land_lnot_1.
  pose proof (Z.div_mod (Z.of_nat (length n) + 2) 2).
  pose proof (Z.mod_pos_bound (Z.of_nat (length n) + 2) 2). lia.
Qed.

Definition address_field (a : option Address.t) : bytes :=
  match a with
  | Some (Address.mk (Some c) (Some v)) => B "AD" ++ AddressFacts.wire v c None
  | _ => []
  end.

Definition name_field (n : option str) : bytes :=
  match n with
  | Some n => B "NM" ++ to_bytes_le (len0a n) 2
                ++ n ++ repeat x00 (Z.to_nat (len0a n) - length n)
  | None => []
  end.

Definition wire (x : t) : bytes :=
  address_field (address x) ++ name_field (name x) ++ B "XX".

Lemma symbol_serialize_wire (x : t) :
  symbol_ok x = true -> serialize x = Ok (length (wire x), wire x).
Proof.
  intro Hx. unfold symbol_ok in Hx.
  apply andb_true_iff in Hx. destruct Hx as [Ha Hn].
  unfold serialize, wire.
  assert (Ead : match address x with
                | Some a =>
                    '(_, addr_params) <- Address.serialize a 0 None ;;
                    Ok (([] ++ B "AD") ++ addr_params)
                | None => Ok []
                end = Ok (address_field (address x))).
  { destruct (address x) as [[[c|] [v|]]|]; try discriminate; [|reflexivity].
    unfold address_ok in Ha. cbn in Ha.
    apply andb_true_iff in Ha. destruct Ha as [Ha H2].
    apply andb_true_iff in Ha. destruct Ha as [Ha H1].
    apply Z.leb_le in H1. apply Z.ltb_lt in H2.
    pose proof (AddressFacts.address_serialize_wire c v 0 None Ha) as Hser.
    rewrite Z.add_0_r in Hser. rewrite Hser by (auto; lia). reflexivity. }
  rewrite Ead. cbn [bind].
  destruct (name x) as [n|]; cbn [name_field].
  - unfold name_ok in Hn.
    apply andb_true_iff in Hn. destruct Hn as [Hn Hl].
    apply andb_true_iff in Hn. destruct Hn as [Hasc _].
    apply Z.leb_le in Hl. pose proof (len0a_bounds n) as Hb.
    fold (len0a n). rewrite pack_H_ok by lia. cbn [bind].
    unfold encode. rewrite Hasc. cbn [bind].
    rewrite (pack_s_pad (Z.to_nat (len0a n)) n) by lia.
    tags. cbn [pack_s firstn length Nat.sub repeat].
    rewrite <- !app_assoc. reflexivity.
  - cbn [bind]. rewrite app_nil_l. reflexivity.
Qed.

Lemma symbol_loop_relocate_gen (fuel : nat) :
  forall self buf p q,
    deserialize_loop fuel self buf (p + q) = deserialize_loop fuel self (skipn p buf) q.
Proof.
  induction fuel as [|fuel IH]; intros self buf p q; [reflexivity|].
  cbn [deserialize_loop].
  unfold slice_from. rewrite !slice_skipn, length_skipn, !skipn_skipn.
  replace (q <? length buf - p)%nat with (p + q <? length buf)%nat
    by (destruct (p + q <? length buf)%nat eqn:E1;
        destruct (q <? length buf - p)%nat eqn:E2; try reflexivity;
        [apply Nat.ltb_lt in E1; apply Nat.ltb_ge in E2
        |apply Nat.ltb_ge in E1; apply Nat.ltb_lt in E2]; lia).
  rewrite !Nat.add_assoc.
  rewrite (Nat.add_comm (q + 2) p), !Nat.add_assoc.
  destruct (p + q <? length buf)%nat; [|reflexivity].
  repeat match goal with
         | |- context [if ?c then _ else _] => destruct c
         end;
    try reflexivity;
    try (rewrite <- !Nat.add_assoc; rewrite IH; reflexivity);
    match goal with
    | |- bind ?m _ = bind ?m _ => destruct m as [[? ?]| |] + destruct m
    end; cbn [bind]; try reflexivity;
    try (rewrite <- !Nat.add_assoc; rewrite IH; reflexivity).
  destruct (name self); [|reflexivity].
  rewrite <- !Nat.add_assoc; rewrite IH; reflexivity.
Qed.

Lemma symbol_loop_relocate (fuel : nat) (self : t) (buf : bytes) (p : nat) :
  deserialize_loop fuel self buf p = deserialize_loop fuel self (skipn p buf) 0.
Proof. rewrite <- symbol_loop_relocate_gen. now rewrite Nat.add_0_r. Qed.

Ltac step_start :=
  tags; cbn [app];
  cbn [deserialize_loop length Nat.ltb Nat.leb];
  cut_slices; eval_eqb.

Lemma symbol_step_AD (fuel : nat) (self : t) (a : str) (v : Z) (rest : bytes) :
  access_ok a = true -> 0 <= v < 2 ^ 64 ->
  deserialize_loop (S fuel) self (B "AD" ++ AddressFacts.wire v a None ++ rest) 0
  = deserialize_loop fuel
      (mk (Some (Address.mk (Some a) (Some v))) (name self) (path self) (size self))
      rest 0.
Proof.
  intros Ha Hv. step_start.
  rewrite AddressFacts.address_deserialize_wire by assumption. cbn [bind].
  rewrite symbol_loop_relocate. repeat rewrite skipn_cons.
  now rewrite skipn_app_exact.
Qed.

Lemma symbol_step_NM (fuel : nat) (self : t) (n : str) (rest : bytes) :
  name_ok n = true ->
  deserialize_loop (S fuel) self (name_field (Some n) ++ rest) 0
  = deserialize_loop fuel (mk (address self) (Some n) (path self) (size self)) rest 0.
Proof.
  intro Hn. unfold name_ok in Hn.
  apply andb_true_iff in Hn. destruct Hn as [Hn Hl].
  apply andb_true_iff in Hn. destruct Hn as [Hasc Hr].
  apply Z.leb_le in Hl. apply bytes_eqb_eq in Hr.
  pose proof (len0a_bounds n) as Hb.
  set (pad := repeat x00 (Z.to_nat (len0a n) - length n)).
  assert (Hlen : length (n ++ pad) = Z.to_nat (len0a n)).
  { unfold pad. rewrite length_app, repeat_length. lia. }
  assert (Hf : from_bytes_le (to_bytes_le (len0a n) 2) = len0a n)
    by (apply from_to_bytes_le; change (256 ^ Z.of_nat 2) with 65536; lia).
  cbn [name_field]. fold pad. rewrite <- !app_assoc.
  rewrite (app_assoc n pad rest).
  cbn [to_bytes_le] in *. step_start.
  rewrite Hf. rewrite firstn_app_exact by exact Hlen.
  unfold decode.
  assert (Hp : forallb is_ascii (n ++ pad) = true).
  { rewrite forallb_app, Hasc. unfold pad. simpl.
    generalize (Z.to_nat (len0a n) - length n)%nat. intro k. induction k; simpl; auto. }
  rewrite Hp. cbn [bind]. unfold pad at 1. rewrite rstrip_pad, Hr.
  rewrite symbol_loop_relocate.
  repeat rewrite skipn_cons. rewrite skipn_app_exact by exact Hlen.
  reflexivity.
Qed.

Lemma symbol_step_XX (fuel : nat) (self : t) (rest : bytes) :
  deserialize_loop (S fuel) self (B "XX" ++ rest) 0 = Ok self.
Proof. step_start. reflexivity. Qed.

Lemma symbol_step_XX_end (fuel : nat) (self : t) :
  deserialize_loop (S fuel) self (B "XX") 0 = Ok self.
Proof. step_start. reflexivity. Qed.

Lemma symbol_deserialize_wire (self x : t) :
  symbol_ok x = true ->
  deserialize self (wire x) = Ok (mk (address x) (name x) None (Some 0)).
Proof.
  intro Hx. unfold symbol_ok in Hx.
  apply andb_true_iff in Hx. destruct Hx as [Ha Hn].
  unfold deserialize.
  assert (Hfuel : exists f, length (wire x) = (2 + f)%nat).
  { exists (length (wire x) - 2)%nat. unfold wire. lens. }
  destruct Hfuel as [f ->]. cbn [Nat.add]. unfold wire.
  destruct (address x) as [[[c|] [v|]]|]; try discriminate;
    destruct (name x) as [n|]; cbn [address_field app];
    rewrite <- ?app_assoc.
  all: try (unfold address_ok in Ha; cbn in Ha;
            apply andb_true_iff in Ha; destruct Ha as [Ha H2];
            apply andb_true_iff in Ha; destruct Ha as [Ha H1];
            apply Z.leb_le in H1; apply Z.ltb_lt in H2).
  - rewrite symbol_step_AD by (auto; lia).
    rewrite symbol_step_NM by assumption. now rewrite symbol_step_XX_end.
  - rewrite symbol_step_AD by (auto; lia).
    cbn [name_field app]. now rewrite symbol_step_XX_end.
  - rewrite symbol_step_NM by assumption. now rewrite symbol_step_XX_end.
  - cbn [name_field app]. now rewrite symbol_step_XX_end.
Qed.

Theorem symbol_roundtrip (self x : t) :
  symbol_ok x = true ->
  exists n buf y,
    serialize x = Ok (n, buf)
    /\ deserialize self buf = Ok y
    /\ address y = address x
    /\ name y = name x.
Proof.
  intro Hx. exists (length (wire x)), (wire x), (mk (address x) (name x) None (Some 0)).
  split; [now apply symbol_serialize_wire|].
  split; [now apply symbol_deserialize_wire|]. split; reflexivity.
Qed.

End SymbolFacts.

(* ================================================================== *)
(** * Register: what is written is read back                           *)
(* ================================================================== *)

Module RegisterFacts.

Import PyFacts Valid Register.

Ltac relocate_block :=
  intros; cbv beta delta [extract_type extract_value extract_fvalue extract_core extract_end];
  rewrite !slice_skipn, !Nat.add_assoc;
  match goal with |- context [if ?c then _ else _] => destruct c end;
  cbn [bind shift]; rewrite ?Nat.add_assoc; try reflexivity;
  match goal with
  | |- context [bind ?m _] =>
      destruct m; cbn [bind shift]; rewrite ?Nat.add_assoc; reflexivity
  end.

Lemma extract_type_relocate self data p q :
  extract_type self data (p + q) = shift p (extract_type self (skipn p data) q).
Proof. relocate_block. Qed.

Lemma extract_value_relocate self data p q :
  extract_value self data (p + q) = shift p (extract_value self (skipn p data) q).
Proof. relocate_block. Qed.

Lemma extract_fvalue_relocate self data p q :
  extract_fvalue self data (p + q) = shift p (extract_fvalue self (skipn p data) q).
Proof. relocate_block. Qed.

Lemma extract_core_relocate self data p q :
  extract_core self data (p + q) = shift p (extract_core self (skipn p data) q).
Proof. relocate_block. Qed.

Lemma extract_end_relocate self data p q :
  extract_end self data (p + q) = shift p (extract_end self (skipn p data) q).
Proof. relocate_block. Qed.

(** The blocks that follow the name. *)
Definition fields (self : t) (data : bytes) (counter : nat) : outcome (nat * t) :=
  '(counter, self) <- extract_type self data counter ;;
  '(counter, self) <- extract_value self data counter ;;
  '(counter, self) <- extract_fvalue self data counter ;;
  '(counter, self) <- extract_core self data counter ;;
  extract_end self data counter.

Lemma bind_shift {A C} (p : nat) (m : outcome (nat * A)) (k : nat * A -> outcome C) :
  bind (shift p m) k = bind m (fun '(c, s) => k ((p + c)%nat, s)).
Proof. destruct m as [[c s]| |]; reflexivity. Qed.

Lemma fields_relocate self data p :
  fields self data p = shift p (fields self (skipn p data) 0).
Proof.
  unfold fields.
  rewrite <- (Nat.add_0_r p) at 1.
  rewrite extract_type_relocate, bind_shift, shift_bind.
  destruct (extract_type self (skipn p data) 0) as [[c1 s1]| |]; cbn [bind]; try reflexivity.
  rewrite extract_value_relocate, bind_shift, shift_bind.
  destruct (extract_value s1 (skipn p data) c1) as [[c2 s2]| |]; cbn [bind]; try reflexivity.
  rewrite extract_fvalue_relocate, bind_shift, shift_bind.
  destruct (extract_fvalue s2 (skipn p data) c2) as [[c3 s3]| |]; cbn [bind]; try reflexivity.
  rewrite extract_core_relocate, bind_shift, shift_bind.
  destruct (extract_core s3 (skipn p data) c3) as [[c4 s4]| |]; cbn [bind]; try reflexivity.
  apply extract_end_relocate.
Qed.


(** ** The bytes of a register *)

(** The even length announced for the name [n]. *)
Definition name_len (n : str) : Z :=
  let l := Z.of_nat (length n) in if Z.land l 1 =? 0 then l else l + 1.

Definition name_field (n : option str) : bytes :=
  match n with
  | Some n => B "NM" ++ to_bytes_le (name_len n) 2
                ++ n ++ repeat x00 (Z.to_nat (name_len n) - length n)
  | None => []
  end.

(** The member of [Unit] that [_serialize] finds for the attribute. *)
Definition unit_of (u : option str) : Unit :=
  match u with
  | Some u => if bytes_eqb u (B "CPU") then CPU
              else if bytes_eqb u (B "FPU") then FPU else VPU
  | None => CPU
  end.

Definition opt_field (tag : bytes) (len : nat) (o : option Z) : bytes :=
  match o with Some v => tag ++ to_bytes_le v len | None => [] end.

Definition fields_wire (x : t) : bytes :=
  B "TY" ++ to_bytes_le (Unit_value (unit_of (unit x))) 2
    ++ opt_field (B "VA") 8 (value x)
    ++ opt_field (B "FV") 8 (fvalue x)
    ++ opt_field (B "CO") 2 (core x).

Definition wire (x : t) : bytes :=
  name_field (name x) ++ fields_wire x ++ B "XXXX".

Lemma name_len_bounds (n : str) :
  Z.of_nat (length n) <= name_len n <= Z.of_nat (length n) + 1.
Proof. unfold name_len. cbv zeta. destruct (_ =? 0); lia. Qed.

Lemma name_len_pad (n : str) :
  (Z.to_nat (name_len n) - length n = 0 \/ Z.to_nat (name_len n) - length n = 1)%nat.
Proof. pose proof (name_len_bounds n). lia. Qed.

Lemma in_range_spec lo hi o v :
  in_range lo hi o = true -> o = Some v -> lo <= v < hi.
Proof.
  intros H ->. cbn in H. apply andb_true_iff in H. destruct H as [H1 H2].
  apply Z.leb_le in H1. apply Z.ltb_lt in H2. lia.
Qed.

Lemma pack_value (v : Z) :
  0 <= v < 2 ^ 64 ->
  match pack_q v with Raise StructError => pack_Q v | r => r end = Ok (to_bytes_le v 8).
Proof.
  intro Hv. unfold pack_q.
  destruct (v <? 2 ^ 63) eqn:E.
  - replace (- 2 ^ 63 <=? v) with true by (symmetry; apply Z.leb_le; lia).
    reflexivity.
  - rewrite andb_false_r. now apply pack_Q_ok.
Qed.

Lemma unit_named_ok (u : str) :
  unit_ok u = true -> Unit_named (upper u) = Ok (unit_of (Some u)).
Proof.
  intro H. unfold unit_ok in H.
  apply orb_true_iff in H. destruct H as [H|H];
    [apply orb_true_iff in H; destruct H as [H|H]|];
    apply bytes_eqb_eq in H; subst u; reflexivity.
Qed.

Lemma Unit_value_range (u : Unit) : 0 <= Unit_value u <= 0xFFFF.
Proof. destruct u; cbn; lia. Qed.

Lemma regname_ascii (n : str) : regname_ok n = true -> forallb is_ascii n = true.
Proof.
  intro H. unfold regname_ok in H.
  apply andb_true_iff in H. destruct H as [H _].
  apply andb_true_iff in H. destruct H as [H _].
  rewrite forallb_forall in *. intros c Hc. specialize (H c Hc).
  now apply andb_true_iff in H.
Qed.

Lemma regname_length (n : str) : regname_ok n = true -> Z.of_nat (length n) <= 254.
Proof.
  intro H. unfold regname_ok in H.
  apply andb_true_iff in H. destruct H as [_ H]. now apply Z.leb_le.
Qed.

Lemma register_serialize_wire (x : t) :
  register_ok x = true -> _serialize x = Ok (wire x).
Proof.
  intro Hx. unfold register_ok in Hx.
  repeat (apply andb_true_iff in Hx; destruct Hx as [Hx ?]).
  destruct x as [co nm un va fv]. cbn [core name unit value fvalue] in *.
  unfold _serialize, wire, fields_wire. cbn [core name unit value fvalue]. cbv zeta.
  destruct nm as [n|]; destruct un as [u|]; destruct va as [v|];
    destruct fv as [f|]; destruct co as [c|];
    cbn [opt_field name_field unit_of].
  all: repeat match goal with
              | H : in_range ?lo ?hi (Some ?v) = true |- _ =>
                  pose proof (in_range_spec lo hi (Some v) v H eq_refl); clear H
              | H : in_range _ _ None = true |- _ => clear H
              end.
  all: try (change (if Z.land (Z.of_nat (length n)) 1 =? 0
                    then Z.of_nat (length n) else Z.of_nat (length n) + 1)
             with (name_len n);
            pose proof (name_len_bounds n); pose proof (regname_length n Hx);
            rewrite (pack_H_ok (name_len n)) by lia; cbn [bind];
            unfold encode; rewrite (regname_ascii n Hx); cbn [bind];
            rewrite (pack_s_pad (Z.to_nat (name_len n)) n) by lia).
  all: cbn [bind].
  all: rewrite ?unit_named_ok by assumption; cbn [bind].
  all: rewrite (pack_H_ok (Unit_value _)) by apply Unit_value_range; cbn [bind].
  all: rewrite ?pack_value by lia; cbn [bind].
  all: rewrite ?pack_H_ok by lia; cbn [bind].
  all: tags; cbn [pack_s firstn length Nat.sub repeat app unit_of pack_d];
    rewrite <- ?app_assoc; cbn [app]; reflexivity.
Qed.


Lemma Unit_of_wire (u : Unit) :
  Unit_of (from_bytes_le (to_bytes_le (Unit_value u) 2)) = Ok u.
Proof. destruct u; vm_compute; reflexivity. Qed.

Lemma signed_core (c : Z) :
  0 <= c < 2 ^ 15 -> from_bytes_le_signed (to_bytes_le c 2) = c.
Proof.
  intro Hc. unfold from_bytes_le_signed.
  rewrite from_to_bytes_le by (change (256 ^ Z.of_nat 2) with 65536; lia).
  rewrite length_to_bytes_le. change (256 ^ Z.of_nat 2) with 65536.
  destruct (2 * c <? 65536) eqn:E; [reflexivity|].
  apply Z.ltb_ge in E. lia.
Qed.

Definition or_else {A} (o d : option A) : option A :=
  match o with Some v => Some v | None => d end.

(** What the blocks after the name make of [self] on the bytes of [x]. *)
Lemma fields_decode (self x : t) :
  register_ok x = true ->
  fields self (fields_wire x ++ B "XXXX") 0
  = Ok (length (fields_wire x),
        mk (or_else (core x) (core self)) (name self)
           (Some (Unit_name (unit_of (unit x))))
           (or_else (value x) (value self)) (or_else (fvalue x) (fvalue self))).
Proof.
  intro Hx. unfold register_ok in Hx.
  repeat (apply andb_true_iff in Hx; destruct Hx as [Hx ?]).
  destruct x as [co nm un va fv]. cbn [core name unit value fvalue] in *.
  clear Hx.
  unfold fields_wire. cbn [core name unit value fvalue].
  generalize (unit_of un). intro U.
  pose proof (Unit_of_wire U) as HU.
  destruct va as [v|]; destruct fv as [f|]; destruct co as [c|];
    cbn [opt_field or_else].
  all: repeat match goal with
              | H : in_range ?lo ?hi (Some ?v) = true |- _ =>
                  pose proof (in_range_spec lo hi (Some v) v H eq_refl); clear H
              | H : in_range _ _ None = true |- _ => clear H
              end.
  all: try (assert (Hv : from_bytes_le (to_bytes_le v 8) = v)
             by (apply from_to_bytes_le; change (256 ^ Z.of_nat 8) with (2 ^ 64); lia)).
  all: try (assert (Hf : from_bytes_le (to_bytes_le f 8) = f)
             by (apply from_to_bytes_le; change (256 ^ Z.of_nat 8) with (2 ^ 64); lia)).
  all: try (pose proof (signed_core c ltac:(lia)) as Hc).
  all: rewrite ?length_app, ?length_to_bytes_le.
  all: cbn [to_bytes_le] in *; tags; cbn [app length Nat.add] in *; rewrite <- ?app_assoc;
    cbn [app].
  all: unfold fields, extract_type, extract_value, extract_fvalue, extract_core,
         extract_end.
  all: cut_slices; eval_eqb; rewrite ?HU; cbn [bind].
  all: cut_slices; eval_eqb; rewrite ?Hv; cbn [bind].
  all: cut_slices; eval_eqb; unfold unpack_d; cbn [length Nat.eqb]; rewrite ?Hf; cbn [bind].
  all: cut_slices; eval_eqb; rewrite ?Hc; cbn [bind].
  all: cut_slices; eval_eqb; reflexivity.
Qed.


Lemma extract_name_wire (self : t) (n : str) (rest : bytes) :
  regname_ok n = true ->
  extract_name self (name_field (Some n) ++ rest) 0
  = Ok (length (name_field (Some n)),
        mk (core self) (Some n) (unit self) (value self) (fvalue self)).
Proof.
  intro Hn. pose proof (name_len_bounds n) as Hb.
  pose proof (regname_length n Hn) as Hl.
  unfold regname_ok in Hn.
  apply andb_true_iff in Hn. destruct Hn as [Hn _].
  apply andb_true_iff in Hn. destruct Hn as [Hesc Hlast].
  set (pad := repeat x00 (Z.to_nat (name_len n) - length n)).
  assert (Hlen : length (n ++ pad) = Z.to_nat (name_len n)).
  { unfold pad. rewrite length_app, repeat_length. lia. }
  assert (Hf : from_bytes_le [byte_of_Z (name_len n mod 256)] = name_len n).
  { cbn [from_bytes_le]. rewrite Z_of_byte_of_Z, Z.mod_mod by lia.
    rewrite Z.mod_small by lia. lia. }
  cbn [name_field]. fold pad. rewrite <- !app_assoc.
  rewrite (app_assoc n pad rest).
  unfold extract_name. cbn [to_bytes_le]. tags. cbn [app length].
  cut_slices. eval_eqb. rewrite Hf.
  replace (Z.to_nat (name_len n) + 4 - 4)%nat with (Z.to_nat (name_len n)) by lia.
  rewrite firstn_app_exact by exact Hlen.
  unfold decode_unicode_escape.
  assert (Hp : forallb (fun c => is_ascii c && negb (Byte.eqb c backslash)) (n ++ pad) = true).
  { rewrite forallb_app, Hesc. unfold pad. simpl.
    generalize (Z.to_nat (name_len n) - length n)%nat. intro k. induction k; simpl; auto. }
  rewrite Hp. cbn [bind].
  assert (Hstrip : match rev (n ++ pad) with
                   | [] => Raise IndexError
                   | last :: front =>
                       Ok (if Byte.eqb last x00 then rev front else n ++ pad)
                   end = Ok n).
  { unfold pad. destruct (name_len_pad n) as [-> | ->]; cbn [repeat].
    - rewrite app_nil_r. destruct (rev n) as [|l fr]; [discriminate|].
      apply negb_true_iff in Hlast. now rewrite Hlast.
    - rewrite rev_app_distr. cbn [rev app]. rewrite byte_eqb_refl.
      now rewrite rev_involutive. }
  rewrite Hstrip. cbn [bind].
  do 2 f_equal. rewrite Hlen. lia.
Qed.

Lemma extract_name_absent (self x : t) (rest : bytes) :
  extract_name self (fields_wire x ++ rest) 0 = Ok (0%nat, self).
Proof.
  unfold extract_name, fields_wire. rewrite <- !app_assoc.
  tags. cbn [app]. cut_slices. eval_eqb. reflexivity.
Qed.

Lemma _deserialize_fields (self : t) (data : bytes) :
  _deserialize self data
  = ('(counter, self) <- extract_name self data 0 ;; fields self data counter).
Proof. reflexivity. Qed.

(** What [_deserialize] makes of [self] on the bytes of [x]. *)
Definition decoded (self x : t) : t :=
  mk (or_else (core x) (core self)) (or_else (name x) (name self))
     (Some (Unit_name (unit_of (unit x))))
     (or_else (value x) (value self)) (or_else (fvalue x) (fvalue self)).

Lemma register_deserialize_wire (self x : t) :
  register_ok x = true ->
  _deserialize self (wire x) = Ok ((length (wire x) - 4)%nat, decoded self x).
Proof.
  intro Hx. rewrite _deserialize_fields. unfold wire.
  destruct (name x) as [n|] eqn:En.
  - assert (Hn : regname_ok n = true).
    { unfold register_ok in Hx. rewrite En in Hx.
      do 4 (apply andb_true_iff in Hx; destruct Hx as [Hx ?]). exact Hx. }
    rewrite extract_name_wire by exact Hn. cbn [bind].
    rewrite fields_relocate, skipn_app_exact by reflexivity.
    rewrite fields_decode by exact Hx. cbn [shift core name unit value fvalue].
    unfold decoded. rewrite En. cbn [or_else].
    do 2 f_equal. rewrite !length_app.
    change (length (B "XXXX")) with 4%nat. lia.
  - cbn [name_field app].
    rewrite extract_name_absent. cbn [bind].
    rewrite fields_decode by exact Hx.
    unfold decoded. rewrite En. cbn [or_else].
    do 2 f_equal. rewrite !length_app.
    change (length (B "XXXX")) with 4%nat. lia.
Qed.

Theorem register_roundtrip (self x : t) :
  register_ok x = true ->
  exists buf n y,
    _serialize x = Ok buf
    /\ _deserialize self buf = Ok (n, y)
    /\ agrees (core x) (core y)
    /\ agrees (name x) (name y)
    /\ agrees (unit x) (unit y)
    /\ agrees (value x) (value y)
    /\ agrees (fvalue x) (fvalue y).
Proof.
  intro Hx. exists (wire x), (length (wire x) - 4)%nat, (decoded self x).
  split; [now apply register_serialize_wire|].
  split; [now apply register_deserialize_wire|].
  unfold decoded, agrees, or_else. cbn [core name unit value fvalue].
  repeat split; try (match goal with |- match ?o with _ => _ end => now destruct o end).
  destruct (unit x) as [u|] eqn:Eu; [|exact I].
  unfold register_ok in Hx. rewrite Eu in Hx.
  do 4 (apply andb_true_iff in Hx; destruct Hx as [Hx ?]).
  match goal with H : unit_ok u = true |- _ => unfold unit_ok in H;
    apply orb_true_iff in H; destruct H as [H|H];
    [apply orb_true_iff in H; destruct H as [H|H]|];
    apply bytes_eqb_eq in H; subst u; reflexivity end.
Qed.

End RegisterFacts.

(* ================================================================== *)
(** * Register attributes and equality; the transport of a Link        *)
(* ================================================================== *)

Module RegisterUse.

Import PyFacts Valid Register.

Lemma assign_exclusive (r : t) (a : assignment) :
  exclusive r -> forall r', assign r a = Ok r' -> exclusive r'.
Proof.
  intros Hr r' H. destruct a as [v|v]; destruct v; cbn in H;
    try discriminate; injection H as <-; unfold exclusive in *; cbn; tauto.
Qed.

Lemma assign_all_exclusive (l : list assignment) :
  forall r, exclusive r -> exclusive (assign_all r l).
Proof.
  induction l as [|a l IH]; intros r Hr; cbn [assign_all]; [exact Hr|].
  destruct (assign r a) as [r'| |] eqn:E; auto.
  apply IH. eapply assign_exclusive; eauto.
Qed.

Lemma init_exclusive core name value unit fvalue :
  forall r, init core name value unit fvalue = Ok r -> exclusive r.
Proof.
  intros r H. unfold init in H.
  destruct value; cbn in H; try discriminate;
    destruct fvalue; cbn in H; try discriminate;
    injection H as <-; unfold exclusive; cbn; tauto.
Qed.

(** C7: assigning an int to [value] leaves [fvalue] [None], assigning a
    float to [fvalue] leaves [value] [None], and after any sequence of
    assignments to the two attributes of a constructed register at most
    one of them is not [None]. *)
Theorem C7_value_fvalue_exclusive
  (r : t) (z : Z) (f : float)
  (core : option Z) (name : option str) (value : pyval) (unit : option str)
  (fvalue : pyval) (l : list assignment) :
  (exists r', set_value r (PyInt z) = Ok r'
              /\ Register.value r' = Some z /\ Register.fvalue r' = None)
  /\ (exists r', set_fvalue r (PyFloat f) = Ok r'
                 /\ Register.fvalue r' = Some f /\ Register.value r' = None)
  /\ match init core name value unit fvalue with
     | Ok r0 => exclusive (assign_all r0 l)
     | _ => True
     end.
Proof.
  split; [|split].
  - eexists. cbn. repeat split.
  - eexists. cbn. repeat split.
  - destruct (init core name value unit fvalue) as [r0| |] eqn:E; auto.
    apply assign_all_exclusive. eapply init_exclusive; eauto.
Qed.

Lemma option_eqb_spec {A} (eqb : A -> A -> bool) (a b : option A) :
  (forall x y, eqb x y = true <-> x = y) ->
  option_eqb eqb a b = true <-> a = b.
Proof.
  intro H. destruct a as [x|], b as [y|]; cbn; try (split; congruence).
  rewrite H. split; congruence.
Qed.

(** C10: two registers compare equal exactly when they agree on [core],
    [name] and [value]; [unit] and [fvalue] take no part. *)
Theorem C10_eq_core_name_value (a b : t) :
  Register.eq a b = true
  <-> core a = core b /\ Register.name a = Register.name b
      /\ Register.value a = Register.value b.
Proof.
  unfold Register.eq.
  pose proof (option_eqb_spec Z.eqb (core a) (core b) Z.eqb_eq) as H1.
  pose proof (option_eqb_spec bytes_eqb (Register.name a) (Register.name b) bytes_eqb_eq) as H2.
  pose proof (option_eqb_spec Z.eqb (Register.value a) (Register.value b) Z.eqb_eq) as H3.
  destruct (option_eqb Z.eqb (core a) (core b));
    destruct (option_eqb bytes_eqb (Register.name a) (Register.name b));
    destruct (option_eqb Z.eqb (Register.value a) (Register.value b)); cbn;
    intuition congruence.
Qed.

End RegisterUse.

Module LinkFacts.

Import PyFacts Valid Hlinknet.

Lemma tcp_connect_packlen env self port r self' :
  tcp_connect env self port = (r, self') -> _packlen self' = _packlen self /\ kind self' = kind self.
Proof.
  unfold tcp_connect. destruct (_socket self); [|destruct (reachable env)];
    intro H; injection H as <- <-; cbn; auto.
Qed.

Lemma sendto_packlen self data r self' :
  sendto self data = (r, self') ->
  _packlen self' = _packlen self /\ kind self' = kind self.
Proof.
  unfold sendto. destruct (_socket self); intro H; injection H as <- <-; cbn; auto.
Qed.

Lemma recvfrom_packlen self r self' :
  recvfrom self = (r, self') ->
  _packlen self' = _packlen self /\ kind self' = kind self.
Proof.
  unfold recvfrom. destruct (_socket self) as [sk|]; [destruct (incoming sk)|];
    intro H; injection H as <- <-; cbn; auto.
Qed.

Lemma udp_connect_packlen env self port self' :
  _socket self = None ->
  udp_connect env self port = (Ok tt, self') ->
  _packlen self' = Z.min (rcvbuf env) (_packlen self) /\ kind self' = kind self.
Proof.
  intros Hs H. unfold udp_connect in H. rewrite Hs in H.
  destruct (reachable env); cbn [negb] in H; [|discriminate].
  match type of H with
  | context [sendto ?s0 _] => set (s := s0) in *
  end.
  assert (Hp : _packlen s = Z.min (rcvbuf env) (_packlen self) /\ kind s = kind self)
    by (subst s; cbn; auto).
  clearbody s.
  destruct (if _ <? 0 then _ else _) as [magic| |]; try discriminate.
  destruct (sendto s magic) as [r1 s1] eqn:E1.
  apply sendto_packlen in E1.
  destruct r1; try discriminate.
  destruct (recvfrom s1) as [r2 s2] eqn:E2.
  apply recvfrom_packlen in E2.
  destruct r2 as [data| |]; try discriminate.
  destruct data as [|d0 data]; try discriminate.
  destruct (negb (Z_of_byte d0 =? T32_API_SYNCACKN_BACK)); try discriminate.
  destruct (negb (bytes_eqb _ _)); try discriminate.
  injection H as <-. cbn. intuition congruence.
Qed.

(** C9: a link built for "TCP" has a transport of packet length 0x4000,
    the same whatever [packlen] the caller gave; a link built for "UDP"
    has the given [packlen], capped by the receive buffer the system
    grants. *)
Theorem C9_tcp_packlen_fixed
  (env : net) (node : str) (port packlen packlen' : Z) (timeout : option float) :
  line_of (Link.init env node port packlen (B "TCP") timeout)
  = line_of (Link.init env node port packlen' (B "TCP") timeout)
  /\ is_ok (Link.init env node port packlen (B "TCP") timeout) = reachable env
  /\ match Link.init env node port packlen (B "TCP") timeout with
     | Ok l => kind (Link._line l) = TCP /\ _packlen (Link._line l) = 0x4000
     | _ => True
     end
  /\ match Link.init env node port packlen (B "UDP") timeout with
     | Ok l => kind (Link._line l) = UDP
               /\ _packlen (Link._line l) = Z.min (rcvbuf env) packlen
     | _ => True
     end.
Proof.
  split; [|split; [|split]].
  - unfold Link.init, line_of. tags. eval_eqb. cbn [negb bind].
    unfold connect. cbn [Link._line kind Hlinknet.init].
    destruct (tcp_connect env _ port) as [[[]| |] l]; reflexivity.
  - unfold Link.init. tags. eval_eqb. cbn [negb bind].
    unfold connect, tcp_connect. cbn [Link._line kind Hlinknet.init _socket].
    now destruct (reachable env).
  - unfold Link.init. tags. eval_eqb. cbn [negb bind].
    unfold connect. cbn [Link._line kind Hlinknet.init].
    destruct (tcp_connect env _ port) as [[[]| |] l] eqn:E; auto.
    apply tcp_connect_packlen in E. cbn in E. cbn. tauto.
  - unfold Link.init. tags. eval_eqb. cbn [negb bind].
    unfold connect. cbn [Link._line kind Hlinknet.init].
    destruct (udp_connect env _ port) as [[[]| |] l] eqn:E; auto.
    cbn [Link.with_line Link._line].
    apply udp_connect_packlen in E; [|reflexivity]. exact (conj (proj2 E) (proj1 E)).
Qed.
End LinkFacts.

(* ================================================================== *)
(** * The response queue and the expected message id                   *)
(* ================================================================== *)

Module ReceiveFacts.

Import PyFacts Valid Hlinknet.

Lemma receive_queued_passed (message_id : Z) (pre q : list message) :
  forallb (passed_over message_id) pre = true ->
  receive_queued (pre ++ q) message_id = receive_queued q message_id.
Proof.
  induction pre as [|m pre IH]; intro H; [reflexivity|].
  cbn [forallb] in H. apply andb_true_iff in H. destruct H as [Hm Hpre].
  cbn [app receive_queued].
  destruct m as [[|m0 r]|]; cbn in Hm; try discriminate; auto.
  destruct (Z_of_byte m0 =? T32_API_KEEPALIVE); auto.
  destruct r as [|m1 r]; cbn in Hm; try discriminate.
  cbn [nth_error]. rewrite Hm. auto.
Qed.

Lemma receive_queued_head (message_id i : Z) (msg : bytes) (rest : list message) :
  recorded_id msg = Some i ->
  receive_queued (Some msg :: rest) message_id
  = if i <? message_id then receive_queued rest message_id
    else if i =? message_id then (Some (Ok msg), rest)
    else (Some (Raise ConnectionError), rest).
Proof.
  intro H. destruct msg as [|m0 [|m1 r]]; cbn in H; try discriminate.
  cbn [receive_queued nth_error].
  destruct (Z_of_byte m0 =? T32_API_KEEPALIVE); [discriminate|].
  injection H as <-. reflexivity.
Qed.

Lemma with_response_queue_twice (self : comm) (q q' : list message) :
  with_response_queue (with_response_queue self q) q' = with_response_queue self q'.
Proof. reflexivity. Qed.

Lemma receive_loop_queue (reads : list bytes) (self : comm) (message_id : Z)
      (q : list message) :
  receive_queued (_response_queue self) message_id = receive_queued q message_id ->
  receive_loop reads self message_id
  = receive_loop reads (with_response_queue self q) message_id.
Proof.
  intro H. destruct reads as [|r reads]; cbn [receive_loop];
    cbn [_response_queue with_response_queue]; rewrite H;
    destruct (receive_queued q message_id) as [[o|] q']; reflexivity.
Qed.

(** C3: [receive] passes over the queued messages of lower recorded id,
    returns the first message whose recorded id is the expected one, and
    raises ConnectionError at the first whose recorded id is greater. *)
Theorem C3_receive_by_message_id
  (self : comm) (message_id i : Z) (pre rest : list message) (msg : bytes) :
  forallb (passed_over message_id) pre = true ->
  recorded_id msg = Some i ->
  _response_queue self = pre ++ Some msg :: rest ->
  receive self message_id
  = if i <? message_id then receive (with_response_queue self rest) message_id
    else if i =? message_id then (Ok msg, with_response_queue self rest)
    else (Raise ConnectionError, with_response_queue self rest).
Proof.
  intros Hpre Hid Hq.
  assert (E : receive_queued (_response_queue self) message_id
              = if i <? message_id then receive_queued rest message_id
                else if i =? message_id then (Some (Ok msg), rest)
                else (Some (Raise ConnectionError), rest)).
  { rewrite Hq, receive_queued_passed by exact Hpre. now apply receive_queued_head. }
  unfold receive. cbn [_socket with_response_queue].
  destruct (i <? message_id).
  - now apply receive_loop_queue.
  - destruct (match _socket self with Some sk => incoming sk | None => [] end);
      cbn [receive_loop]; rewrite E; destruct (i =? message_id); reflexivity.
Qed.

(** The queue of the scenario: responses of recorded ids 3, 3, 4, 6. *)
Definition queue_3346 : list message :=
  [response x03 [x0a]; response x03 [x0b]; response x04 [x0c]; response x06 [x0d]].

Definition comm_3346 : comm :=
  with_response_queue (with_socket (init TCP 0x4000 None) (Some (mkSocket [] [])))
                      queue_3346.

(** With ids 3, 3, 4, 6 queued and 4 expected, the first message of id 4
    is returned and the message of id 6 stays queued; it breaks the next
    call, which expects 5. *)
Example receive_3346 :
  receive comm_3346 4
  = (Ok [x00; x04; x0c], with_response_queue comm_3346 [response x06 [x0d]])
  /\ fst (receive (with_response_queue comm_3346 [response x06 [x0d]]) 5)
     = Raise ConnectionError.
Proof. split; reflexivity. Qed.

Lemma C3_receive_by_message_id_witness :
  forallb (passed_over 4) [response x03 [x0a]; response x03 [x0b]] = true
  /\ recorded_id [x00; x04; x0c] = Some 4
  /\ _response_queue comm_3346
     = [response x03 [x0a]; response x03 [x0b]]
         ++ Some [x00; x04; x0c] :: [response x06 [x0d]]
  /\ receive comm_3346 4
     = (Ok [x00; x04; x0c], with_response_queue comm_3346 [response x06 [x0d]]).
Proof.
  split; [reflexivity|]. split; [reflexivity|]. split; [reflexivity|].
  apply (C3_receive_by_message_id comm_3346 4 4
           [response x03 [x0a]; response x03 [x0b]] [response x06 [x0d]]
           [x00; x04; x0c]); reflexivity.
Defined.

End ReceiveFacts.

(* ================================================================== *)
(** * TCP: frames read in one or two parts                             *)
(* ================================================================== *)

Module TcpFacts.

Import PyFacts Valid Hlinknet.

(** The frame of the scenario: a response with a two-byte payload. *)
Definition frame_resp : bytes := tcp_frame RCL_RESP [x00; x2a].

(** C2, at the frame above: read whole, the frame is dispatched to the
    response queue; read in two parts of 4 and 12 bytes, nothing is
    dispatched, the first part is dropped and the second stays in the
    cache as the start of a frame of 0x11 payload bytes. *)
Theorem C2_split_in_header_loses_frame :
  let whole := snd (poll_times 1 (tcp_with_reads [frame_resp])) in
  let split := snd (poll_times 2 (tcp_with_reads [firstn 4 frame_resp; skipn 4 frame_resp])) in
  length frame_resp = 16%nat
  /\ _response_queue whole = [Some [x00; x2a]] /\ socket_content whole = []
  /\ _response_queue split = [] /\ _notify_queue split = []
  /\ socket_content split = skipn 4 frame_resp.
Proof. vm_compute. repeat split. Qed.

(** A first read shorter than the header is dropped, whatever the frame. *)
Lemma short_read_dropped (self : comm) (part : bytes) :
  socket_content self = [] -> (length part < HEADER_LEN)%nat ->
  tcp_poll_received self part = (Ok tt, self).
Proof.
  intros Hc Hl. unfold tcp_poll_received, tcp_extract_message. rewrite Hc.
  cbn [app with_socket_content socket_content tcp_extract_message_loop].
  apply Nat.leb_gt in Hl. rewrite Hl.
  destruct self; cbn in *. now subst.
Qed.


Lemma stuffed_length (n : nat) :
  (((n + ALIGN64 - 1) / ALIGN64) * ALIGN64)%nat
  = (n + Z.to_nat (Common.align_eight (Z.of_nat n)))%nat.
Proof.
  unfold ALIGN64, Common.align_eight, Common.align_up.
  assert (Hr : Z.of_nat n mod 8 = Z.of_nat (n mod 8)) by now rewrite Nat2Z.inj_mod.
  pose proof (Nat.div_mod_eq n 8) as Hn.
  pose proof (Nat.mod_upper_bound n 8 ltac:(lia)) as Hb.
  rewrite Hr.
  destruct (Z.of_nat (n mod 8) =? 0) eqn:E; cbn [negb].
  - apply Z.eqb_eq in E.
    rewrite <- (Nat.div_unique (n + 8 - 1) 8 (n / 8) 7) by lia. lia.
  - apply Z.eqb_neq in E.
    rewrite <- (Nat.div_unique (n + 8 - 1) 8 (n / 8 + 1) (n mod 8 - 1)) by lia. lia.
Qed.

Lemma align_eight_range (n : Z) : 0 <= Common.align_eight n < 8.
Proof.
  unfold Common.align_eight, Common.align_up.
  pose proof (Z.mod_pos_bound n 8).
  destruct (n mod 8 =? 0) eqn:E; cbn [negb]; [lia|].
  apply Z.eqb_neq in E. lia.
Qed.

Definition dispatch (message_type : Z) (self : comm) (payload : bytes) : comm :=
  if message_type =? RCL_NOTIFY
  then with_notify_queue self (_notify_queue self ++ [Some payload])
  else with_response_queue self (_response_queue self ++ [Some payload]).

Lemma length_tcp_frame (ty : Z) (payload : bytes) :
  length (tcp_frame ty payload)
  = (length payload + 8
     + Z.to_nat (Common.align_eight (Z.of_nat (length payload + 8))))%nat.
Proof.
  unfold tcp_frame. rewrite !length_app, !length_to_bytes_le, repeat_length.
  replace (Z.of_nat (length payload) + 4 + 4) with (Z.of_nat (length payload + 8)) by lia.
  lia.
Qed.

(** The loop on a cache that holds the header and the payload of a
    frame, followed by [tail]: the frame is dispatched, and what follows
    the padding is examined next. *)
Lemma extract_head (fuel : nat) (self : comm) (ty : Z) (payload tail : bytes) :
  Z.of_nat (length payload) < 2 ^ 32 ->
  ty = RCL_RESP \/ ty = RCL_NOTIFY ->
  socket_content self
  = to_bytes_le (Z.of_nat (length payload)) 4 ++ to_bytes_le ty 4 ++ payload ++ tail ->
  tcp_extract_message_loop (S fuel) self
  = tcp_extract_message_loop fuel
      (dispatch ty
         (with_socket_content self
            (skipn (Z.to_nat (Common.align_eight (Z.of_nat (length payload + 8)))) tail))
         payload).
Proof.
  intros Hl Hty Hc.
  cbn [tcp_extract_message_loop]. rewrite Hc.
  set (content := to_bytes_le (Z.of_nat (length payload)) 4 ++ to_bytes_le ty 4
                    ++ payload ++ tail).
  assert (Hlen : length content = (length payload + 8 + length tail)%nat).
  { unfold content. rewrite !length_app, !length_to_bytes_le. lia. }
  assert (H8 : (HEADER_LEN <=? length content)%nat = true).
  { apply Nat.leb_le. rewrite Hlen. unfold HEADER_LEN. lia. }
  rewrite H8.
  assert (Hsz : from_bytes_le (slice content 0 4) = Z.of_nat (length payload)).
  { unfold content, slice. cbn [Nat.sub skipn].
    rewrite firstn_app_exact by apply length_to_bytes_le.
    apply from_to_bytes_le. change (256 ^ Z.of_nat 4) with (2 ^ 32). lia. }
  rewrite Hsz, Nat2Z.id.
  assert (Hm : (length payload + HEADER_LEN <=? length content)%nat = true).
  { apply Nat.leb_le. rewrite Hlen. unfold HEADER_LEN. lia. }
  rewrite Hm.
  assert (Hty' : from_bytes_le (slice content 4 8) = ty).
  { unfold content, slice.
    rewrite skipn_app_exact by apply length_to_bytes_le.
    cbn [Nat.sub]. rewrite firstn_app_exact by apply length_to_bytes_le.
    apply from_to_bytes_le. change (256 ^ Z.of_nat 4) with (2 ^ 32).
    destruct Hty as [-> | ->]; unfold RCL_RESP, RCL_NOTIFY; lia. }
  rewrite Hty'.
  assert (Hpl : slice content HEADER_LEN (length payload + HEADER_LEN) = payload).
  { unfold content, HEADER_LEN, slice.
    rewrite (app_assoc (to_bytes_le _ 4) (to_bytes_le _ 4)).
    rewrite skipn_app_exact by (rewrite length_app, !length_to_bytes_le; reflexivity).
    rewrite Nat.add_sub. now rewrite firstn_app_exact. }
  rewrite Hpl.
  assert (Hst : slice_from content
                  (((length payload + HEADER_LEN + ALIGN64 - 1) / ALIGN64) * ALIGN64)
                = skipn (Z.to_nat (Common.align_eight (Z.of_nat (length payload + 8)))) tail).
  { unfold slice_from. rewrite stuffed_length. unfold HEADER_LEN, content.
    rewrite !app_assoc. rewrite Nat.add_comm, <- skipn_skipn.
    f_equal. apply skipn_app_exact.
    rewrite !length_app, !length_to_bytes_le. lia. }
  rewrite Hst.
  unfold dispatch. destruct Hty as [-> | ->]; reflexivity.
Qed.

(** A cache shorter than a header is emptied. *)
Lemma extract_short (fuel : nat) (self : comm) :
  (length (socket_content self) < HEADER_LEN)%nat ->
  tcp_extract_message_loop (S fuel) self = (Ok tt, with_socket_content self []).
Proof.
  intro H. cbn [tcp_extract_message_loop].
  apply Nat.leb_gt in H. now rewrite H.
Qed.

(** A whole frame read at once is dispatched, and the cache is empty
    afterwards. *)
Lemma whole_frame_dispatched (self : comm) (ty : Z) (payload : bytes) :
  Z.of_nat (length payload) < 2 ^ 32 ->
  ty = RCL_RESP \/ ty = RCL_NOTIFY ->
  socket_content self = [] ->
  tcp_poll_received self (tcp_frame ty payload)
  = (Ok tt, dispatch ty self payload).
Proof.
  intros Hl Hty Hc. unfold tcp_poll_received, tcp_extract_message.
  rewrite Hc. cbn [app socket_content with_socket_content].
  pose proof (length_tcp_frame ty payload) as Hlen.
  destruct (length (tcp_frame ty payload)) as [|n] eqn:E; [lia|].
  unfold tcp_frame.
  replace (Z.of_nat (length payload) + 4 + 4) with (Z.of_nat (length payload + 8)) by lia.
  rewrite (extract_head _ _ ty payload
             (repeat x00 (Z.to_nat (Common.align_eight (Z.of_nat (length payload + 8))))))
    by (assumption || reflexivity).
  rewrite skipn_all2 by (rewrite repeat_length; lia).
  rewrite extract_short by (unfold dispatch; destruct (ty =? RCL_NOTIFY); cbn; unfold HEADER_LEN; lia).
  unfold dispatch. destruct self; cbn in *. subst.
  destruct (ty =? RCL_NOTIFY); reflexivity.
Qed.

(** The same frame read in two parts, the first of which holds at least
    the header, is dispatched as if read whole. *)
Lemma split_after_header_dispatched (self : comm) (ty : Z) (payload : bytes) (k : nat) :
  Z.of_nat (length payload) < 2 ^ 32 ->
  ty = RCL_RESP \/ ty = RCL_NOTIFY ->
  socket_content self = [] ->
  (HEADER_LEN <= k <= length (tcp_frame ty payload))%nat ->
  exists self1,
    tcp_poll_received self (firstn k (tcp_frame ty payload)) = (Ok tt, self1)
    /\ tcp_poll_received self1 (skipn k (tcp_frame ty payload))
       = (Ok tt, dispatch ty self payload).
Proof.
  intros Hl Hty Hc Hk.
  pose proof (length_tcp_frame ty payload) as Hlen.
  pose proof (align_eight_range (Z.of_nat (length payload + 8))) as Ha.
  unfold HEADER_LEN in Hk.
  destruct (Nat.lt_ge_cases k (length payload + 8)) as [Hlt|Hge].
  - (* the split falls inside the payload: the first part waits in the cache *)
    exists (with_socket_content self (firstn k (tcp_frame ty payload))).
    assert (Hpart : firstn k (tcp_frame ty payload)
                    = to_bytes_le (Z.of_nat (length payload)) 4 ++ to_bytes_le ty 4
                        ++ firstn (k - 8) payload).
    { unfold tcp_frame.
      rewrite (app_assoc (to_bytes_le _ 4) (to_bytes_le ty 4)).
      rewrite firstn_app.
      rewrite firstn_all2 by (rewrite !length_app, !length_to_bytes_le; lia).
      rewrite !length_app, !length_to_bytes_le. cbn [Nat.add].
      rewrite firstn_app.
      replace (k - 8 - length payload)%nat with 0%nat by lia.
      cbn [firstn]. rewrite app_nil_r. now rewrite <- app_assoc. }
    split.
    + unfold tcp_poll_received, tcp_extract_message. rewrite Hc.
      cbn [app socket_content with_socket_content tcp_extract_message_loop].
      rewrite Hpart.
      set (content := to_bytes_le _ 4 ++ to_bytes_le ty 4 ++ firstn (k - 8) payload).
      assert (Hcl : length content = k).
      { unfold content. rewrite !length_app, !length_to_bytes_le, length_firstn. lia. }
      rewrite Hcl.
      replace (HEADER_LEN <=? k)%nat with true
        by (symmetry; apply Nat.leb_le; unfold HEADER_LEN; lia).
      assert (Hsz : from_bytes_le (slice content 0 4) = Z.of_nat (length payload)).
      { unfold content, slice. cbn [Nat.sub skipn].
        rewrite firstn_app_exact by apply length_to_bytes_le.
        apply from_to_bytes_le. change (256 ^ Z.of_nat 4) with (2 ^ 32). lia. }
      rewrite Hsz, Nat2Z.id.
      replace (length payload + HEADER_LEN <=? k)%nat with false
        by (symmetry; apply Nat.leb_gt; unfold HEADER_LEN; lia).
      reflexivity.
    + unfold tcp_poll_received at 1.
      cbn [socket_content with_socket_content]. rewrite firstn_skipn.
      rewrite <- (whole_frame_dispatched self ty payload Hl Hty Hc).
      unfold tcp_poll_received. rewrite Hc. cbn [app].
      unfold tcp_extract_message. cbn [socket_content with_socket_content].
      reflexivity.
  - (* the split falls inside the padding: the frame is dispatched at once *)
    exists (dispatch ty self payload).
    assert (Hpart : firstn k (tcp_frame ty payload)
                    = to_bytes_le (Z.of_nat (length payload)) 4 ++ to_bytes_le ty 4
                        ++ payload
                        ++ firstn (k - (length payload + 8))
                             (repeat x00 (Z.to_nat (Common.align_eight
                                                      (Z.of_nat (length payload) + 4 + 4))))).
    { unfold tcp_frame. rewrite !app_assoc.
      rewrite firstn_app.
      rewrite firstn_all2
        by (rewrite !length_app, !length_to_bytes_le; lia).
      rewrite !length_app, !length_to_bytes_le.
      do 2 f_equal. lia. }
    assert (Hrest : (length (skipn k (tcp_frame ty payload)) < HEADER_LEN)%nat).
    { rewrite length_skipn, Hlen. unfold HEADER_LEN. lia. }
    split.
    + unfold tcp_poll_received, tcp_extract_message. rewrite Hc.
      cbn [app socket_content with_socket_content].
      destruct (length (firstn k (tcp_frame ty payload))) as [|n] eqn:E;
        [rewrite length_firstn in E; lia|].
      rewrite Hpart.
      rewrite (extract_head _ _ ty payload
                 (firstn (k - (length payload + 8))
                    (repeat x00 (Z.to_nat (Common.align_eight
                                             (Z.of_nat (length payload) + 4 + 4))))))
        by (assumption || reflexivity).
      rewrite skipn_all2
        by (rewrite length_firstn, repeat_length;
            replace (Z.of_nat (length payload) + 4 + 4)
              with (Z.of_nat (length payload + 8)) by lia; lia).
      rewrite extract_short
        by (unfold dispatch; destruct (ty =? RCL_NOTIFY); cbn; unfold HEADER_LEN; lia).
      unfold dispatch. destruct self; cbn in *. subst.
      destruct (ty =? RCL_NOTIFY); reflexivity.
    + unfold tcp_poll_received, tcp_extract_message.
      assert (Hd : socket_content (dispatch ty self payload) = []).
      { unfold dispatch. destruct (ty =? RCL_NOTIFY); cbn; exact Hc. }
      rewrite Hd. cbn [app socket_content with_socket_content].
      rewrite extract_short by (cbn [socket_content with_socket_content]; exact Hrest).
      unfold dispatch. destruct self; cbn in *. subst.
      destruct (ty =? RCL_NOTIFY); reflexivity.
Qed.

End TcpFacts.

(* ================================================================== *)
(** * The request envelope                                          *)
(* ================================================================== *)

Module LibraryFacts.

Import PyFacts Valid Library.

Lemma transmit_calls_transmit (l : Link.t) (data : bytes) :
  Link.transmit_calls (snd (Link.transmit l data)) = Link.transmit_calls l ++ [data].
Proof.
  unfold Link.transmit. cbn [Link._line].
  destruct (Hlinknet.transmit (Link._line l) data). reflexivity.
Qed.

Lemma transmit_calls_receive (l : Link.t) :
  Link.transmit_calls (snd (Link.receive l)) = Link.transmit_calls l.
Proof.
  unfold Link.receive.
  destruct (Hlinknet.receive (Link._line l) (Link.get_message_id l)) as [[m|e|w] c];
    try reflexivity.
  destruct e; reflexivity.
Qed.

(** A call whose message can be built hands exactly that message to the
    transport, once, whatever happens afterwards. *)
Lemma generic_api_call_transmits (self : t) (rapi_cmd opt_arg : Z) (sendonly : bool)
      (payload : bytes) (force_length : option Z) (force_16bit_length : bool)
      (data : bytes) :
  send_data rapi_cmd opt_arg payload force_length force_16bit_length
            ((Link._message_id (_link self) + 1) mod 255) = Ok data ->
  Link.transmit_calls
    (_link (snd (generic_api_call self rapi_cmd opt_arg sendonly payload
                                  force_length force_16bit_length)))
  = Link.transmit_calls (_link self) ++ [data].
Proof.
  intro Hd. unfold generic_api_call.
  destruct (_ && _) eqn:Eguard.
  - exfalso. unfold send_data in Hd.
    apply andb_true_iff in Eguard. destruct Eguard as [E1 E2].
    rewrite E1, E2 in Hd. discriminate.
  - cbn [Link.increment_message_id Link._message_id _link _maxpacketsize].
    rewrite Hd.
    match goal with |- context [Link.transmit ?l data] =>
      pose proof (transmit_calls_transmit l data) as Ht;
      destruct (Link.transmit l data) as [r1 l1] end.
    cbn [snd Link.transmit_calls] in Ht.
    destruct r1; cbn [snd _link]; try exact Ht.
    destruct sendonly; cbn [snd _link]; try exact Ht.
    pose proof (transmit_calls_receive l1) as Hr.
    destruct (Link.receive l1) as [r2 l2]. cbn [snd] in Hr.
    destruct r2 as [recv| |]; cbn [snd _link]; try congruence.
    destruct recv as [|r0 recv]; cbn [snd _link]; try congruence.
    destruct (negb _); cbn [snd _link]; congruence.
Qed.

Lemma message_id_byte (n : Z) : 0 <= n mod 255 <= 0xFF.
Proof. pose proof (Z.mod_pos_bound n 255). lia. Qed.

(** The compact form: chosen when the length fits in one byte. *)
Lemma send_data_compact (rapi_cmd opt_arg message_id : Z) (payload : bytes) :
  0 <= rapi_cmd <= 0xFF -> 0 <= opt_arg <= 0xFF -> 0 <= message_id <= 0xFF ->
  2 + Z.of_nat (length payload) <= 0xFF ->
  send_data rapi_cmd opt_arg payload None false message_id
  = Ok ([byte_of_Z (2 + Z.of_nat (length payload)); byte_of_Z rapi_cmd;
         byte_of_Z opt_arg; byte_of_Z message_id]
          ++ payload ++ repeat x00 (length payload mod 2)).
Proof.
  intros Hc Ho Hm Hl. unfold send_data.
  replace (2 + Z.of_nat (length payload) >? 0xFF) with false
    by (symmetry; rewrite Z.gtb_ltb; apply Z.ltb_ge; lia).
  cbn [orb]. rewrite !pack_B_ok by lia. cbn [bind].
  rewrite pack_s_exact by reflexivity. reflexivity.
Qed.

(** The extended form: a leading zero byte and a 16-bit length, chosen
    when the length does not fit in one byte. *)
Lemma send_data_extended (rapi_cmd opt_arg message_id : Z) (payload : bytes) :
  0 <= rapi_cmd <= 0xFF -> 0 <= opt_arg <= 0xFF -> 0 <= message_id <= 0xFF ->
  0xFF < 2 + Z.of_nat (length payload) -> 2 + Z.of_nat (length payload) + 2 <= 0xF000 ->
  send_data rapi_cmd opt_arg payload None false message_id
  = Ok ([x00; byte_of_Z rapi_cmd; byte_of_Z opt_arg; byte_of_Z message_id]
          ++ to_bytes_le (2 + Z.of_nat (length payload) + 2) 2
          ++ payload ++ repeat x00 (length payload mod 2)).
Proof.
  intros Hc Ho Hm Hl Hu. unfold send_data.
  replace (2 + Z.of_nat (length payload) >? 0xFF) with true
    by (symmetry; rewrite Z.gtb_ltb; apply Z.ltb_lt; lia).
  cbn [orb].
  replace (2 + Z.of_nat (length payload) + 2 >? 0xF000) with false
    by (symmetry; rewrite Z.gtb_ltb; apply Z.ltb_ge; lia).
  rewrite !pack_B_ok by lia. rewrite pack_H_ok by lia. cbn [bind].
  rewrite pack_s_exact by reflexivity. reflexivity.
Qed.

(** C6: a call with command 0x74, subcommand 0 and a payload of ten bytes
    hands to the transport the compact envelope: the length byte 12, the
    command, the subcommand, the message id it has just taken, and the
    payload.  The compact form is the one built whenever the length fits
    in one byte, the extended form otherwise (up to the 0xF000 limit). *)
Theorem C6_envelope
  (self : t) (sendonly : bool) (payload : bytes)
  (rapi_cmd opt_arg message_id : Z) (other : bytes) :
  length payload = 10%nat ->
  0 <= rapi_cmd <= 0xFF -> 0 <= opt_arg <= 0xFF -> 0 <= message_id <= 0xFF ->
  Link.transmit_calls
    (_link (snd (generic_api_call self 0x74 0 sendonly payload None false)))
  = Link.transmit_calls (_link self)
      ++ [[x0c; x74; x00; byte_of_Z ((Link._message_id (_link self) + 1) mod 255)]
            ++ payload]
  /\ (2 + Z.of_nat (length other) <= 0xFF ->
      send_data rapi_cmd opt_arg other None false message_id
      = Ok ([byte_of_Z (2 + Z.of_nat (length other)); byte_of_Z rapi_cmd;
             byte_of_Z opt_arg; byte_of_Z message_id]
              ++ other ++ repeat x00 (length other mod 2)))
  /\ (0xFF < 2 + Z.of_nat (length other) -> 2 + Z.of_nat (length other) + 2 <= 0xF000 ->
      send_data rapi_cmd opt_arg other None false message_id
      = Ok ([x00; byte_of_Z rapi_cmd; byte_of_Z opt_arg; byte_of_Z message_id]
              ++ to_bytes_le (2 + Z.of_nat (length other) + 2) 2
              ++ other ++ repeat x00 (length other mod 2))).
Proof.
  intros Hlen Hc Ho Hm. split; [|split].
  - apply generic_api_call_transmits.
    rewrite send_data_compact; try lia; [|apply message_id_byte].
    rewrite Hlen. cbn [Nat.modulo Nat.divmod fst snd Nat.sub repeat].
    rewrite app_nil_r. reflexivity.
  - intro Hf. now apply send_data_compact.
  - intros Hf Hu. now apply send_data_extended.
Qed.

(** The theorem at a link that has sent nothing yet, whose first message
    id is 1. *)
Lemma C6_envelope_witness :
  length ten_bytes = 10%nat
  /\ Link.transmit_calls
       (_link (snd (generic_api_call idle_library 0x74 0 true ten_bytes None false)))
     = [[x0c; x74; x00; x01] ++ ten_bytes].
Proof.
  split; [reflexivity|].
  destruct (C6_envelope idle_library true ten_bytes 0x74 0 1 []) as [H _];
    [reflexivity|lia|lia|lia|exact H].
Defined.

End LibraryFacts.

(* ================================================================== *)
(** * Memory-access bundles                                         *)
(* ================================================================== *)

Module MemoryBundleFacts.

Import PyFacts Valid MemoryBundle.

(** The serialized form before the size is checked: the count header,
    the accesses, the end marker. *)
Definition serialized_form (self : t) : outcome bytes :=
  data <- pack_HH 0 (Z.of_nat (length self)) ;;
  data <- serialize_accesses data self ;;
  Ok (data ++ B "XX").

(** A serialized form longer than the maximum, and short enough for its
    16-bit length field, is refused. *)
Lemma serialize_too_large (self : t) (form : bytes) :
  serialized_form self = Ok form ->
  _EMU_CBMAXDATASIZE < Z.of_nat (length form) <= 0xFFFF ->
  serialize self = Raise NotImplementedError.
Proof.
  intros Hf Hl. unfold serialized_form in Hf. unfold serialize.
  destruct (pack_HH 0 (Z.of_nat (length self))) as [d0| |]; try discriminate.
  cbn [bind] in *.
  destruct (serialize_accesses d0 self) as [d1| |]; try discriminate.
  cbn [bind] in *. injection Hf as <-.
  rewrite pack_H_ok by lia. cbn [bind].
  assert (Hlen : length (to_bytes_le (Z.of_nat (length (d1 ++ B "XX"))) 2
                           ++ slice_from (d1 ++ B "XX") 2)
                 = length (d1 ++ B "XX")).
  { rewrite length_app, length_to_bytes_le. unfold slice_from.
    rewrite length_skipn. unfold _EMU_CBMAXDATASIZE in Hl. lia. }
  rewrite Hlen.
  replace (Z.of_nat (length (d1 ++ B "XX")) >? _EMU_CBMAXDATASIZE) with true
    by (symmetry; rewrite Z.gtb_ltb; apply Z.ltb_lt; lia).
  reflexivity.
Qed.

(** A serialized form too long for the 16-bit length field fails when
    the length is written, before the size is checked. *)
Lemma serialize_beyond_length_field (self : t) (form : bytes) :
  serialized_form self = Ok form ->
  0xFFFF < Z.of_nat (length form) ->
  serialize self = Raise StructError.
Proof.
  intros Hf Hl. unfold serialized_form in Hf. unfold serialize.
  destruct (pack_HH 0 (Z.of_nat (length self))) as [d0| |]; try discriminate.
  cbn [bind] in *.
  destruct (serialize_accesses d0 self) as [d1| |]; try discriminate.
  cbn [bind] in *. injection Hf as <-.
  unfold pack_H, pack_uint.
  replace (Z.of_nat (length (d1 ++ B "XX")) <? 256 ^ Z.of_nat 2) with false
    by (symmetry; apply Z.ltb_ge; change (256 ^ Z.of_nat 2) with 65536; lia).
  rewrite andb_false_r. reflexivity.
Qed.

(** A bundle that cannot be serialized is not transmitted. *)
Lemma transfer_not_serialized (lib : Library.t) (bundle : t) (e : exn) :
  serialize bundle = Raise e ->
  Library.t32_transfermemorybundleobj lib bundle = (Raise e, lib).
Proof. intro H. unfold Library.t32_transfermemorybundleobj. now rewrite H. Qed.

(** A write of an even number of bytes, at an address without access
    code: two 16-bit fields, the sixteen bytes of the address, the data. *)
Lemma write_serialize (v : Z) (data : bytes) (w : option Z) :
  0 <= v < 2 ^ 64 -> Z.of_nat (length data) <= 0xFFFF ->
  Z.of_nat (length data) mod 2 = 0 ->
  exists s,
    access_serialize (MemoryWriteAccess (Address.mk None (Some v)) data w) = Ok s
    /\ length s = (20 + length data)%nat.
Proof.
  intros Hv Hl He. unfold access_serialize, pack_HH.
  rewrite !pack_H_ok by (unfold WRITE; lia). cbn [bind].
  unfold Address.serialize. cbn [Address.value Address.access].
  change (Common.int2bytearray Address.T32_ADDRTYPE_A64 2) with (@Ok bytes [x03; x00]).
  change (Address.T32_ADDRTYPE_A64 =? Address.T32_ADDRTYPE_A32) with false.
  change (Address.T32_ADDRTYPE_A64 =? Address.T32_ADDRTYPE_A64) with true.
  cbn [bind]. rewrite Z.add_0_r.
  rewrite int2bytearray_ok by (change (256 ^ Z.of_nat 8) with (2 ^ 64); lia).
  cbn [bind]. rewrite pack_H_ok by lia. cbn [bind].
  rewrite He. change (0 =? 0) with true. cbv iota.
  eexists. split; [reflexivity|]. lens.
Qed.

(** C4, at a bundle of three writes of 30000 bytes: the serialized form
    has 90066 bytes, more than the maximum of 0x3C00 and more than the
    0xFFFF that its length field can hold; serialization raises
    struct.error, not the error of the size check, and nothing is
    transmitted. *)
Theorem C4_oversized_bundle_struct_error :
  (exists form, serialized_form three_writes = Ok form
                /\ Z.of_nat (length form) = 90066)
  /\ serialize three_writes = Raise StructError
  /\ Library.t32_transfermemorybundleobj idle_library three_writes
     = (Raise StructError, idle_library).
Proof.
  assert (Hlen : Z.of_nat (length (repeat x00 (Z.to_nat 30000))) = 30000)
    by (rewrite repeat_length; lia).
  destruct (write_serialize 0x1000 (repeat x00 (Z.to_nat 30000)) None) as (s & Hs & Hsl);
    [lia|lia|now rewrite Hlen|].
  assert (Hform : exists form, serialized_form three_writes = Ok form
                               /\ Z.of_nat (length form) = 90066).
  { unfold serialized_form, three_writes, big_write, pack_HH.
    rewrite !pack_H_ok by (cbn [length]; lia). cbn [bind serialize_accesses].
    rewrite Hs. cbn [bind]. eexists. split; [reflexivity|].
    rewrite !length_app, !length_to_bytes_le, Hsl.
    change (length (B "XX")) with 2%nat. lia. }
  destruct Hform as (form & Hf & Hfl).
  assert (H : serialize three_writes = Raise StructError)
    by (apply (serialize_beyond_length_field three_writes form Hf); lia).
  split; [|split].
  - exists form. split; assumption.
  - exact H.
  - apply transfer_not_serialized. exact H.
Qed.

End MemoryBundleFacts.

(* ================================================================== *)
(** * Direct-access bundles                                         *)
(* ================================================================== *)

Module DirectAccessFacts.

Import PyFacts Valid DirectAccess.

Lemma body_flag (p : bytes) (f : byte) (al : list access) :
  body_of (mkRequest al (p ++ [f])) = p /\ flag_of (mkRequest al (p ++ [f])) = f.
Proof.
  unfold body_of, flag_of. cbn [payload].
  split; [apply removelast_last | apply last_last].
Qed.

(** The requests closed during the loop, and the one left open. *)
Lemma loop_spec (accesses : list access) :
  forall (ss : list bytes) (req : request),
    serialize_all accesses = Ok ss -> Forall fits ss -> fits (payload req) ->
    exists ys req',
      _get_requests_loop accesses req = (ys, Ok req')
      /\ Forall (fun r => flag_of r = T32_DIRECTACCESS_HOLD /\ fits (body_of r)
                          /\ payload r = body_of r ++ [flag_of r]) ys
      /\ fits (payload req')
      /\ concat (map body_of ys) ++ payload req' = payload req ++ concat ss
      /\ concat (map access_list ys) ++ access_list req' = access_list req ++ accesses.
Proof.
  induction accesses as [|a rest IH]; intros ss req Hs Hfit Hreq.
  - cbn in Hs. injection Hs as <-. exists [], req. cbn.
    rewrite !app_nil_r. repeat split; auto.
  - cbn [serialize_all] in Hs.
    destruct (_serialize a) as [s| |] eqn:Ea; try discriminate. cbn [bind] in Hs.
    destruct (serialize_all rest) as [ss'| |] eqn:Er; try discriminate.
    cbn [bind] in Hs. injection Hs as <-.
    inversion Hfit as [|? ? Hsfit Hfit']; subst.
    cbn [_get_requests_loop]. rewrite Ea.
    unfold fits in Hsfit, Hreq.
    replace (Z.of_nat (length s) >? _EMU_CBMAXDATASIZE - 1) with false
      by (symmetry; rewrite Z.gtb_ltb; apply Z.ltb_ge; lia).
    destruct (Z.of_nat (length (payload req)) + Z.of_nat (length s)
              >? _EMU_CBMAXDATASIZE - 1) eqn:Eover.
    + (* the current request is closed with the hold flag *)
      destruct (IH ss' (add_access new_request a s) eq_refl Hfit')
        as (ys & req' & Hl & Hys & Hr' & Hc & Ha).
      { unfold fits. cbn [add_access new_request payload app]. lia. }
      rewrite Hl.
      exists (mkRequest (access_list req) (payload req ++ [T32_DIRECTACCESS_HOLD]) :: ys), req'.
      destruct (body_flag (payload req) T32_DIRECTACCESS_HOLD (access_list req)) as [Hb Hf].
      split; [reflexivity|]. split; [|split; [exact Hr'|split]].
      * constructor; [|exact Hys]. rewrite Hb, Hf. repeat split. exact Hreq.
      * cbn [map concat]. rewrite Hb, <- app_assoc, Hc. reflexivity.
      * cbn [map concat access_list]. rewrite <- app_assoc, Ha. reflexivity.
    + (* the access joins the current request *)
      destruct (IH ss' (add_access req a s) eq_refl Hfit')
        as (ys & req' & Hl & Hys & Hr' & Hc & Ha).
      { unfold fits. cbn [add_access payload]. rewrite length_app.
        rewrite Z.gtb_ltb in Eover. apply Z.ltb_ge in Eover. lia. }
      exists ys, req'. split; [exact Hl|]. split; [exact Hys|].
      split; [exact Hr'|]. split.
      * rewrite Hc. cbn [add_access payload concat]. now rewrite <- app_assoc.
      * rewrite Ha. cbn [add_access access_list]. now rewrite <- app_assoc.
Qed.

Lemma bodies_length (reqs : list request) :
  Forall (fun r => fits (body_of r)) reqs ->
  Z.of_nat (length (concat (map body_of reqs)))
  <= Z.of_nat (length reqs) * (_EMU_CBMAXDATASIZE - 1).
Proof.
  induction 1 as [|r reqs Hr _ IH]; cbn [map concat length]; [lia|].
  rewrite length_app. unfold fits in Hr. lia.
Qed.

Lemma ceil_div_bound (total n : Z) :
  1 <= n -> total <= n * (_EMU_CBMAXDATASIZE - 1) ->
  ceil_div total _EMU_CBMAXDATASIZE <= n.
Proof.
  intros Hn Ht. unfold ceil_div, _EMU_CBMAXDATASIZE in *.
  apply Z.lt_succ_r. apply Z.div_lt_upper_bound; lia.
Qed.

(** C5, as the code has it: when every access fits in a request, the
    generator ends normally; each request is at most the maximum long;
    every request but the last ends with the hold flag 0x01, the last with
    0x00 when [release_debug_port] is true and 0x01 otherwise; the bodies of
    the requests, in order, are the serialized accesses; and there are at
    least ⌈total/limit⌉ requests (the accesses are packed in order, so
    there can be more). *)
Theorem C5_requests_split
  (accesses : list access) (release_debug_port : bool) (ss : list bytes) :
  serialize_all accesses = Ok ss -> Forall fits ss ->
  exists reqs,
    _get_requests accesses release_debug_port = (reqs, Ok tt)
    /\ Forall (fun r => Z.of_nat (length (payload r)) <= _EMU_CBMAXDATASIZE) reqs
    /\ map flag_of reqs
       = repeat T32_DIRECTACCESS_HOLD (length reqs - 1)
           ++ [if release_debug_port then T32_DIRECTACCESS_RELEASE
               else T32_DIRECTACCESS_HOLD]
    /\ concat (map body_of reqs) = concat ss
    /\ concat (map access_list reqs) = accesses
    /\ ceil_div (total_size ss) _EMU_CBMAXDATASIZE <= Z.of_nat (length reqs).
Proof.
  intros Hs Hfit.
  destruct (loop_spec accesses ss new_request Hs Hfit) as (ys & req' & Hl & Hys & Hr' & Hc & Ha).
  { unfold fits, _EMU_CBMAXDATASIZE. cbn [new_request payload length]. lia. }
  set (flag := if release_debug_port then T32_DIRECTACCESS_RELEASE else T32_DIRECTACCESS_HOLD).
  set (final := mkRequest (access_list req') (payload req' ++ [flag])).
  assert (Hget : _get_requests accesses release_debug_port = (ys ++ [final], Ok tt)).
  { unfold _get_requests. rewrite Hl. unfold final, flag.
    now destruct release_debug_port. }
  destruct (body_flag (payload req') flag (access_list req')) as [Hb Hf].
  fold final in Hb, Hf.
  assert (Hbodies : concat (map body_of (ys ++ [final])) = concat ss).
  { rewrite map_app, concat_app. cbn [map concat]. rewrite Hb, app_nil_r.
    rewrite Hc. reflexivity. }
  exists (ys ++ [final]). split; [exact Hget|]. split; [|split; [|split; [|split]]].
  - apply Forall_app. split.
    + eapply Forall_impl; [|exact Hys]. intros r (Hfl & Hbf & Hp).
      rewrite Hp, length_app. unfold fits in Hbf. cbn [length]. lia.
    + constructor; [|constructor]. unfold final. cbn [payload].
      rewrite length_app. unfold fits in Hr'. cbn [length]. lia.
  - rewrite map_app. cbn [map]. rewrite Hf. f_equal.
    rewrite length_app. cbn [length]. rewrite Nat.add_sub.
    clear - Hys. induction Hys as [|r ys (Hfl & _) _ IH]; cbn [map length repeat];
      [reflexivity|]. now rewrite Hfl, IH.
  - exact Hbodies.
  - rewrite map_app, concat_app. cbn [map concat access_list]. rewrite app_nil_r.
    exact Ha.
  - unfold total_size. rewrite <- Hbodies.
    apply ceil_div_bound; [rewrite length_app; cbn [length]; lia|].
    apply bodies_length. apply Forall_app. split.
    + eapply Forall_impl; [|exact Hys]. intros r (_ & Hbf & _). exact Hbf.
    + constructor; [|constructor]. now rewrite Hb.
Qed.


(** The theorem at a bundle of two small accesses. *)
Lemma C5_requests_split_witness :
  exists ss,
    serialize_all two_infos = Ok ss /\ Forall fits ss
    /\ exists reqs,
         _get_requests two_infos true = (reqs, Ok tt)
         /\ concat (map access_list reqs) = two_infos.
Proof.
  pose (ss := match serialize_all two_infos with Ok ss => ss | _ => [] end).
  assert (Hs : serialize_all two_infos = Ok ss) by (vm_compute; reflexivity).
  assert (Hf : Forall fits ss) by (repeat constructor; vm_compute; discriminate).
  exists ss. split; [exact Hs|]. split; [exact Hf|].
  destruct (C5_requests_split two_infos true ss Hs Hf) as (reqs & H1 & _ & _ & _ & H5 & _).
  exists reqs. split; [exact H1|exact H5].
Defined.

(** A raw shift with TMS data only, long enough for the long header: six
    bytes of header, eight of fixed payload, the data. *)
Lemma shift_serialize (num_bits : Z) (d0 : byte) (data : bytes) (o : ShiftRawOptions) :
  0 <= num_bits < 2 ^ 32 -> 24 <= Z.of_nat (length data) < 2 ^ 28 ->
  lasttms_one o = false -> tms_one o = false -> tdi_lasttdo o = false -> tdi_one o = false ->
  exists s,
    _serialize (ShiftRaw num_bits (Some (d0 :: data)) None false o) = Ok s
    /\ length s = (15 + length data)%nat.
Proof.
  intros Hn Hd H1 H2 H3 H4. unfold _serialize, _serialize_payload.
  cbn [truthy]. rewrite H1, H2, H3, H4. cbv iota.
  change (to_bytes_unsigned (Z.lor 0 1) 2) with (@Ok bytes [x01; x00]).
  cbn [bind]. unfold to_bytes_unsigned.
  replace ((0 <=? num_bits) && (num_bits <? 256 ^ Z.of_nat 4)) with true
    by (symmetry; apply andb_true_iff; split;
        [apply Z.leb_le|apply Z.ltb_lt; change (256 ^ Z.of_nat 4) with (2 ^ 32)]; lia).
  cbn [bind].
  match goal with
  | |- context [_serialize_header _ (Z.of_nat (length ?p) * 8)] => set (payload := p)
  end.
  assert (Hpl : Z.of_nat (length payload) = 9 + Z.of_nat (length data)).
  { unfold payload. rewrite !length_app, length_to_bytes_le. cbn [length]. lia. }
  unfold _serialize_header. rewrite Hpl.
  replace ((9 + Z.of_nat (length data)) * 8 <? 15) with false
    by (symmetry; apply Z.ltb_ge; lia).
  replace ((9 + Z.of_nat (length data)) * 8 <? 255) with false
    by (symmetry; apply Z.ltb_ge; lia).
  change (pack_B (Z.lor (Z.shiftl (Z.lor SHIFTRAW 2) 4) 15)) with (@Ok bytes [xef]).
  change (pack_B 255) with (@Ok bytes [xff]).
  rewrite pack_I_ok by lia. cbn [bind].
  eexists. split; [reflexivity|].
  rewrite !length_app, length_to_bytes_le. cbn [length]. lia.
Qed.

Ltac eval_gtb :=
  repeat match goal with
         | |- context [?a >? ?b] =>
             let v := eval vm_compute in (a >? b) in
             match v with true => idtac | false => idtac end;
             change (a >? b) with v
         end;
  cbv beta iota.

(** C5 as stated fails on three raw shifts of 0x2000 bytes each:
    each fits in a request, the total of 0x6000 bytes exceeds the maximum,
    ⌈0x6000 / 0x3C00⌉ is 2, and three requests are generated, because two
    shifts do not fit together. *)
Lemma C5_counterexample :
  exists ss,
    serialize_all three_shifts = Ok ss
    /\ Forall fits ss
    /\ _EMU_CBMAXDATASIZE < total_size ss
    /\ ceil_div (total_size ss) _EMU_CBMAXDATASIZE = 2
    /\ length (fst (_get_requests three_shifts true)) = 3%nat.
Proof.
  assert (Hd : exists d0 data, repeat x00 (Z.to_nat 8178) = d0 :: data
                               /\ Z.of_nat (length data) = 8177).
  { exists x00, (repeat x00 (Z.to_nat 8177)). split.
    - change 8178 with (Z.succ 8177). rewrite Z2Nat.inj_succ by lia. reflexivity.
    - rewrite repeat_length. lia. }
  destruct Hd as (d0 & data & Hrep & Hdl).
  destruct (shift_serialize 65424 d0 data (mkOptions false false false false))
    as (s & Hs & Hsl); try reflexivity; try lia.
  assert (Hlen : Z.of_nat (length s) = 8192) by lia.
  assert (Hser : _serialize shift_0x2000 = Ok s).
  { unfold shift_0x2000. rewrite Hrep. exact Hs. }
  exists [s; s; s].
  split; [|split; [|split; [|split]]].
  - unfold three_shifts. cbn [serialize_all]. rewrite Hser. reflexivity.
  - repeat constructor; unfold fits, _EMU_CBMAXDATASIZE; lia.
  - unfold total_size, _EMU_CBMAXDATASIZE. cbn [concat].
    rewrite !length_app. cbn [length]. lia.
  - unfold total_size. cbn [concat]. rewrite !length_app. cbn [length].
    replace (Z.of_nat (length s + (length s + (length s + 0)))) with 24576 by lia.
    reflexivity.
  - unfold _get_requests, three_shifts. cbn [_get_requests_loop]. rewrite Hser.
    cbn [add_access new_request payload access_list app length].
    rewrite ?length_app, ?Nat2Z.inj_add, !Hlen.
    change (Z.of_nat 0) with 0. eval_gtb.
    cbn [add_access new_request payload access_list app length].
    rewrite ?length_app, ?Nat2Z.inj_add, ?Hlen. eval_gtb.
    reflexivity.
Qed.

End DirectAccessFacts.

(* ================================================================== *)
(** * The UDP sync exchange                                         *)
(* ================================================================== *)

Module SyncFacts.

Import PyFacts Valid Hlinknet.

(** At the first attempt a sync-back-request restarts the exchange with
    the whole budget: [maxTries - attempt] is [maxTries]. *)
Lemma first_attempt_keeps_budget
      (retry : comm -> Z -> outcome bool * comm) (maxTries : Z) (n : nat)
      (self : comm) (sk : socket) (rest : list bytes) :
  _socket self = Some sk -> incoming sk = syncback_request :: rest ->
  sync_attempts retry maxTries (S n) 0 self
  = retry (with_socket self (Some (mkSocket (sent sk) rest))) maxTries.
Proof.
  intros Hs Hi. cbn [sync_attempts]. unfold recvfrom. rewrite Hs, Hi.
  unfold syncback_request. cbn [repeat length Nat.eqb].
  change (Z_of_byte x05 =? T32_API_SYNCBACKREQ) with true. cbn [andb].
  now rewrite Z.sub_0_r.
Qed.

(** Against a peer that answers every sync-request with a
    sync-back-request, [n] times, the exchange sends [n + 1] sync-requests
    and reads [n] answers before the socket times out, whatever
    [maxTries] is. *)
Lemma sync_follows_peer (n : nat) :
  forall (depth : nat) (self : comm) (sk : socket) (maxTries : Z),
    (n < depth)%nat -> 1 <= maxTries ->
    0 <= _transmit_block_id self <= 0xFFFF ->
    _socket self = Some sk -> incoming sk = repeat syncback_request n ->
    exists self',
      udp_sync depth self maxTries = (Raise ApiConnectionSyncError, self')
      /\ sent_count self' = (sent_count self + n + 1)%nat
      /\ pending_count self' = 0%nat.
Proof.
  induction n as [|n IH]; intros depth self sk maxTries Hd Hm Hb Hs Hi;
    (destruct depth as [|depth]; [lia|]);
    cbn [udp_sync]; unfold sync_datagram;
    rewrite !pack_B_ok by (unfold T32_API_SYNCREQUEST; lia);
    rewrite pack_H_ok by lia; rewrite pack_I_ok by lia; cbn [bind];
    unfold sendto; rewrite Hs, Hi;
    (destruct (Z.to_nat maxTries) as [|k] eqn:Ek; [lia|]).
  - cbn [sync_attempts]. unfold recvfrom.
    cbn [_socket with_socket incoming repeat sync_wrap].
    eexists. split; [reflexivity|].
    unfold sent_count, pending_count. cbn [_socket with_socket sent incoming].
    rewrite Hs, length_app. cbn [length repeat]. lia.
  - erewrite first_attempt_keeps_budget;
      [|cbn [_socket with_socket]; reflexivity
       |cbn [incoming repeat]; reflexivity].
    cbn [sent].
    match goal with
    | |- context [udp_sync depth ?s maxTries] =>
        destruct (IH depth s _ maxTries ltac:(lia) Hm Hb eq_refl eq_refl)
          as (self' & Hr & Hsent & Hpend)
    end.
    rewrite Hr. cbn [sync_wrap].
    exists self'. split; [reflexivity|]. split; [|exact Hpend].
    rewrite Hsent. unfold sent_count. cbn [_socket with_socket sent].
    rewrite Hs, length_app. cbn [length]. lia.
Qed.

(** C8, against a peer that answers every sync-request with a
    sync-back-request: with [maxTries = 1], the exchange makes as many
    attempts as the peer sends answers, here for any number [n] of them;
    every recursive call is made with the whole budget. *)
Theorem C8_sync_attempts_not_bounded_by_budget (n depth : nat) :
  (n < depth)%nat ->
  exists self',
    udp_sync depth (udp_with_reads (repeat syncback_request n)) 1
    = (Raise ApiConnectionSyncError, self')
    /\ sent_count self' = (n + 1)%nat
    /\ pending_count self' = 0%nat.
Proof.
  intro Hd.
  destruct (sync_follows_peer n depth (udp_with_reads (repeat syncback_request n))
              (mkSocket [] (repeat syncback_request n)) 1 Hd)
    as (self' & Hr & Hs & Hp); try reflexivity; try (cbn; lia).
  exists self'. repeat split; auto.
Qed.

(** With the budget 1 and a peer that sends five sync-back-requests, six
    sync-requests are sent. *)
Lemma C8_sync_attempts_not_bounded_by_budget_witness :
  (5 < 10)%nat
  /\ exists self',
       udp_sync 10 (udp_with_reads (repeat syncback_request 5)) 1
       = (Raise ApiConnectionSyncError, self')
       /\ sent_count self' = 6%nat
       /\ pending_count self' = 0%nat.
Proof.
  split; [lia|]. apply (C8_sync_attempts_not_bounded_by_budget 5 10). lia.
Defined.

(** When the peer never stops, the exchange ends only when the
    interpreter refuses another nested call. *)
Lemma sync_recursion_limit (depth : nat) :
  forall (self : comm) (sk : socket) (maxTries : Z) (n : nat),
    (depth <= n)%nat -> 1 <= maxTries ->
    0 <= _transmit_block_id self <= 0xFFFF ->
    _socket self = Some sk -> incoming sk = repeat syncback_request n ->
    exists self',
      udp_sync depth self maxTries
      = (Raise (match depth with O => RecursionError | _ => ApiConnectionSyncError end),
         self')
      /\ sent_count self' = (sent_count self + depth)%nat.
Proof.
  induction depth as [|depth IH]; intros self sk maxTries n Hd Hm Hb Hs Hi.
  - exists self. cbn. split; [reflexivity|lia].
  - destruct n as [|n]; [lia|].
    cbn [udp_sync]. unfold sync_datagram.
    rewrite !pack_B_ok by (unfold T32_API_SYNCREQUEST; lia).
    rewrite pack_H_ok by lia. rewrite pack_I_ok by lia. cbn [bind].
    unfold sendto. rewrite Hs, Hi.
    destruct (Z.to_nat maxTries) as [|k] eqn:Ek; [lia|].
    erewrite first_attempt_keeps_budget;
      [|cbn [_socket with_socket]; reflexivity
       |cbn [incoming repeat]; reflexivity].
    cbn [sent].
    match goal with
    | |- context [udp_sync depth ?s maxTries] =>
        destruct (IH s _ maxTries n ltac:(lia) Hm Hb eq_refl eq_refl)
          as (self' & Hr & Hsent)
    end.
    rewrite Hr. exists self'. split.
    + destruct depth; reflexivity.
    + rewrite Hsent. unfold sent_count. cbn [_socket with_socket sent].
      rewrite Hs, length_app. cbn [length]. lia.
Qed.

End SyncFacts.

(* ================================================================== *)
(** * The round trip of the four classes                            *)
(* ================================================================== *)

Module RoundTrip.

Import PyFacts Valid.

(** C1, for the objects within the range of the wire format: the bytes
    that [serialize] produces are read back by [deserialize] as an object
    that carries every field that was set. *)
Theorem C1_roundtrip_within_wire_range :
  (forall (x : Address.t) (w : option Z),
      address_ok x = true -> width_ok w = true ->
      exists n buf,
        Address.serialize x 0 w = Ok (n, buf)
        /\ Address.deserialize buf = Ok (n, x))
  /\ (forall self x : Breakpoint.t,
         breakpoint_ok x = true ->
         exists n buf y,
           Breakpoint.serialize x = Ok (n, buf)
           /\ Breakpoint.deserialize self buf = Ok y
           /\ agrees (Breakpoint.action x) (Breakpoint.action y)
           /\ Breakpoint.address y = Breakpoint.address x
           /\ agrees (Breakpoint.core x) (Breakpoint.core y)
           /\ Breakpoint.enabled y = Breakpoint.enabled x
           /\ agrees (Breakpoint.impl x) (Breakpoint.impl y)
           /\ agrees (Breakpoint.size x) (Breakpoint.size y)
           /\ agrees (Breakpoint.type_ x) (Breakpoint.type_ y))
  /\ (forall self x : Register.t,
         register_ok x = true ->
         exists buf n y,
           Register._serialize x = Ok buf
           /\ Register._deserialize self buf = Ok (n, y)
           /\ agrees (Register.core x) (Register.core y)
           /\ agrees (Register.name x) (Register.name y)
           /\ agrees (Register.unit x) (Register.unit y)
           /\ agrees (Register.value x) (Register.value y)
           /\ agrees (Register.fvalue x) (Register.fvalue y))
  /\ (forall self x : Symbol.t,
         symbol_ok x = true ->
         exists n buf y,
           Symbol.serialize x = Ok (n, buf)
           /\ Symbol.deserialize self buf = Ok y
           /\ Symbol.address y = Symbol.address x
           /\ Symbol.name y = Symbol.name x).
Proof.
  split; [exact AddressFacts.address_roundtrip|].
  split; [exact BreakpointFacts.breakpoint_roundtrip|].
  split; [exact RegisterFacts.register_roundtrip|exact SymbolFacts.symbol_roundtrip].
Qed.

(** The theorem at one object of each class. *)
Lemma C1_roundtrip_within_wire_range_witness :
  (address_ok data_0x1000 = true /\ width_ok None = true
   /\ breakpoint_ok program_breakpoint = true
   /\ register_ok register_r0 = true
   /\ symbol_ok symbol_main = true)
  /\ (exists n buf,
         Address.serialize data_0x1000 0 None = Ok (n, buf)
         /\ Address.deserialize buf = Ok (n, data_0x1000))
  /\ (exists n buf y,
         Breakpoint.serialize program_breakpoint = Ok (n, buf)
         /\ Breakpoint.deserialize Breakpoint.default buf = Ok y
         /\ Breakpoint.address y = Breakpoint.address program_breakpoint
         /\ Breakpoint.size y = Some 4)
  /\ (exists buf n y,
         Register._serialize register_r0 = Ok buf
         /\ Register._deserialize fresh_register buf = Ok (n, y)
         /\ Register.core y = Some 1
         /\ Register.name y = Some (B "R0")
         /\ Register.unit y = Some (B "CPU")
         /\ Register.value y = Some 42)
  /\ (exists n buf y,
         Symbol.serialize symbol_main = Ok (n, buf)
         /\ Symbol.deserialize (Symbol.init None None) buf = Ok y
         /\ Symbol.address y = Symbol.address symbol_main
         /\ Symbol.name y = Symbol.name symbol_main).
Proof.
  destruct C1_roundtrip_within_wire_range as (HA & HB & HR & HS).
  split; [repeat split; reflexivity|].
  split; [apply (HA data_0x1000 None); reflexivity|].
  split.
  { destruct (HB Breakpoint.default program_breakpoint eq_refl)
      as (n & buf & y & H1 & H2 & _ & H3 & _ & _ & _ & H4 & _).
    exists n, buf, y. repeat split; assumption. }
  split.
  { destruct (HR fresh_register register_r0 eq_refl)
      as (buf & n & y & H1 & H2 & H3 & H4 & H5 & H6 & _).
    exists buf, n, y. repeat split; assumption. }
  apply (HS (Symbol.init None None) symbol_main). reflexivity.
Defined.

(** C1 as stated fails outside that range, where a field that was set
    comes back changed: a negative register value is written in two's
    complement and read unsigned; a register unit in lower case is read
    back in upper case; a colon that ends an access code is stripped. *)
Lemma C1_set_field_not_restored :
  (exists y,
      register_trip (Register.mk None (Some (B "R0")) None (Some (-1)) None) = Ok y
      /\ Register.value y = Some (2 ^ 64 - 1)
      /\ ~ agrees (Some (-1)) (Register.value y))
  /\ (exists y,
         register_trip (Register.mk None (Some (B "R0")) (Some (B "cpu")) (Some 1) None)
         = Ok y
         /\ Register.unit y = Some (B "CPU")
         /\ ~ agrees (Some (B "cpu")) (Register.unit y))
  /\ (exists y,
         address_trip (Address.mk (Some (B "D:")) (Some 0x1000)) = Ok y
         /\ Address.access y = Some (B "D")
         /\ ~ agrees (Some (B "D:")) (Address.access y)).
Proof.
  split; [|split]; eexists; (split; [vm_compute; reflexivity|]);
    (split; [reflexivity|]); cbn; intro H; discriminate H.
Qed.

(** An address without access code is written, and the decoder then
    reaches its last line with [addr_access] never assigned. *)
Lemma address_without_access_unbound :
  exists n buf,
    Address.serialize (Address.mk None (Some 0x1000)) 0 None = Ok (n, buf)
    /\ Address.deserialize buf = Raise UnboundLocalError.
Proof. eexists. eexists. split; [vm_compute; reflexivity|reflexivity]. Qed.

End RoundTrip.

(* ================================================================== *)
(** * common.py: alignment and integer encoding                        *)
(* ================================================================== *)

Module CommonFacts.

Import PyFacts Common.

(** X1: for a positive [m], [align_up n m] is the least count that takes
    [n] up to a multiple of [m]: it lies in [0, m), [n] plus it is a
    multiple of [m], and no smaller count does that. *)
Theorem X1_align_up_least_padding (n m : Z) :
  0 < m ->
  0 <= align_up n m < m
  /\ (n + align_up n m) mod m = 0
  /\ forall k, 0 <= k -> (n + k) mod m = 0 -> align_up n m <= k.
Proof.
  intro Hm. unfold align_up.
  pose proof (Z.mod_pos_bound n m Hm) as Hb.
  pose proof (Z.div_mod n m ltac:(lia)) as Hd.
  destruct (n mod m =? 0) eqn:E; cbn [negb].
  - apply Z.eqb_eq in E. repeat split; try lia.
    now rewrite Z.add_0_r.
  - apply Z.eqb_neq in E. repeat split; try lia.
    + replace (n + (m - n mod m)) with ((n / m + 1) * m) by lia.
      apply Z.mod_mul. lia.
    + intros k Hk Hz.
      apply Z.mod_divide in Hz; [|lia]. destruct Hz as [q Hq].
      assert (Hq' : k + n mod m = (q - n / m) * m) by lia.
      destruct (Z_lt_le_dec k (m - n mod m)) as [Hlt|]; [exfalso|lia].
      assert (0 < (q - n / m) * m < m) by lia.
      assert (0 < q - n / m < 1) by nia. lia.
Qed.

(** At 13 and 8: three more make 16. *)
Lemma X1_align_up_least_padding_witness :
  0 < 8 /\ align_eight 13 = 3 /\ (13 + align_eight 13) mod 8 = 0.
Proof.
  split; [lia|].
  destruct (X1_align_up_least_padding 13 8) as (_ & H & _); [lia|].
  split; [reflexivity|exact H].
Defined.

Lemma int2bytearray_out_of_range (n : Z) (len : nat) :
  2 * n < - 256 ^ Z.of_nat len \/ 256 ^ Z.of_nat len <= n ->
  int2bytearray n len = Raise OverflowError.
Proof.
  assert (Hp : 0 < 256 ^ Z.of_nat len) by (apply Z.pow_pos_nonneg; lia).
  unfold int2bytearray, to_bytes_signed, to_bytes_unsigned.
  intros [H|H].
  - replace (n <? 0) with true by (symmetry; apply Z.ltb_lt; lia).
    replace (- 256 ^ Z.of_nat len <=? 2 * n) with false
      by (symmetry; apply Z.leb_gt; lia).
    reflexivity.
  - replace (n <? 0) with false by (symmetry; apply Z.ltb_ge; lia).
    replace (n <? 256 ^ Z.of_nat len) with false
      by (symmetry; apply Z.ltb_ge; lia).
    now rewrite andb_false_r.
Qed.



End CommonFacts.

Module AlignFacts.

Import PyFacts Common Align.

Lemma up_align_loop_spec (m : Z) (fuel : nat) :
  0 < m ->
  forall size, align_up size m < Z.of_nat fuel ->
               up_align_loop fuel size m = Ok (size + align_up size m).
Proof.
  intro Hm. induction fuel as [|fuel IH]; intros size Hf.
  - pose proof (Z.mod_pos_bound size m Hm). unfold align_up in Hf.
    destruct (negb (size mod m =? 0)); lia.
  - cbn [up_align_loop]. unfold align_up in *.
    pose proof (Z.mod_pos_bound size m Hm) as Hb.
    destruct (size mod m =? 0) eqn:E; cbn [negb] in *.
    + now rewrite Z.add_0_r.
    + apply Z.eqb_neq in E.
      assert (Hs : (size + 1) mod m = (size mod m + 1) mod m)
        by (rewrite Z.add_mod_idemp_l by lia; reflexivity).
      destruct (Z.eq_dec (size mod m) (m - 1)) as [Hl|Hl].
      * assert (Hz : (size + 1) mod m = 0).
        { rewrite Hs, Hl. replace (m - 1 + 1) with (1 * m) by lia.
          apply Z.mod_mul. lia. }
        rewrite IH; rewrite Hz; cbn; [f_equal|]; lia.
      * assert (Hz : (size + 1) mod m = size mod m + 1)
          by (rewrite Hs; apply Z.mod_small; lia).
        rewrite IH; rewrite Hz;
          (replace (size mod m + 1 =? 0) with false by (symmetry; apply Z.eqb_neq; lia));
          cbn [negb]; [f_equal|]; lia.
Qed.

Lemma down_align_loop_spec (m : Z) (fuel : nat) :
  0 < m ->
  forall size, size mod m < Z.of_nat fuel ->
               down_align_loop fuel size m = Ok (size - size mod m).
Proof.
  intro Hm. induction fuel as [|fuel IH]; intros size Hf.
  - pose proof (Z.mod_pos_bound size m Hm). lia.
  - cbn [down_align_loop].
    pose proof (Z.mod_pos_bound size m Hm) as Hb.
    destruct (size mod m =? 0) eqn:E; cbn [negb].
    + apply Z.eqb_eq in E. rewrite E. now rewrite Z.sub_0_r.
    + apply Z.eqb_neq in E.
      assert (Hz : (size - 1) mod m = size mod m - 1).
      { rewrite <- Zminus_mod_idemp_l. apply Z.mod_small. lia. }
      rewrite IH; rewrite Hz; [f_equal|]; lia.
Qed.

(** X3: for a positive [align_to] the two alignment loops end, and
    return the multiples of [align_to] next to [size]: [up_align] the least
    one not below [size] ([size] plus [align_up]), [down_align] the
    greatest one not above it; a [size] that is a multiple is returned as
    it is. *)
Theorem X3_align_loops_closed_form (size : Z) (align_to : positive) :
  up_align size align_to = Ok (size + align_up size (Z.pos align_to))
  /\ down_align size align_to = Ok (size - size mod Z.pos align_to).
Proof.
  assert (Hm : 0 < Z.pos align_to) by lia.
  pose proof (Z.mod_pos_bound size (Z.pos align_to) Hm) as Hb.
  split.
  - apply up_align_loop_spec; [exact Hm|].
    rewrite positive_nat_Z. unfold align_up.
    destruct (size mod Z.pos align_to =? 0) eqn:E; cbn [negb]; [lia|].
    apply Z.eqb_neq in E. lia.
  - apply down_align_loop_spec; [exact Hm|]. rewrite positive_nat_Z. lia.
Qed.

End AlignFacts.

(* ================================================================== *)
(** * Address: the attributes of a response, and the encoder's errors  *)
(* ================================================================== *)

Module AddressFields.

Import PyFacts Valid AddressFacts.

(** The tagged fields that [Address.deserialize] knows, with the value
    each one carries. *)
Inductive attribute : Type :=
| AC (a : str)      (* access code *)
| WI (w : Z)        (* width *)
| CO (c : Z)        (* core *)
| SI (s : Z)        (* space id *)
| IM (s : Z)        (* space id, second spelling *)
| AT (a : Z)        (* attributes *)
| MU (m : Z)        (* size of MAU *)
| TU (t : Z).       (* target size of MAU *)

Definition attribute_wire (f : attribute) : bytes :=
  match f with
  | AC a => access_field a
  | WI w => B "WI" ++ to_bytes_le w 2
  | CO c => B "CO" ++ to_bytes_le c 2
  | SI s => B "SI" ++ to_bytes_le s 4
  | IM s => B "IM" ++ to_bytes_le s 4
  | AT a => B "AT" ++ to_bytes_le a 4
  | MU m => B "MU" ++ to_bytes_le m 2
  | TU t => B "TU" ++ to_bytes_le t 2
  end.

Definition attribute_ok (f : attribute) : bool :=
  match f with AC a => access_ok a | _ => true end.

(** The access code that a list of fields leaves in [addr_access]. *)
Fixpoint last_access (fs : list attribute) (acc : option str) : option str :=
  match fs with
  | [] => acc
  | AC a :: fs => last_access fs (Some a)
  | _ :: fs => last_access fs acc
  end.

(** The address type and value as the buffer starts with them. *)
Inductive head : Type :=
| A32 (v : Z)
| A64 (v : Z).

Definition head_wire (h : head) : bytes :=
  match h with
  | A32 v => [x02; x00] ++ to_bytes_le v 4
  | A64 v => [x03; x00] ++ to_bytes_le v 8
  end.

Definition head_value (h : head) : Z :=
  match h with A32 v => v | A64 v => v end.

Definition head_ok (h : head) : bool :=
  match h with
  | A32 v => (0 <=? v) && (v <? 2 ^ 32)
  | A64 v => (0 <=? v) && (v <? 2 ^ 64)
  end.

Definition fields_wire (fs : list attribute) : bytes :=
  concat (map attribute_wire fs).

Ltac skip_step :=
  cbn [to_bytes_le]; tags; cbn [app];
  cbn [Address.deserialize_loop length Nat.ltb Nat.leb];
  cut_slices; eval_eqb; cbn [orb]; cbv iota;
  rewrite address_loop_relocate; repeat rewrite skipn_cons; rewrite skipn_O;
  reflexivity.

Lemma step_skip2 (fuel : nat) (tag : bytes) (x : Z) (rest : bytes) (acc : option str) :
  In tag [B "WI"; B "CO"; B "MU"; B "TU"] ->
  Address.deserialize_loop (S fuel) (tag ++ to_bytes_le x 2 ++ rest) 0 acc
  = shift 4 (Address.deserialize_loop fuel rest 0 acc).
Proof.
  intro H. cbn [In] in H.
  destruct H as [<-|[<-|[<-|[<-|[]]]]]; skip_step.
Qed.

Lemma step_skip4 (fuel : nat) (tag : bytes) (x : Z) (rest : bytes) (acc : option str) :
  In tag [B "SI"; B "IM"; B "AT"] ->
  Address.deserialize_loop (S fuel) (tag ++ to_bytes_le x 4 ++ rest) 0 acc
  = shift 6 (Address.deserialize_loop fuel rest 0 acc).
Proof.
  intro H. cbn [In] in H.
  destruct H as [<-|[<-|[<-|[]]]]; skip_step.
Qed.

Lemma step_attribute (fuel : nat) (f : attribute) (rest : bytes) (acc : option str) :
  attribute_ok f = true ->
  Address.deserialize_loop (S fuel) (attribute_wire f ++ rest) 0 acc
  = shift (length (attribute_wire f))
          (Address.deserialize_loop fuel rest 0 (last_access [f] acc)).
Proof.
  intro Hf. destruct f as [a|w|c|s|s|a|m|t]; cbn [attribute_wire last_access];
    rewrite <- ?app_assoc.
  - now apply address_step_AC.
  - apply step_skip2. cbn. tauto.
  - apply step_skip2. cbn. tauto.
  - apply step_skip4. cbn. tauto.
  - apply step_skip4. cbn. tauto.
  - apply step_skip4. cbn. tauto.
  - apply step_skip2. cbn. tauto.
  - apply step_skip2. cbn. tauto.
Qed.

Lemma shift_shift {A} (p q : nat) (r : outcome (nat * A)) :
  shift p (shift q r) = shift (p + q) r.
Proof. destruct r as [[c a]| |]; cbn; try reflexivity. now rewrite Nat.add_assoc. Qed.

Lemma last_access_app (fs gs : list attribute) (acc : option str) :
  last_access (fs ++ gs) acc = last_access gs (last_access fs acc).
Proof.
  revert acc. induction fs as [|f fs IH]; intro acc; [reflexivity|].
  destruct f; cbn [app last_access]; apply IH.
Qed.

(** The loop over a list of fields, ended by the marker. *)
Lemma address_loop_fields (fs : list attribute) :
  forall (fuel : nat) (acc : option str) (rest : bytes),
    (length fs < fuel)%nat -> forallb attribute_ok fs = true ->
    Address.deserialize_loop fuel (fields_wire fs ++ B "XX" ++ rest) 0 acc
    = Ok ((length (fields_wire fs) + 2)%nat, last_access fs acc).
Proof.
  induction fs as [|f fs IH]; intros fuel acc rest Hfuel Hok;
    (destruct fuel as [|fuel]; [cbn in Hfuel; lia|]).
  - cbn [fields_wire map concat app]. now rewrite address_step_XX.
  - cbn [forallb] in Hok. apply andb_true_iff in Hok. destruct Hok as [Hf Hfs].
    unfold fields_wire in *. cbn [map concat]. rewrite <- app_assoc.
    rewrite step_attribute by exact Hf.
    rewrite IH by (cbn in Hfuel; lia || exact Hfs). cbn [shift].
    rewrite length_app. do 2 f_equal; [lia|].
    destruct f; reflexivity.
Qed.

Lemma length_attribute_wire (f : attribute) : (1 <= length (attribute_wire f))%nat.
Proof.
  destruct f; cbn [attribute_wire]; unfold access_field;
    rewrite ?length_app; tags; cbn [length]; lia.
Qed.

Lemma address_length_fields_wire (fs : list attribute) :
  (length fs <= length (fields_wire fs))%nat.
Proof.
  induction fs as [|f fs IH]; [cbn; lia|].
  unfold fields_wire in *. cbn [map concat length]. rewrite length_app.
  pose proof (length_attribute_wire f). lia.
Qed.

Lemma deserialize_head (h : head) (rest : bytes) :
  head_ok h = true ->
  Address.deserialize (head_wire h ++ rest)
  = ('(read_ptr, addr_access) <-
       shift (length (head_wire h))
             (Address.deserialize_loop (S (length (head_wire h ++ rest))) rest 0 None) ;;
     match addr_access with
     | None => Raise UnboundLocalError
     | Some a => Ok (read_ptr, Address.mk (Some a) (Some (head_value h)))
     end).
Proof.
  intro Hh. unfold Address.deserialize.
  destruct h as [v|v]; cbn [head_ok head_wire head_value] in *;
    apply andb_true_iff in Hh; destruct Hh as [H1 H2];
    apply Z.leb_le in H1; apply Z.ltb_lt in H2;
    rewrite <- !app_assoc; cbn [app]; cut_slices.
  - change (from_bytes_le [x02; x00]) with 2.
    change (2 =? Address.T32_ADDRTYPE_A32) with true. cbv iota. cbn [bind].
    rewrite firstn_app_exact by apply length_to_bytes_le.
    rewrite from_to_bytes_le by (change (256 ^ Z.of_nat 4) with (2 ^ 32); lia).
    rewrite address_loop_relocate.
    repeat rewrite skipn_cons. rewrite skipn_app_exact by apply length_to_bytes_le.
    cbn [length]. rewrite length_app, length_to_bytes_le. reflexivity.
  - change (from_bytes_le [x03; x00]) with 3.
    change (3 =? Address.T32_ADDRTYPE_A32) with false.
    change (3 =? Address.T32_ADDRTYPE_A64) with true. cbv iota. cbn [bind].
    rewrite firstn_app_exact by apply length_to_bytes_le.
    rewrite from_to_bytes_le by (change (256 ^ Z.of_nat 8) with (2 ^ 64); lia).
    rewrite address_loop_relocate.
    repeat rewrite skipn_cons. rewrite skipn_app_exact by apply length_to_bytes_le.
    cbn [length]. rewrite length_app, length_to_bytes_le. reflexivity.
Qed.

(** X4: [Address.deserialize] reads a 32-bit or a 64-bit value and then
    the tagged fields in whatever order and number they come, up to the
    marker XX: the address gets the value and the last access code sent,
    the other known fields are skipped, bytes after the marker are not
    read, and the length returned is that of the part read. *)
Theorem X4_deserialize_fields_any_order
  (h : head) (fs : list attribute) (a : str) (tail : bytes) :
  head_ok h = true -> forallb attribute_ok fs = true ->
  last_access fs None = Some a ->
  Address.deserialize (head_wire h ++ fields_wire fs ++ B "XX" ++ tail)
  = Ok (length (head_wire h ++ fields_wire fs ++ B "XX"),
        Address.mk (Some a) (Some (head_value h))).
Proof.
  intros Hh Hfs Ha. rewrite deserialize_head by exact Hh.
  rewrite address_loop_fields; [|rewrite !length_app; pose proof (address_length_fields_wire fs); lia
                        |exact Hfs].
  cbn [shift bind]. rewrite Ha. do 2 f_equal.
  rewrite !length_app. change (length (B "XX")) with 2%nat. lia.
Qed.

(** A 32-bit value, then four fields of which two are access codes. *)
Lemma X4_deserialize_fields_any_order_witness :
  Address.deserialize
    (head_wire (A32 0x1000)
       ++ fields_wire [CO 1; AC (B "D"); AT 7; AC (B "P")] ++ B "XX" ++ [xff])
  = Ok (30%nat, Address.mk (Some (B "P")) (Some 0x1000)).
Proof.
  exact (X4_deserialize_fields_any_order
           (A32 0x1000) [CO 1; AC (B "D"); AT 7; AC (B "P")] (B "P") [xff]
           eq_refl eq_refl eq_refl).
Defined.

(** X5: a response that carries no access code cannot be decoded: the
    method ends in UnboundLocalError, whatever value and other fields
    were sent. *)
Theorem X5_deserialize_without_access_code
  (h : head) (fs : list attribute) (tail : bytes) :
  head_ok h = true -> forallb attribute_ok fs = true ->
  last_access fs None = None ->
  Address.deserialize (head_wire h ++ fields_wire fs ++ B "XX" ++ tail)
  = Raise UnboundLocalError.
Proof.
  intros Hh Hfs Ha. rewrite deserialize_head by exact Hh.
  rewrite address_loop_fields; [|rewrite !length_app; pose proof (address_length_fields_wire fs); lia
                        |exact Hfs].
  cbn [shift bind]. now rewrite Ha.
Qed.

(** A 64-bit value followed by a width only. *)
Lemma X5_deserialize_without_access_code_witness :
  Address.deserialize
    (head_wire (A64 0x1000) ++ fields_wire [WI 4] ++ B "XX" ++ [])
  = Raise UnboundLocalError.
Proof.
  exact (X5_deserialize_without_access_code (A64 0x1000) [WI 4] []
           eq_refl eq_refl eq_refl).
Defined.

End AddressFields.

Module AddressErrors.

Import PyFacts Valid.

(** X6: [Address.serialize] cannot write an address without a value
    (TypeError from the addition), nor one whose value plus the offset
    does not fit in 64 bits, two's complement for a negative sum
    (OverflowError), whatever the access code and the width are. *)
Theorem X6_serialize_value_errors (x : Address.t) (off : Z) (w : option Z) :
  (Address.value x = None -> Address.serialize x off w = Raise TypeError)
  /\ (forall v, Address.value x = Some v ->
                2 * (v + off) < - 2 ^ 64 \/ 2 ^ 64 <= v + off ->
                Address.serialize x off w = Raise OverflowError).
Proof.
  unfold Address.serialize.
  change (Common.int2bytearray Address.T32_ADDRTYPE_A64 2) with (@Ok bytes [x03; x00]).
  change (Address.T32_ADDRTYPE_A64 =? Address.T32_ADDRTYPE_A32) with false.
  change (Address.T32_ADDRTYPE_A64 =? Address.T32_ADDRTYPE_A64) with true.
  cbv iota. split.
  - intros ->. reflexivity.
  - intros v -> Hv. cbn [bind].
    rewrite CommonFacts.int2bytearray_out_of_range
      by (change (256 ^ Z.of_nat 8) with (2 ^ 64); exact Hv).
    reflexivity.
Qed.

(** The largest 64-bit value, at offset 1. *)
Lemma X6_serialize_value_errors_witness :
  Address.serialize (Address.mk (Some (B "D")) (Some (2 ^ 64 - 1))) 1 None
  = Raise OverflowError.
Proof.
  destruct (X6_serialize_value_errors
              (Address.mk (Some (B "D")) (Some (2 ^ 64 - 1))) 1 None) as [_ H].
  apply (H (2 ^ 64 - 1) eq_refl). right. cbn. lia.
Defined.

End AddressErrors.

(* ================================================================== *)
(** * Breakpoint: the fields of a response                             *)
(* ================================================================== *)

Module BreakpointFields.

Import PyFacts Valid Breakpoint BreakpointFacts.

(** The tagged fields that [Breakpoint.deserialize] knows, with the value
    each one carries. *)
Inductive field : Type :=
| SZ (s : Z)
| AD (a : str) (v : Z)
| TY (ty : Type_)
| IM (i : Impl)
| DM (i : Impl)             (* second spelling of IM *)
| HH (b0 b1 : byte)         (* two bytes that the client skips *)
| CA (a : Action)
| EN (en : bool)
| CO (c : Z).

Definition field_wire (f : field) : bytes :=
  match f with
  | SZ s => B "SZ" ++ to_bytes_le s 8
  | AD a v => B "AD" ++ AddressFacts.wire v a None
  | TY ty => B "TY" ++ to_bytes_le (Type_value ty) 4
  | IM i => B "IM" ++ to_bytes_le (Impl_value i) 4
  | DM i => B "DM" ++ to_bytes_le (Impl_value i) 4
  | HH b0 b1 => B "hh" ++ [b0; b1]
  | CA a => B "CA" ++ to_bytes_le (Action_value a) 4
  | EN en => B "EN" ++ (if en then [x01; x00] else [x00; x00])
  | CO c => B "CO" ++ to_bytes_le c 4
  end.

Definition field_ok (f : field) : bool :=
  match f with
  | SZ s => (0 <=? s) && (s <? 2 ^ 64)
  | AD a v => access_ok a && (0 <=? v) && (v <? 2 ^ 64)
  | CO c => (0 <=? c) && (c <? 2 ^ 32)
  | _ => true
  end.

(** The assignment that a field stands for. *)
Definition assign (self : t) (f : field) : t :=
  match f with
  | SZ s => set_size self (Some s)
  | AD a v => set_address self (Some (Address.mk (Some a) (Some v)))
  | TY ty => set_type self (Some ty)
  | IM i | DM i => set_impl self (Some i)
  | HH _ _ => self
  | CA a => set_action self (Some a)
  | EN en => set_enabled self en
  | CO c => set_core self (Some c)
  end.

Definition fields_wire (fs : list field) : bytes := concat (map field_wire fs).

Lemma step_DM (fuel : nat) (self : t) (i : Impl) (rest : bytes) :
  deserialize_loop (S fuel) self (B "DM" ++ to_bytes_le (Impl_value i) 4 ++ rest) 0
  = deserialize_loop fuel (set_impl self (Some i)) rest 0.
Proof.
  step_start. cbn [orb].
  rewrite firstn_app_exact by apply length_to_bytes_le.
  rewrite from_to_bytes_le by apply Impl_value_range.
  rewrite Impl_of_value. cbn [bind]. now step_next.
Qed.

Lemma step_hh (fuel : nat) (self : t) (b0 b1 : byte) (rest : bytes) :
  deserialize_loop (S fuel) self (B "hh" ++ [b0; b1] ++ rest) 0
  = deserialize_loop fuel self rest 0.
Proof. step_start. cbn [orb]. now step_next. Qed.

Lemma step_jj (fuel : nat) (self : t) (rest : bytes) :
  deserialize_loop (S fuel) self (B "jj" ++ rest) 0
  = Ok (set_impl (set_type self (Some DELETED)) (Some AUTO)).
Proof. step_start. reflexivity. Qed.

Lemma step_end (fuel : nat) (self : t) :
  deserialize_loop (S fuel) self [] 0 = Ok self.
Proof. reflexivity. Qed.

Lemma breakpoint_step_field (fuel : nat) (self : t) (f : field) (rest : bytes) :
  field_ok f = true ->
  deserialize_loop (S fuel) self (field_wire f ++ rest) 0
  = deserialize_loop fuel (assign self f) rest 0.
Proof.
  intro Hf. destruct f; cbn [field_wire field_ok assign] in *; rewrite <- ?app_assoc;
    repeat match goal with
           | H : (_ && _) = true |- _ =>
               apply andb_true_iff in H; let H1 := fresh in let H2 := fresh in
               destruct H as [H1 H2]
           end;
    repeat match goal with
           | H : (_ <=? _) = true |- _ => apply Z.leb_le in H
           | H : (_ <? _) = true |- _ => apply Z.ltb_lt in H
           end.
  - apply breakpoint_step_SZ. lia.
  - apply breakpoint_step_AD; [assumption|lia].
  - apply breakpoint_step_TY.
  - apply breakpoint_step_IM.
  - apply step_DM.
  - apply step_hh.
  - apply breakpoint_step_CA.
  - apply breakpoint_step_EN.
  - apply breakpoint_step_CO. lia.
Qed.

(** The loop over a list of fields uses one turn per field. *)
Lemma breakpoint_loop_fields (fs : list field) :
  forall (fuel : nat) (self : t) (rest : bytes),
    forallb field_ok fs = true ->
    deserialize_loop (length fs + fuel) self (fields_wire fs ++ rest) 0
    = deserialize_loop fuel (fold_left assign fs self) rest 0.
Proof.
  induction fs as [|f fs IH]; intros fuel self rest Hok; [reflexivity|].
  cbn [forallb] in Hok. apply andb_true_iff in Hok. destruct Hok as [Hf Hfs].
  unfold fields_wire in *. cbn [map concat length Nat.add fold_left].
  rewrite <- app_assoc, breakpoint_step_field by exact Hf. now apply IH.
Qed.

Lemma breakpoint_length_field_wire (f : field) : (1 <= length (field_wire f))%nat.
Proof. destruct f; cbn [field_wire]; rewrite ?length_app; tags; cbn [length]; lia. Qed.

Lemma breakpoint_length_fields_wire (fs : list field) :
  (length fs <= length (fields_wire fs))%nat.
Proof.
  induction fs as [|f fs IH]; [cbn; lia|].
  unfold fields_wire in *. cbn [map concat length]. rewrite length_app.
  pose proof (breakpoint_length_field_wire f). lia.
Qed.

Lemma deserialize_fields (self : t) (fs : list field) (rest : bytes) :
  forallb field_ok fs = true ->
  deserialize self (fields_wire fs ++ rest)
  = deserialize_loop (S (length (fields_wire fs ++ rest) - length fs))
                     (fold_left assign fs self) rest 0.
Proof.
  intro Hok. unfold deserialize.
  pose proof (breakpoint_length_fields_wire fs) as Hl.
  replace (S (length (fields_wire fs ++ rest)))
    with (length fs + S (length (fields_wire fs ++ rest) - length fs))%nat
    by (rewrite length_app; lia).
  now apply breakpoint_loop_fields.
Qed.

(** X7: [Breakpoint.deserialize] assigns the fields of a response in the
    order they arrive, whatever that order is: a field sent twice keeps the
    later value, an attribute that is not sent keeps the value it had, and
    the fields "hh" are skipped.  Reading stops at the marker XX or at the
    end of the buffer, and at the marker "jj", which in addition sets the
    type to DELETED and the implementation to AUTO; what follows a marker
    is not read. *)
Theorem X7_deserialize_assigns_fields_in_order
  (self : t) (fs : list field) (tail : bytes) :
  forallb field_ok fs = true ->
  deserialize self (fields_wire fs ++ B "XX" ++ tail) = Ok (fold_left assign fs self)
  /\ deserialize self (fields_wire fs) = Ok (fold_left assign fs self)
  /\ deserialize self (fields_wire fs ++ B "jj" ++ tail)
     = Ok (set_impl (set_type (fold_left assign fs self) (Some DELETED)) (Some AUTO)).
Proof.
  intro Hok. split; [|split].
  - rewrite deserialize_fields by exact Hok. apply breakpoint_step_XX.
  - rewrite <- (app_nil_r (fields_wire fs)) at 1.
    rewrite deserialize_fields by exact Hok. apply step_end.
  - rewrite deserialize_fields by exact Hok. apply step_jj.
Qed.

(** Five fields, the type sent twice. *)
Lemma X7_deserialize_assigns_fields_in_order_witness :
  deserialize default
    (fields_wire [EN false; TY READ; HH x00 x00; CO 2; TY WRITE] ++ B "XX" ++ [xff])
  = Ok (mk None None (Some 2) false None None (Some WRITE)).
Proof.
  destruct (X7_deserialize_assigns_fields_in_order default
              [EN false; TY READ; HH x00 x00; CO 2; TY WRITE] [xff] eq_refl) as [H _].
  exact H.
Defined.

End BreakpointFields.

Module BreakpointErrors.

Import PyFacts Valid Breakpoint BreakpointFacts BreakpointFields.

(** The parameter ids that [Breakpoint.deserialize] knows. *)
Definition known_ids : list bytes :=
  [B "SZ"; B "AD"; B "TY"; B "DM"; B "IM"; B "jj"; B "hh"; B "CA"; B "EN"; B "CO"; B "XX"].

Lemma unknown_id (t0 t1 : byte) (id : bytes) :
  existsb (bytes_eqb [t0; t1]) known_ids = false -> In id known_ids ->
  bytes_eqb [t0; t1] id = false.
Proof.
  intros H Hin. destruct (bytes_eqb [t0; t1] id) eqn:E; [|reflexivity].
  rewrite <- H. symmetry. apply existsb_exists. now exists id.
Qed.

(** X8: the field set of a breakpoint is closed.  After any fields that
    were read, two bytes that are not a known parameter id make
    [Breakpoint.deserialize] raise ValueError, and so does a type,
    implementation or action field whose number is not a member of the
    enumeration. *)
Theorem X8_deserialize_closed_field_set
  (self : t) (fs : list field) (t0 t1 : byte) (n : Z) (rest : bytes) :
  forallb field_ok fs = true ->
  (existsb (bytes_eqb [t0; t1]) known_ids = false ->
   deserialize self (fields_wire fs ++ [t0; t1] ++ rest) = Raise ValueError)
  /\ (0 <= n < 2 ^ 32 ->
      (Type_of n = Raise ValueError ->
       deserialize self (fields_wire fs ++ B "TY" ++ to_bytes_le n 4 ++ rest)
       = Raise ValueError)
      /\ (Impl_of n = Raise ValueError ->
          deserialize self (fields_wire fs ++ B "IM" ++ to_bytes_le n 4 ++ rest)
          = Raise ValueError)
      /\ (Action_of n = Raise ValueError ->
          deserialize self (fields_wire fs ++ B "CA" ++ to_bytes_le n 4 ++ rest)
          = Raise ValueError)).
Proof.
  intro Hok. split; [|intro Hn; split; [|split]]; intro H;
    rewrite deserialize_fields by exact Hok.
  - cbn [app deserialize_loop length Nat.ltb Nat.leb]. cut_slices.
    rewrite !(unknown_id t0 t1) by (exact H || (cbn; tauto)).
    reflexivity.
  - step_start. rewrite firstn_app_exact by apply length_to_bytes_le.
    rewrite from_to_bytes_le by exact Hn. now rewrite H.
  - step_start. cbn [orb]. rewrite firstn_app_exact by apply length_to_bytes_le.
    rewrite from_to_bytes_le by exact Hn. now rewrite H.
  - step_start. cbn [orb]. rewrite firstn_app_exact by apply length_to_bytes_le.
    rewrite from_to_bytes_le by exact Hn. now rewrite H.
Qed.

(** An unknown id, and a type number outside the enumeration. *)
Lemma X8_deserialize_closed_field_set_witness :
  deserialize default (fields_wire [EN true] ++ B "ZZ" ++ []) = Raise ValueError
  /\ deserialize default (fields_wire [EN true] ++ B "TY" ++ to_bytes_le 3 4 ++ [])
     = Raise ValueError.
Proof.
  destruct (X8_deserialize_closed_field_set default [EN true] x5a x5a 3 [] eq_refl)
    as [H1 H2].
  split; [apply H1; reflexivity|].
  destruct H2 as [H2 _]; [lia|]. apply H2. reflexivity.
Defined.

End BreakpointErrors.

(* ================================================================== *)
(** * Symbol: the fields of a response                                 *)
(* ================================================================== *)

Module SymbolFields.

Import PyFacts Valid Symbol SymbolFacts.

(** The tagged fields that [Symbol.deserialize] knows.  A text field
    holds the text and [pad] NUL bytes after it. *)
Inductive field : Type :=
| AD (a : str) (v : Z)
| NM (s : str) (pad : nat)      (* name *)
| PT (s : str) (pad : nat)      (* path *)
| SZ (n : Z)                    (* size *)
| NE (s : str) (pad : nat).     (* name extension *)

Definition text_field (tag : bytes) (s : str) (pad : nat) : bytes :=
  tag ++ to_bytes_le (Z.of_nat (length s + pad)) 2 ++ s ++ repeat x00 pad.

Definition field_wire (f : field) : bytes :=
  match f with
  | AD a v => B "AD" ++ AddressFacts.wire v a None
  | NM s pad => text_field (B "NM") s pad
  | PT s pad => text_field (B "PT") s pad
  | SZ n => B "SZ" ++ to_bytes_le n 8
  | NE s pad => text_field (B "NE") s pad
  end.

(** A text that comes back as sent: ASCII, not ending in NUL, and short
    enough, with its padding, for the 16-bit length. *)
Definition text_ok (s : str) (pad : nat) : bool :=
  forallb is_ascii s && bytes_eqb (rstrip x00 s) s
  && (Z.of_nat (length s + pad) <=? 0xFFFF).

Definition field_ok (f : field) : bool :=
  match f with
  | AD a v => access_ok a && (0 <=? v) && (v <? 2 ^ 64)
  | NM s pad | PT s pad | NE s pad => text_ok s pad
  | SZ n => (0 <=? n) && (n <? 2 ^ 64)
  end.

(** The assignment that a field stands for; a name extension needs a
    name to extend. *)
Definition assign (self : t) (f : field) : outcome t :=
  match f with
  | AD a v => Ok (mk (Some (Address.mk (Some a) (Some v))) (name self) (path self) (size self))
  | NM s _ => Ok (mk (address self) (Some s) (path self) (size self))
  | PT s _ => Ok (mk (address self) (name self) (Some s) (size self))
  | SZ n => Ok (mk (address self) (name self) (path self) (Some n))
  | NE s _ =>
      match name self with
      | Some n => Ok (mk (address self) (Some (n ++ s)) (path self) (size self))
      | None => Raise AssertionError
      end
  end.

Fixpoint assign_all (self : t) (fs : list field) : outcome t :=
  match fs with
  | [] => Ok self
  | f :: fs => self <- assign self f ;; assign_all self fs
  end.

Definition fields_wire (fs : list field) : bytes := concat (map field_wire fs).

(** What [Symbol.deserialize] starts from. *)
Definition blank : t := mk None None None (Some 0).

Lemma text_decode (s : str) (pad : nat) :
  text_ok s pad = true ->
  from_bytes_le (to_bytes_le (Z.of_nat (length s + pad)) 2) = Z.of_nat (length s + pad)
  /\ bind (decode (s ++ repeat x00 pad)) (fun d => Ok (rstrip x00 d)) = Ok s.
Proof.
  intro H. unfold text_ok in H.
  apply andb_true_iff in H. destruct H as [H Hl].
  apply andb_true_iff in H. destruct H as [Hasc Hr].
  apply Z.leb_le in Hl. apply bytes_eqb_eq in Hr. split.
  - apply from_to_bytes_le. change (256 ^ Z.of_nat 2) with 65536. lia.
  - unfold decode.
    assert (Hp : forallb is_ascii (s ++ repeat x00 pad) = true).
    { rewrite forallb_app, Hasc. simpl. clear. induction pad; simpl; auto. }
    rewrite Hp. cbn [bind]. now rewrite rstrip_pad, Hr.
Qed.

Ltac text_step s pad H :=
  destruct (text_decode s pad H) as [Hf Hd];
  assert (Hlen : length (s ++ repeat x00 pad) = (length s + pad)%nat)
    by (rewrite length_app, repeat_length; reflexivity);
  unfold text_field; rewrite <- !app_assoc;
  rewrite (app_assoc s (repeat x00 pad));
  cbn [to_bytes_le] in *; step_start;
  rewrite Hf, Nat2Z.id; rewrite firstn_app_exact by exact Hlen;
  revert Hd; destruct (decode (s ++ repeat x00 pad)) as [d| |]; cbn [bind];
  intro Hd; try discriminate Hd; injection Hd as Hd; rewrite Hd.

Lemma step_NM (fuel : nat) (self : t) (s : str) (pad : nat) (rest : bytes) :
  text_ok s pad = true ->
  deserialize_loop (S fuel) self (text_field (B "NM") s pad ++ rest) 0
  = deserialize_loop fuel (mk (address self) (Some s) (path self) (size self)) rest 0.
Proof.
  intro H. text_step s pad H.
  rewrite symbol_loop_relocate.
  repeat rewrite skipn_cons. now rewrite skipn_app_exact by exact Hlen.
Qed.

Lemma step_PT (fuel : nat) (self : t) (s : str) (pad : nat) (rest : bytes) :
  text_ok s pad = true ->
  deserialize_loop (S fuel) self (text_field (B "PT") s pad ++ rest) 0
  = deserialize_loop fuel (mk (address self) (name self) (Some s) (size self)) rest 0.
Proof.
  intro H. text_step s pad H.
  rewrite symbol_loop_relocate.
  repeat rewrite skipn_cons. now rewrite skipn_app_exact by exact Hlen.
Qed.

Lemma step_NE (fuel : nat) (self : t) (s : str) (pad : nat) (rest : bytes) :
  text_ok s pad = true ->
  deserialize_loop (S fuel) self (text_field (B "NE") s pad ++ rest) 0
  = match name self with
    | Some n =>
        deserialize_loop fuel (mk (address self) (Some (n ++ s)) (path self) (size self))
                         rest 0
    | None => Raise AssertionError
    end.
Proof.
  intro H. text_step s pad H.
  destruct (name self); [|reflexivity].
  rewrite symbol_loop_relocate.
  repeat rewrite skipn_cons. now rewrite skipn_app_exact by exact Hlen.
Qed.

Lemma step_SZ (fuel : nat) (self : t) (n : Z) (rest : bytes) :
  0 <= n < 2 ^ 64 ->
  deserialize_loop (S fuel) self (B "SZ" ++ to_bytes_le n 8 ++ rest) 0
  = deserialize_loop fuel (mk (address self) (name self) (path self) (Some n)) rest 0.
Proof.
  intro Hn. step_start.
  rewrite firstn_app_exact by apply length_to_bytes_le.
  rewrite from_to_bytes_le by (change (256 ^ Z.of_nat 8) with (2 ^ 64); lia).
  rewrite symbol_loop_relocate.
  repeat rewrite skipn_cons. now rewrite skipn_app_exact by apply length_to_bytes_le.
Qed.

Lemma symbol_step_field (fuel : nat) (self : t) (f : field) (rest : bytes) :
  field_ok f = true ->
  deserialize_loop (S fuel) self (field_wire f ++ rest) 0
  = (self <- assign self f ;; deserialize_loop fuel self rest 0).
Proof.
  intro Hf. destruct f; cbn [field_wire field_ok assign bind] in *.
  - apply andb_true_iff in Hf. destruct Hf as [Hf H2].
    apply andb_true_iff in Hf. destruct Hf as [Ha H1].
    apply Z.leb_le in H1. apply Z.ltb_lt in H2.
    rewrite <- app_assoc. apply symbol_step_AD; [assumption|lia].
  - now apply step_NM.
  - now apply step_PT.
  - apply andb_true_iff in Hf. destruct Hf as [H1 H2].
    apply Z.leb_le in H1. apply Z.ltb_lt in H2.
    rewrite <- app_assoc. apply step_SZ. lia.
  - rewrite step_NE by exact Hf. now destruct (name self).
Qed.

Lemma symbol_loop_fields (fs : list field) :
  forall (fuel : nat) (self : t) (rest : bytes),
    forallb field_ok fs = true ->
    deserialize_loop (length fs + fuel) self (fields_wire fs ++ rest) 0
    = (self <- assign_all self fs ;; deserialize_loop fuel self rest 0).
Proof.
  induction fs as [|f fs IH]; intros fuel self rest Hok; [reflexivity|].
  cbn [forallb] in Hok. apply andb_true_iff in Hok. destruct Hok as [Hf Hfs].
  unfold fields_wire in *. cbn [map concat length Nat.add assign_all].
  rewrite <- app_assoc, symbol_step_field by exact Hf.
  destruct (assign self f) as [self'| |]; cbn [bind]; try reflexivity.
  now apply IH.
Qed.

Lemma symbol_length_field_wire (f : field) : (1 <= length (field_wire f))%nat.
Proof.
  destruct f; cbn [field_wire]; unfold text_field; rewrite ?length_app; tags;
    cbn [length]; lia.
Qed.

Lemma symbol_length_fields_wire (fs : list field) :
  (length fs <= length (fields_wire fs))%nat.
Proof.
  induction fs as [|f fs IH]; [cbn; lia|].
  unfold fields_wire in *. cbn [map concat length]. rewrite length_app.
  pose proof (symbol_length_field_wire f). lia.
Qed.

(** X9: [Symbol.deserialize] forgets what the object held (size becomes
    0) and assigns the fields of the response in the order they arrive,
    whatever that order is, up to the marker XX; bytes after the marker
    are not read.  A name extension is appended to the name read so far,
    and one that comes before any name ends the call in AssertionError. *)
Theorem X9_deserialize_assigns_fields_in_order
  (self : t) (fs : list field) (tail : bytes) :
  forallb field_ok fs = true ->
  deserialize self (fields_wire fs ++ B "XX" ++ tail) = assign_all blank fs.
Proof.
  intro Hok. unfold deserialize.
  pose proof (symbol_length_fields_wire fs) as Hl.
  replace (S (length (fields_wire fs ++ B "XX" ++ tail)))
    with (length fs + S (length (fields_wire fs ++ B "XX" ++ tail) - length fs))%nat
    by (rewrite length_app; lia).
  rewrite symbol_loop_fields by exact Hok. fold blank.
  destruct (assign_all blank fs) as [y| |]; cbn [bind];
    [apply symbol_step_XX|reflexivity|reflexivity].
Qed.

(** A name in two parts, and a name extension that comes first. *)
Lemma X9_deserialize_assigns_fields_in_order_witness :
  deserialize (init None None)
    (fields_wire [SZ 16; NM (B "very_long_") 0; NE (B "name") 2; PT (B "\\sieve") 1]
       ++ B "XX" ++ [xff])
  = Ok (mk None (Some (B "very_long_name")) (Some (B "\\sieve")) (Some 16))
  /\ deserialize (init None None) (fields_wire [NE (B "name") 2] ++ B "XX" ++ [])
     = Raise AssertionError.
Proof.
  split.
  - exact (X9_deserialize_assigns_fields_in_order (init None None)
             [SZ 16; NM (B "very_long_") 0; NE (B "name") 2; PT (B "\\sieve") 1]
             [xff] eq_refl).
  - exact (X9_deserialize_assigns_fields_in_order (init None None)
             [NE (B "name") 2] [] eq_refl).
Defined.

End SymbolFields.

(* ================================================================== *)
(** * RegisterService: lists of registers                              *)
(* ================================================================== *)

Module RegisterServiceFacts.

Import PyFacts Valid Register RegisterFacts RegisterService.










(** [_deserialize] has no loop: when the model gives up on it, it is for
    text outside ASCII. *)
Lemma deserialize_stuck (self : t) (data : bytes) (w : stuck) :
  _deserialize self data = Stuck w -> w = Unmodelled.
Proof.
  unfold _deserialize, extract_name, extract_type, extract_value, extract_fvalue,
    extract_core, extract_end, decode_unicode_escape, Unit_of, unpack_d.
  repeat match goal with
         | |- context [if ?c then _ else _] => destruct c; cbn [bind]
         | |- context [match rev ?l with _ => _ end] => destruct (rev l); cbn [bind]
         | |- context [match find ?f ?l with _ => _ end] => destruct (find f l); cbn [bind]
         end;
    intro H; try discriminate H; now injection H.
Qed.

Lemma loop_ends (data : bytes) (fuel : nat) :
  forall (counter : nat) (acc : list t),
    (1 <= fuel)%nat -> (length data < counter + fuel)%nat ->
    deserialize_registers_loop fuel data counter acc <> Stuck OutOfFuel.
Proof.
  induction fuel as [|fuel IH]; intros counter acc H1 Hf; [lia|].
  cbn [deserialize_registers_loop].
  destruct (counter <? length data)%nat eqn:E; [|discriminate].
  apply Nat.ltb_lt in E.
  destruct (_deserialize blank (slice_from data counter)) as [[n reg]| |w] eqn:Ed;
    cbn [bind]; try discriminate.
  - destruct (_ && _); apply IH; lia.
  - apply deserialize_stuck in Ed. now subst w.
Qed.

(** X11: [__deserialize_registers] ends on every buffer, well-formed or
    not: each turn of its loop moves the read position forward by at least
    one byte, so the turns allowed by the length of the buffer are never
    used up. *)
Theorem X11_deserialize_registers_ends (data : bytes) :
  deserialize_registers data <> Stuck OutOfFuel.
Proof. apply loop_ends; lia. Qed.

End RegisterServiceFacts.

(* ================================================================== *)
(** * TCP: streams of frames, and what the client sends                *)
(* ================================================================== *)

Module TcpStream.

Import PyFacts Valid Hlinknet TcpFacts.

(** A message of the peer: its type and its payload. *)
Definition frame_of (m : Z * bytes) : bytes := tcp_frame (fst m) (snd m).

Definition message_ok (m : Z * bytes) : bool :=
  ((fst m =? RCL_RESP) || (fst m =? RCL_NOTIFY))
  && (Z.of_nat (length (snd m)) <? 2 ^ 32).

Definition stream (ms : list (Z * bytes)) : bytes := concat (map frame_of ms).

Definition dispatch_all (self : comm) (ms : list (Z * bytes)) : comm :=
  fold_left (fun s m => dispatch (fst m) s (snd m)) ms self.

Lemma socket_content_dispatch (ty : Z) (self : comm) (payload : bytes) :
  socket_content (dispatch ty self payload) = socket_content self.
Proof. unfold dispatch. now destruct (ty =? RCL_NOTIFY). Qed.

Lemma dispatch_with_socket_content (ty : Z) (self : comm) (payload c : bytes) :
  dispatch ty (with_socket_content self c) payload
  = with_socket_content (dispatch ty self payload) c.
Proof. unfold dispatch. now destruct (ty =? RCL_NOTIFY). Qed.

Lemma dispatch_all_with_socket_content (ms : list (Z * bytes)) :
  forall (self : comm) (c : bytes),
    dispatch_all (with_socket_content self c) ms
    = with_socket_content (dispatch_all self ms) c.
Proof.
  induction ms as [|m ms IH]; intros self c; [reflexivity|].
  unfold dispatch_all in *. cbn [fold_left].
  now rewrite dispatch_with_socket_content, IH.
Qed.

Lemma socket_content_dispatch_all (ms : list (Z * bytes)) :
  forall self : comm, socket_content (dispatch_all self ms) = socket_content self.
Proof.
  induction ms as [|m ms IH]; intro self; [reflexivity|].
  unfold dispatch_all in *. cbn [fold_left].
  now rewrite IH, socket_content_dispatch.
Qed.

(** The loop on a cache that holds whole frames only. *)
Lemma loop_stream (ms : list (Z * bytes)) :
  forall (fuel : nat) (self : comm),
    (length ms < fuel)%nat -> forallb message_ok ms = true ->
    socket_content self = stream ms ->
    tcp_extract_message_loop fuel self
    = (Ok tt, dispatch_all (with_socket_content self []) ms).
Proof.
  induction ms as [|[ty payload] ms IH]; intros fuel self Hfuel Hok Hc;
    (destruct fuel as [|fuel]; [cbn in Hfuel; lia|]).
  - rewrite extract_short by (rewrite Hc; cbn; unfold HEADER_LEN; lia).
    reflexivity.
  - cbn [forallb] in Hok. apply andb_true_iff in Hok. destruct Hok as [Hm Hms].
    unfold message_ok in Hm. cbn [fst snd] in Hm.
    apply andb_true_iff in Hm. destruct Hm as [Hty Hl].
    apply Z.ltb_lt in Hl.
    assert (Hty' : ty = RCL_RESP \/ ty = RCL_NOTIFY).
    { apply orb_true_iff in Hty. destruct Hty as [H|H]; apply Z.eqb_eq in H; auto. }
    set (pad := repeat x00 (Z.to_nat (Common.align_eight (Z.of_nat (length payload + 8))))).
    rewrite (extract_head fuel self ty payload (pad ++ stream ms) Hl Hty').
    + rewrite skipn_app_exact by (unfold pad; now rewrite repeat_length).
      rewrite IH.
      * unfold dispatch_all. cbn [fold_left fst snd].
        rewrite !dispatch_with_socket_content. reflexivity.
      * cbn in Hfuel. lia.
      * exact Hms.
      * now rewrite socket_content_dispatch.
    + rewrite Hc. unfold stream. cbn [map concat]. unfold frame_of at 1, tcp_frame.
      cbn [fst snd]. rewrite <- !app_assoc. unfold pad.
      replace (Z.of_nat (length payload) + 4 + 4) with (Z.of_nat (length payload + 8))
        by lia.
      reflexivity.
Qed.

Lemma length_stream (ms : list (Z * bytes)) : (length ms <= length (stream ms))%nat.
Proof.
  induction ms as [|m ms IH]; [cbn; lia|].
  unfold stream in *. cbn [map concat length]. rewrite length_app.
  unfold frame_of at 1. rewrite length_tcp_frame. lia.
Qed.

(** X12: a read that delivers several whole frames at once dispatches
    every one of them, in the order of arrival, each to the queue of its
    type (responses and notifications may alternate), and leaves the cache
    empty. *)
Theorem X12_frames_of_one_read_dispatched_in_order
  (self : comm) (ms : list (Z * bytes)) :
  forallb message_ok ms = true -> socket_content self = [] ->
  tcp_poll_received self (stream ms) = (Ok tt, dispatch_all self ms).
Proof.
  intros Hok Hc. unfold tcp_poll_received, tcp_extract_message.
  rewrite Hc. cbn [app socket_content with_socket_content].
  rewrite (loop_stream ms); try assumption; try reflexivity.
  - rewrite !dispatch_all_with_socket_content.
    pose proof (socket_content_dispatch_all ms self) as E. rewrite Hc in E.
    destruct (dispatch_all self ms). cbn in *. now subst.
  - pose proof (length_stream ms). lia.
Qed.

(** A response, a notification and a response in one read. *)
Lemma X12_frames_of_one_read_dispatched_in_order_witness :
  tcp_poll_received (tcp_with_reads [])
    (stream [(RCL_RESP, [x00; x01]); (RCL_NOTIFY, [x07]); (RCL_RESP, [x00; x02; x03])])
  = (Ok tt,
     dispatch_all (tcp_with_reads [])
       [(RCL_RESP, [x00; x01]); (RCL_NOTIFY, [x07]); (RCL_RESP, [x00; x02; x03])]).
Proof.
  apply (X12_frames_of_one_read_dispatched_in_order (tcp_with_reads [])
           [(RCL_RESP, [x00; x01]); (RCL_NOTIFY, [x07]); (RCL_RESP, [x00; x02; x03])]);
    reflexivity.
Defined.

(** The loop on a cache that begins with a frame of another type. *)
Lemma extract_head_refused (fuel : nat) (self : comm) (ty : Z) (payload tail : bytes) :
  Z.of_nat (length payload) < 2 ^ 32 -> 0 <= ty < 2 ^ 32 ->
  ty <> RCL_RESP -> ty <> RCL_NOTIFY ->
  socket_content self
  = to_bytes_le (Z.of_nat (length payload)) 4 ++ to_bytes_le ty 4 ++ payload ++ tail ->
  tcp_extract_message_loop (S fuel) self
  = (Raise ConnectionError,
     with_socket_content self
       (skipn (Z.to_nat (Common.align_eight (Z.of_nat (length payload + 8)))) tail)).
Proof.
  intros Hl Hty Hr Hn Hc.
  cbn [tcp_extract_message_loop]. rewrite Hc.
  set (content := to_bytes_le (Z.of_nat (length payload)) 4 ++ to_bytes_le ty 4
                    ++ payload ++ tail).
  assert (Hlen : length content = (length payload + 8 + length tail)%nat).
  { unfold content. rewrite !length_app, !length_to_bytes_le. lia. }
  assert (H8 : (HEADER_LEN <=? length content)%nat = true).
  { apply Nat.leb_le. rewrite Hlen. unfold HEADER_LEN. lia. }
  rewrite H8.
  assert (Hsz : from_bytes_le (slice content 0 4) = Z.of_nat (length payload)).
  { unfold content, slice. cbn [Nat.sub skipn].
    rewrite firstn_app_exact by apply length_to_bytes_le.
    apply from_to_bytes_le. change (256 ^ Z.of_nat 4) with (2 ^ 32). lia. }
  rewrite Hsz, Nat2Z.id.
  assert (Hm : (length payload + HEADER_LEN <=? length content)%nat = true).
  { apply Nat.leb_le. rewrite Hlen. unfold HEADER_LEN. lia. }
  rewrite Hm.
  assert (Hty' : from_bytes_le (slice content 4 8) = ty).
  { unfold content, slice.
    rewrite skipn_app_exact by apply length_to_bytes_le.
    cbn [Nat.sub]. rewrite firstn_app_exact by apply length_to_bytes_le.
    apply from_to_bytes_le. exact Hty. }
  rewrite Hty'.
  apply Z.eqb_neq in Hr. apply Z.eqb_neq in Hn. rewrite Hr, Hn.
  assert (Hst : slice_from content
                  (((length payload + HEADER_LEN + ALIGN64 - 1) / ALIGN64) * ALIGN64)
                = skipn (Z.to_nat (Common.align_eight (Z.of_nat (length payload + 8)))) tail).
  { unfold slice_from. rewrite stuffed_length. unfold HEADER_LEN, content.
    rewrite !app_assoc. rewrite Nat.add_comm, <- skipn_skipn.
    f_equal. apply skipn_app_exact.
    rewrite !length_app, !length_to_bytes_le. lia. }
  rewrite Hst. reflexivity.
Qed.

(** X13: a frame whose type is neither response nor notification ends
    the receive path in ConnectionError; the frame has been taken out of
    the cache when the error is raised. *)
Theorem X13_frame_of_unknown_type_refused
  (self : comm) (ty : Z) (payload : bytes) :
  Z.of_nat (length payload) < 2 ^ 32 -> 0 <= ty < 2 ^ 32 ->
  ty <> RCL_RESP -> ty <> RCL_NOTIFY ->
  socket_content self = [] ->
  tcp_poll_received self (tcp_frame ty payload) = (Raise ConnectionError, self).
Proof.
  intros Hl Hty Hr Hn Hc. unfold tcp_poll_received, tcp_extract_message.
  rewrite Hc. cbn [app socket_content with_socket_content].
  pose proof (length_tcp_frame ty payload) as Hlen.
  pose proof (align_eight_range (Z.of_nat (length payload + 8))) as Ha.
  destruct (length (tcp_frame ty payload)) as [|n] eqn:E; [lia|].
  unfold tcp_frame.
  replace (Z.of_nat (length payload) + 4 + 4) with (Z.of_nat (length payload + 8)) by lia.
  rewrite (extract_head_refused _ _ ty payload
             (repeat x00 (Z.to_nat (Common.align_eight (Z.of_nat (length payload + 8))))))
    by (assumption || reflexivity).
  rewrite skipn_all2 by (rewrite repeat_length; lia).
  destruct self; cbn in *. now subst.
Qed.

(** A frame of type request. *)
Lemma X13_frame_of_unknown_type_refused_witness :
  tcp_poll_received (tcp_with_reads []) (tcp_frame T32_NETTCP_RCL_REQ [x0c; x74])
  = (Raise ConnectionError, tcp_with_reads []).
Proof.
  apply (X13_frame_of_unknown_type_refused (tcp_with_reads [])
           T32_NETTCP_RCL_REQ [x0c; x74]);
    [reflexivity | split; [now vm_compute | reflexivity]
    | now vm_compute | now vm_compute | reflexivity].
Defined.

Lemma tcp_transmit_frame (self : comm) (sk : socket) (data : bytes) :
  Z.of_nat (length data) < 2 ^ 32 -> _socket self = Some sk ->
  tcp_transmit self data
  = (Ok tt,
     with_socket self
       (Some (mkSocket (sent sk ++ [tcp_frame T32_NETTCP_RCL_REQ data]) (incoming sk)))).
Proof.
  intros Hl Hs. unfold tcp_transmit, sendto.
  rewrite !pack_I_ok by (unfold T32_NETTCP_RCL_REQ; lia). cbn [bind].
  rewrite pack_s_exact by reflexivity. now rewrite Hs.
Qed.

(** X14: [CommunicationTcp.transmit] hands to the socket, in one piece,
    the frame of type request that carries the data: length, type, data,
    padding to a multiple of eight bytes.  Without a socket it raises
    ApiConnectionTransmitError. *)
Theorem X14_tcp_transmit_sends_one_frame (self : comm) (data : bytes) :
  Z.of_nat (length data) < 2 ^ 32 ->
  match _socket self with
  | Some sk =>
      tcp_transmit self data
      = (Ok tt,
         with_socket self
           (Some (mkSocket (sent sk ++ [tcp_frame T32_NETTCP_RCL_REQ data]) (incoming sk))))
      /\ (length (tcp_frame T32_NETTCP_RCL_REQ data) mod 8 = 0)%nat
  | None => tcp_transmit self data = (Raise ApiConnectionTransmitError, self)
  end.
Proof.
  intro Hl. destruct (_socket self) as [sk|] eqn:Hs.
  - split; [now apply tcp_transmit_frame|].
    rewrite length_tcp_frame, <- stuffed_length. unfold ALIGN64.
    apply Nat.Div0.mod_mul.
  - unfold tcp_transmit, sendto.
    rewrite !pack_I_ok by (unfold T32_NETTCP_RCL_REQ; lia). cbn [bind].
    now rewrite Hs.
Qed.

(** Two bytes, sent on a fresh socket. *)
Lemma X14_tcp_transmit_sends_one_frame_witness :
  tcp_transmit (tcp_with_reads []) [x0c; x74]
  = (Ok tt,
     with_socket (tcp_with_reads [])
       (Some (mkSocket [tcp_frame T32_NETTCP_RCL_REQ [x0c; x74]] [])))
  /\ (length (tcp_frame T32_NETTCP_RCL_REQ [x0c; x74]) mod 8 = 0)%nat.
Proof.
  apply (X14_tcp_transmit_sends_one_frame (tcp_with_reads []) [x0c; x74]). reflexivity.
Defined.

End TcpStream.

(* ================================================================== *)
(** * UDP: what a transmit sends, and how a response is put together   *)
(* ================================================================== *)

Module UdpFacts.

Import PyFacts Valid Hlinknet.

(** The block ids of [n] datagrams sent in a row, the first with [b]. *)
Fixpoint block_ids (n : nat) (b : Z) : list Z :=
  match n with
  | O => []
  | S n => b :: block_ids n ((b + 1) mod 65536)
  end.

(** The transport after the datagrams [ds] were sent and the block id
    became [b]. *)
Definition after_send (self : comm) (sk : socket) (ds : list bytes) (b : Z) : comm :=
  with_transmit_block_id
    (with_socket self (Some (mkSocket (sent sk ++ ds) (incoming sk)))) b.

Lemma block_ids_end (n : nat) :
  forall b, 0 <= b < 65536 ->
            (b + Z.of_nat (S n)) mod 65536
            = ((b + 1) mod 65536 + Z.of_nat n) mod 65536.
Proof.
  intros b Hb. rewrite Zplus_mod_idemp_l. f_equal. lia.
Qed.

Lemma ceil_step (len c : nat) :
  (0 < c)%nat -> (0 < len)%nat ->
  ((len + (c - 1)) / c = S ((len - c + (c - 1)) / c))%nat.
Proof.
  intros Hc Hl. destruct (Nat.le_gt_cases len c) as [Hle|Hgt].
  - replace (len - c)%nat with 0%nat by lia. cbn [Nat.add].
    rewrite (Nat.div_small (c - 1) c) by lia.
    symmetry. apply (Nat.div_unique _ c 1 (len - 1)); lia.
  - replace (len + (c - 1))%nat with ((len - c + (c - 1)) + 1 * c)%nat by lia.
    rewrite Nat.div_add by lia. lia.
Qed.

(** The loop of [transmit], started on the chunk that the rest [rem] of
    the data begins with. *)
Lemma transmit_loop_spec (data : bytes) (c : nat) (fuel : nat) :
  (0 < c)%nat ->
  forall (k : nat) (self : comm) (sk : socket),
    (length (skipn (c * k) data) < fuel)%nat ->
    _socket self = Some sk -> 0 <= _transmit_block_id self < 65536 ->
    let rem := skipn (c * k) data in
    exists ds,
      udp_transmit_loop fuel self data c (firstn c rem) (S k)
      = (Ok tt,
         after_send self sk ds
           ((_transmit_block_id self + Z.of_nat (length ds)) mod 65536))
      /\ concat (map (skipn 4) ds) = rem
      /\ Forall (fun d => (length d <= c + 4)%nat) ds
      /\ map (firstn 2) ds
         = repeat [x11; x01] (length ds - 1)
             ++ match ds with [] => [] | _ => [[x11; x00]] end
      /\ map (fun d => from_bytes_le (slice d 2 4)) ds
         = block_ids (length ds) (_transmit_block_id self)
      /\ length ds = ((length rem + (c - 1)) / c)%nat.
Proof.
  intro Hc. induction fuel as [|fuel IH]; intros k self sk Hfuel Hs Hb rem; [lia|].
  cbn [udp_transmit_loop].
  destruct rem as [|r0 rem'] eqn:Erem.
  - (* nothing left *)
    rewrite firstn_nil. exists []. cbn [length map concat repeat app block_ids].
    rewrite Z.add_0_r, Z.mod_small by lia.
    repeat split; try constructor.
    + unfold after_send. rewrite app_nil_r. destruct self, sk. cbn in *. now subst.
    + rewrite Nat.div_small by lia. reflexivity.
  - assert (Hchunk : firstn c (r0 :: rem') = r0 :: firstn (c - 1) rem').
    { clear - Hc. destruct c as [|c']; [lia|]. cbn [firstn]. do 2 f_equal. lia. }
    rewrite Hchunk.
    unfold slice_from.
    assert (Hnext : skipn (c * S k) data = skipn c (r0 :: rem')).
    { rewrite <- Erem. unfold rem. rewrite skipn_skipn. f_equal. lia. }
    rewrite Hnext.
    set (flag := match skipn c (r0 :: rem') with [] => 0 | _ => 1 end).
    assert (Hflag : 0 <= flag <= 1) by (unfold flag; destruct (skipn c (r0 :: rem')); lia).
    rewrite !pack_B_ok by (unfold T32_API_NORMAL_TRANSMIT; lia).
    rewrite pack_H_ok by lia. cbn [bind].
    rewrite pack_s_exact by reflexivity.
    unfold sendto. rewrite Hs.
    set (dg := [byte_of_Z T32_API_NORMAL_TRANSMIT] ++ [byte_of_Z flag]
                 ++ to_bytes_le (_transmit_block_id self) 2 ++ r0 :: firstn (c - 1) rem').
    cbn [_transmit_block_id with_socket].
    set (self1 := with_transmit_block_id
                    (with_socket self (Some (mkSocket (sent sk ++ [dg]) (incoming sk))))
                    ((_transmit_block_id self + 1) mod Z.shiftl 1 16)).
    change (Z.shiftl 1 16) with 65536 in *.
    assert (Hslice : slice data (c * S k) (c * (S k + 1)) = firstn c (skipn (c * S k) data)).
    { unfold slice. f_equal. lia. }
    rewrite Hslice.
    assert (Hb1 : 0 <= _transmit_block_id self1 < 65536).
    { unfold self1. cbn. apply Z.mod_pos_bound. lia. }
    assert (Hlen1 : (length (skipn (c * S k) data) < fuel)%nat).
    { rewrite Hnext, length_skipn. unfold rem in Erem. rewrite Erem in Hfuel.
      cbn [length] in *. lia. }
    replace (S k + 1)%nat with (S (S k)) by lia.
    destruct (IH (S k) self1 (mkSocket (sent sk ++ [dg]) (incoming sk)) Hlen1 eq_refl Hb1)
      as (ds & Hrun & Hcat & Hsz & Hfl & Hid & Hn).
    exists (dg :: ds).
    unfold self1 in Hrun, Hid. cbn [_transmit_block_id with_transmit_block_id] in Hrun, Hid.
    cbn [length map concat].
    assert (Hdg4 : skipn 4 dg = r0 :: firstn (c - 1) rem').
    { unfold dg. cbn [to_bytes_le app skipn]. reflexivity. }
    assert (Hdgl : (length dg <= c + 4)%nat).
    { unfold dg. rewrite !length_app, length_to_bytes_le. cbn [length].
      rewrite length_firstn. lia. }
    split; [|split; [|split; [|split; [|split]]]].
    + etransitivity; [exact Hrun|].
      f_equal. unfold after_send. cbn [_transmit_block_id with_transmit_block_id
        with_socket kind _socket socket_content _receive_block_id _packlen _timeout
        _notify_queue _response_queue _port sent incoming].
      rewrite <- app_assoc. cbn [app].
      rewrite <- block_ids_end by lia. reflexivity.
    + rewrite Hdg4, Hcat, Hnext, <- Hchunk. apply firstn_skipn.
    + constructor; assumption.
    + assert (Hds : ds = [] <-> skipn c (r0 :: rem') = []).
      { rewrite <- Hnext. split; intro H.
        - rewrite <- Hcat, H. reflexivity.
        - destruct ds as [|d ds']; [reflexivity|exfalso].
          rewrite H in Hn. cbn [length] in Hn.
          rewrite Nat.div_small in Hn by lia. discriminate. }
      rewrite Hfl. unfold dg, flag. cbn [app firstn].
      destruct ds as [|d ds'].
      * destruct Hds as [Hds _]. rewrite (Hds eq_refl). reflexivity.
      * destruct (skipn c (r0 :: rem')) eqn:Esk.
        -- destruct Hds as [_ Hds]. discriminate (Hds eq_refl).
        -- cbn [length].
           replace (S (S (length ds')) - 1)%nat with (S (length ds')) by lia.
           replace (S (length ds') - 1)%nat with (length ds') by lia.
           reflexivity.
    + cbn [block_ids]. f_equal.
      * unfold dg. cbn [to_bytes_le app]. unfold slice. cbn [skipn Nat.sub firstn].
        change [byte_of_Z (_transmit_block_id self mod 256);
                byte_of_Z (_transmit_block_id self / 256 mod 256)]
          with (to_bytes_le (_transmit_block_id self) 2).
        apply from_to_bytes_le. change (256 ^ Z.of_nat 2) with 65536. lia.
      * exact Hid.
    + rewrite Hn, Hnext, length_skipn. cbn [length].
      symmetry. apply (ceil_step (S (length rem')) c); lia.
Qed.

(** X15: [CommunicationUdp.transmit] puts five zero bytes before the data
    and sends the result in datagrams of at most [packlen] bytes: each is a
    four-byte header (0x11, a flag that is 1 while more follows and 0 on the
    last datagram, the 16-bit block id) and a chunk of up to [packlen - 4]
    bytes.  The chunks, in the order sent, make up the prefixed data;
    there are as many datagrams as that takes, and the block id goes up
    by one per datagram, modulo 65536. *)
Theorem X15_udp_transmit_chunks (self : comm) (sk : socket) (data : bytes) :
  _socket self = Some sk -> 4 < _packlen self ->
  0 <= _transmit_block_id self < 65536 ->
  let c := Z.to_nat (_packlen self - 4) in
  exists ds,
    udp_transmit self data
    = (Ok tt,
       after_send self sk ds
         ((_transmit_block_id self + Z.of_nat (length ds)) mod 65536))
    /\ concat (map (skipn 4) ds) = repeat x00 5 ++ data
    /\ Forall (fun d => Z.of_nat (length d) <= _packlen self) ds
    /\ map (firstn 2) ds = repeat [x11; x01] (length ds - 1) ++ [[x11; x00]]
    /\ map (fun d => from_bytes_le (slice d 2 4)) ds
       = block_ids (length ds) (_transmit_block_id self)
    /\ length ds = ((5 + length data + (c - 1)) / c)%nat.
Proof.
  intros Hs Hp Hb c. unfold udp_transmit.
  replace (_packlen self - 4 <? 0) with false by (symmetry; apply Z.ltb_ge; lia).
  fold c.
  assert (Hc : (0 < c)%nat) by (unfold c; lia).
  set (data' := repeat x00 5 ++ data).
  assert (Hl : length data' = (5 + length data)%nat)
    by (unfold data'; rewrite length_app, repeat_length; reflexivity).
  pose proof (transmit_loop_spec data' c (S (length data')) Hc 0 self sk) as H.
  rewrite Nat.mul_0_r in H. cbn [skipn] in H.
  destruct (H ltac:(lia) Hs Hb) as (ds & Hrun & Hcat & Hsz & Hfl & Hid & Hn).
  exists ds. rewrite Hl in Hn.
  split.
  { unfold slice. rewrite Nat.sub_0_r. cbn [skipn]. exact Hrun. }
  split; [exact Hcat|].
  split; [|split; [|split; [exact Hid|exact Hn]]].
  - eapply Forall_impl; [|exact Hsz]. cbn beta. intros d Hd. unfold c in Hd. lia.
  - rewrite Hfl. destruct ds as [|d ds']; [|reflexivity].
    cbn [length] in Hn. symmetry in Hn.
    apply Nat.div_small_iff in Hn; lia.
Qed.

(** Nine bytes in datagrams of eight: three datagrams, the block id wraps. *)
Lemma X15_udp_transmit_chunks_witness :
  let self := with_packlen (with_transmit_block_id (udp_with_reads []) 65535) 8 in
  exists ds,
    udp_transmit self [x0a; x0b; x0c; x0d]
    = (Ok tt, after_send self (mkSocket [] []) ds ((65535 + Z.of_nat (length ds)) mod 65536))
    /\ concat (map (skipn 4) ds) = repeat x00 5 ++ [x0a; x0b; x0c; x0d]
    /\ map (firstn 2) ds = repeat [x11; x01] (length ds - 1) ++ [[x11; x00]]
    /\ length ds = 3%nat.
Proof.
  intro self.
  destruct (X15_udp_transmit_chunks self (mkSocket [] []) [x0a; x0b; x0c; x0d])
    as (ds & H1 & H2 & _ & H4 & _ & H6); [reflexivity|cbn; lia|cbn; lia|].
  exists ds. repeat split; assumption.
Defined.

End UdpFacts.

Module UdpReassembly.

Import PyFacts Valid Hlinknet.

(** A datagram of the peer: message class, completeness flag, the rest of
    the header, and a chunk of the message. *)
Definition packet (class flag : Z) (header_rest chunk : bytes) : bytes :=
  [byte_of_Z class; byte_of_Z flag] ++ header_rest ++ chunk.

(** [extract_message] on each datagram of a list, up to the first that
    raises. *)
Fixpoint extract_all (self : comm) (packets : list bytes) : outcome unit * comm :=
  match packets with
  | [] => (Ok tt, self)
  | p :: ps =>
      match udp_extract_message self p with
      | (Ok _, self) => extract_all self ps
      | r => r
      end
  end.

(** The queue that the message class selects gets the message. *)
Definition deliver (class : Z) (self : comm) (msg : bytes) : comm :=
  if class =? T32_API_NOTIFICATION
  then with_notify_queue self (_notify_queue self ++ [Some msg])
  else with_response_queue self (_response_queue self ++ [Some msg]).

Definition class_ok (class : Z) : Prop :=
  class = T32_API_RECEIVE \/ class = T32_API_NOTIFICATION.

Lemma class_byte (class : Z) :
  class_ok class ->
  Z_of_byte (byte_of_Z class) = class /\ (class =? 43) = false.
Proof. intros [-> | ->]; split; reflexivity. Qed.

(** A datagram that goes on with a message already begun. *)
Lemma extract_next (self : comm) (class flag : Z) (h chunk : bytes) :
  class_ok class -> length h = 2%nat -> socket_content self <> [] ->
  (flag = MESSAGE_INCOMPLETE ->
   udp_extract_message self (packet class flag h chunk)
   = (Ok tt, with_socket_content self (socket_content self ++ chunk)))
  /\ (flag = MESSAGE_COMPLETE ->
      udp_extract_message self (packet class flag h chunk)
      = (Ok tt, with_socket_content
                  (deliver class self (socket_content self ++ chunk)) [])).
Proof.
  intros Hc Hh Hs. destruct (class_byte class Hc) as [Hb Hp].
  destruct h as [|h0 [|h1 [|]]]; try discriminate Hh.
  unfold udp_extract_message, packet.
  destruct (socket_content self) as [|s0 s] eqn:Es; [congruence|].
  cbn [app length nth_error]. rewrite Hb, Hp.
  change (S (S (S (S (length chunk)))) <? HEADER_LEN_SHORT)%nat with false.
  unfold slice_from, HEADER_LEN_SHORT. cbn [skipn].
  split; intros ->; cbn [Z_of_byte]; cbv iota.
  - reflexivity.
  - change (Z_of_byte (byte_of_Z MESSAGE_COMPLETE) =? HANDSHAKE) with false.
    change (Z_of_byte (byte_of_Z MESSAGE_COMPLETE) =? MESSAGE_COMPLETE) with true.
    cbv iota. unfold deliver.
    destruct Hc as [-> | ->]; reflexivity.
Qed.

(** The datagram that begins a message. *)
Lemma extract_first (self : comm) (class flag : Z) (h chunk : bytes) :
  class_ok class -> length h = 5%nat -> socket_content self = [] ->
  (flag = MESSAGE_INCOMPLETE ->
   udp_extract_message self (packet class flag h chunk)
   = (Ok tt, with_socket_content self chunk))
  /\ (flag = MESSAGE_COMPLETE ->
      udp_extract_message self (packet class flag h chunk)
      = (Ok tt, with_socket_content (deliver class self chunk) [])).
Proof.
  intros Hc Hh Hs. destruct (class_byte class Hc) as [Hb Hp].
  destruct h as [|h0 [|h1 [|h2 [|h3 [|h4 [|]]]]]]; try discriminate Hh.
  unfold udp_extract_message, packet. rewrite Hs.
  cbn [app length nth_error]. rewrite Hb, Hp.
  change (S (S (S (S (S (S (S (length chunk))))))) <? HEADER_LEN_LONG)%nat with false.
  unfold slice_from, HEADER_LEN_LONG. cbn [skipn].
  split; intros ->; cbv iota.
  - reflexivity.
  - change (Z_of_byte (byte_of_Z MESSAGE_COMPLETE) =? HANDSHAKE) with false.
    change (Z_of_byte (byte_of_Z MESSAGE_COMPLETE) =? MESSAGE_COMPLETE) with true.
    cbv iota. unfold deliver.
    destruct Hc as [-> | ->]; reflexivity.
Qed.

Lemma extract_rest (class : Z) (h : bytes) (mid : list bytes) :
  class_ok class -> length h = 2%nat ->
  forall (self : comm) (last_chunk : bytes),
    socket_content self <> [] ->
    extract_all self
      (map (packet class MESSAGE_INCOMPLETE h) mid
         ++ [packet class MESSAGE_COMPLETE h last_chunk])
    = (Ok tt,
       with_socket_content
         (deliver class self (socket_content self ++ concat mid ++ last_chunk)) []).
Proof.
  intros Hc Hh. induction mid as [|m mid IH]; intros self last_chunk Hs.
  - cbn [map app extract_all concat].
    destruct (extract_next self class MESSAGE_COMPLETE h last_chunk Hc Hh Hs) as [_ H].
    now rewrite H.
  - cbn [map app extract_all concat].
    destruct (extract_next self class MESSAGE_INCOMPLETE h m Hc Hh Hs) as [H _].
    rewrite H by reflexivity.
    rewrite IH.
    + cbn [socket_content with_socket_content]. rewrite <- !app_assoc.
      unfold deliver. now destruct (class =? T32_API_NOTIFICATION).
    + cbn [socket_content with_socket_content].
      destruct (socket_content self); [congruence|discriminate].
Qed.

(** X16: a message that the peer sends in several datagrams is put
    together again.  The first datagram has a header of seven bytes and
    the following ones of four; the chunks of the datagrams marked
    incomplete are gathered in the cache, and the datagram marked complete
    puts the whole, in the order received, into the queue that its message
    class selects, and empties the cache.  The first chunk is taken to be
    non-empty: the header length is chosen by whether the cache is empty.
    A message that comes in one datagram is queued as it is. *)
Theorem X16_udp_message_reassembled
  (self : comm) (class : Z) (h1 h : bytes)
  (first_chunk : bytes) (mid : list bytes) (last_chunk : bytes) :
  class_ok class -> length h1 = 5%nat -> length h = 2%nat ->
  socket_content self = [] -> first_chunk <> [] ->
  extract_all self
    (packet class MESSAGE_INCOMPLETE h1 first_chunk
       :: map (packet class MESSAGE_INCOMPLETE h) mid
       ++ [packet class MESSAGE_COMPLETE h last_chunk])
  = (Ok tt, deliver class self (first_chunk ++ concat mid ++ last_chunk))
  /\ extract_all self [packet class MESSAGE_COMPLETE h1 last_chunk]
     = (Ok tt, deliver class self last_chunk).
Proof.
  intros Hc H1 Hh Hs Hf.
  assert (Hd : forall msg, with_socket_content (deliver class self msg) []
                           = deliver class self msg).
  { intro msg. unfold deliver. destruct self. cbn in *. subst.
    now destruct (class =? T32_API_NOTIFICATION). }
  split.
  - cbn [extract_all].
    destruct (extract_first self class MESSAGE_INCOMPLETE h1 first_chunk Hc H1 Hs) as [H _].
    rewrite H by reflexivity.
    rewrite extract_rest by (assumption || exact Hf).
    cbn [socket_content with_socket_content]. f_equal.
    rewrite <- Hd. unfold deliver.
    now destruct (class =? T32_API_NOTIFICATION).
  - cbn [extract_all].
    destruct (extract_first self class MESSAGE_COMPLETE h1 last_chunk Hc H1 Hs) as [_ H].
    rewrite H by reflexivity. now rewrite Hd.
Qed.

(** A response in three datagrams. *)
Lemma X16_udp_message_reassembled_witness :
  extract_all (udp_with_reads [])
    [packet T32_API_RECEIVE MESSAGE_INCOMPLETE (repeat x00 5) [x00; x07];
     packet T32_API_RECEIVE MESSAGE_INCOMPLETE [x00; x00] [x0a];
     packet T32_API_RECEIVE MESSAGE_COMPLETE [x00; x00] [x0b; x0c]]
  = (Ok tt, with_response_queue (udp_with_reads []) [Some [x00; x07; x0a; x0b; x0c]]).
Proof.
  destruct (X16_udp_message_reassembled (udp_with_reads []) T32_API_RECEIVE
              (repeat x00 5) [x00; x00] [x00; x07] [[x0a]] [x0b; x0c]) as [H _];
    [left; reflexivity|reflexivity|reflexivity|reflexivity|discriminate|exact H].
Defined.

End UdpReassembly.

(* ================================================================== *)
(** * UDP sync without sync-back-requests                              *)
(* ================================================================== *)

Module SyncBounded.

Import PyFacts Valid Hlinknet.

(** A sync acknowledge: sixteen bytes, 0x12 first, the magic pattern last. *)
Definition is_ack (d : bytes) : bool :=
  match d with
  | [] => false
  | r0 :: _ =>
      (Z_of_byte r0 =? T32_API_SYNCACKN) && (length d =? 16)%nat
      && bytes_eqb (slice_from d 8) MAGIC_PATTERN
  end.

(** A datagram that [sync] reads and passes over: not empty, neither a
    sync-back-request nor a sync acknowledge. *)
Definition unrelated (d : bytes) : bool :=
  match d with
  | [] => false
  | r0 :: _ =>
      negb ((Z_of_byte r0 =? T32_API_SYNCBACKREQ) && (length d =? 16)%nat)
      && negb (is_ack d)
  end.

Lemma with_socket_twice (self : comm) (a b : option socket) :
  with_socket (with_socket self a) b = with_socket self b.
Proof. reflexivity. Qed.

Section Attempts.

Variable retry : comm -> Z -> outcome bool * comm.
Variable maxTries : Z.

(** The attempts of one call pass over unrelated datagrams, one per
    attempt, until an acknowledge arrives or the attempts are used up. *)
Lemma attempts_pass_over (js : list bytes) :
  forall (n : nat) (attempt : Z) (self : comm) (out rest : list bytes),
    forallb unrelated js = true ->
    _socket self = Some (mkSocket out (js ++ rest)) ->
    (length js <= n)%nat ->
    sync_attempts retry maxTries n attempt self
    = sync_attempts retry maxTries (n - length js) (attempt + Z.of_nat (length js))
                    (with_socket self (Some (mkSocket out rest))).
Proof.
  induction js as [|j js IH]; intros n attempt self out rest Hok Hs Hn.
  - cbn [length Nat.sub app] in *. rewrite Nat.sub_0_r, Z.add_0_r.
    f_equal. destruct self. cbn in *. now subst.
  - cbn [forallb] in Hok. apply andb_true_iff in Hok. destruct Hok as [Hj Hjs].
    destruct n as [|n]; [cbn in Hn; lia|].
    cbn [sync_attempts]. unfold recvfrom. rewrite Hs. cbn [incoming app sent].
    destruct j as [|r0 j']; [discriminate|].
    unfold unrelated in Hj. apply andb_true_iff in Hj. destruct Hj as [H1 H2].
    apply negb_true_iff in H1. apply negb_true_iff in H2.
    rewrite H1. unfold is_ack in H2. rewrite H2.
    rewrite (IH n (attempt + 1)
               (with_socket self (Some (mkSocket out (js ++ rest)))) out rest Hjs eq_refl)
      by (cbn in Hn; lia).
    cbn [length Nat.sub]. rewrite with_socket_twice. f_equal. lia.
Qed.

End Attempts.

Lemma sync_datagram_ok (k : Z) (self : comm) :
  0 <= k <= 0xFF -> 0 <= _transmit_block_id self <= 0xFFFF ->
  sync_datagram k self
  = Ok ([byte_of_Z k; x00] ++ to_bytes_le (_transmit_block_id self) 2
          ++ [x00; x00; x00; x00] ++ MAGIC_PATTERN).
Proof.
  intros Hk Hb. unfold sync_datagram.
  rewrite !pack_B_ok by lia. rewrite pack_H_ok by lia. rewrite pack_I_ok by lia.
  cbn [bind]. rewrite pack_s_exact by reflexivity. reflexivity.
Qed.

(** The sync-request and the sync-back datagrams of a transport. *)
Definition request_of (self : comm) : bytes :=
  [x02; x00] ++ to_bytes_le (_transmit_block_id self) 2
    ++ [x00; x00; x00; x00] ++ MAGIC_PATTERN.

Definition syncback_of (self : comm) : bytes :=
  [x22; x00] ++ to_bytes_le (_transmit_block_id self) 2
    ++ [x00; x00; x00; x00] ++ MAGIC_PATTERN.

(** X17: while no sync-back-request arrives, one call of [sync] makes at
    most [maxTries] attempts, each of which reads one datagram.  When a
    sync acknowledge arrives after fewer than [maxTries] unrelated
    datagrams, the call takes the receive block id from it, answers with a
    sync-back datagram and returns True; when [maxTries] unrelated
    datagrams arrive first, it reads exactly these and raises
    ApiConnectionSyncError, having sent only the sync-request. *)
Theorem X17_sync_attempts_bounded_without_syncback
  (depth : nat) (self : comm) (out : list bytes) (maxTries : Z)
  (js : list bytes) (ack : bytes) (rest : list bytes) :
  0 <= _transmit_block_id self <= 0xFFFF ->
  forallb unrelated js = true -> is_ack ack = true ->
  (Z.of_nat (length js) < maxTries ->
   _socket self = Some (mkSocket out (js ++ ack :: rest)) ->
   udp_sync (S depth) self maxTries
   = (Ok true,
      with_receive_block_id
        (with_socket self
           (Some (mkSocket (out ++ [request_of self; syncback_of self]) rest)))
        (from_bytes_le (slice ack 2 4))))
  /\ (Z.of_nat (length js) = maxTries ->
      _socket self = Some (mkSocket out (js ++ rest)) ->
      udp_sync (S depth) self maxTries
      = (Raise ApiConnectionSyncError,
         with_socket self (Some (mkSocket (out ++ [request_of self]) rest)))).
Proof.
  intros Hb Hjs Hack. split; intros Hn Hs.
  - cbn [udp_sync]. rewrite sync_datagram_ok by (unfold T32_API_SYNCREQUEST; lia).
    change ([byte_of_Z T32_API_SYNCREQUEST; x00] ++ to_bytes_le (_transmit_block_id self) 2
              ++ [x00; x00; x00; x00] ++ MAGIC_PATTERN) with (request_of self).
    unfold sendto at 1. rewrite Hs. cbn [sent incoming].
    rewrite (attempts_pass_over (udp_sync depth) maxTries js (Z.to_nat maxTries) 0
               (with_socket self
                  (Some (mkSocket (out ++ [request_of self]) (js ++ ack :: rest))))
               (out ++ [request_of self]) (ack :: rest) Hjs eq_refl)
      by lia.
    rewrite with_socket_twice.
    destruct (Z.to_nat maxTries - length js)%nat as [|k] eqn:Ek; [lia|].
    cbn [sync_attempts]. unfold recvfrom. cbn [_socket with_socket incoming sent].
    destruct ack as [|a0 ack']; [discriminate|].
    unfold is_ack in Hack.
    assert (H16 : (length (a0 :: ack') =? 16)%nat = true).
    { apply andb_true_iff in Hack. destruct Hack as [Hack _].
      now apply andb_true_iff in Hack. }
    assert (Ha0 : (Z_of_byte a0 =? T32_API_SYNCACKN) = true).
    { apply andb_true_iff in Hack. destruct Hack as [Hack _].
      now apply andb_true_iff in Hack. }
    replace (Z_of_byte a0 =? T32_API_SYNCBACKREQ) with false
      by (apply Z.eqb_eq in Ha0; rewrite Ha0; reflexivity).
    cbn [andb]. rewrite Hack. cbn [negb].
    cbn [_transmit_block_id with_receive_block_id with_socket].
    rewrite sync_datagram_ok by (unfold T32_API_SYNCBACK; lia || exact Hb).
    change ([byte_of_Z T32_API_SYNCBACK; x00] ++ to_bytes_le (_transmit_block_id self) 2
              ++ [x00; x00; x00; x00] ++ MAGIC_PATTERN) with (syncback_of self).
    unfold sendto. cbn [_socket with_receive_block_id with_socket sent incoming sync_wrap].
    rewrite <- app_assoc. reflexivity.
  - cbn [udp_sync]. rewrite sync_datagram_ok by (unfold T32_API_SYNCREQUEST; lia).
    change ([byte_of_Z T32_API_SYNCREQUEST; x00] ++ to_bytes_le (_transmit_block_id self) 2
              ++ [x00; x00; x00; x00] ++ MAGIC_PATTERN) with (request_of self).
    unfold sendto at 1. rewrite Hs. cbn [sent incoming].
    rewrite (attempts_pass_over (udp_sync depth) maxTries js (Z.to_nat maxTries) 0
               (with_socket self (Some (mkSocket (out ++ [request_of self]) (js ++ rest))))
               (out ++ [request_of self]) rest Hjs eq_refl)
      by lia.
    rewrite with_socket_twice.
    replace (Z.to_nat maxTries - length js)%nat with 0%nat by lia.
    reflexivity.
Qed.

(** An acknowledge behind two handshake datagrams, with a budget of 3 and of 2. *)
Lemma X17_sync_attempts_bounded_without_syncback_witness :
  let ack := [x12; x00; x2a; x00; x00; x00; x00; x00] ++ MAGIC_PATTERN in
  let self := udp_with_reads [[x2b]; [x2b]; ack; [x2b]] in
  udp_sync 1 self 3
  = (Ok true,
     with_receive_block_id
       (with_socket self (Some (mkSocket [request_of self; syncback_of self] [[x2b]])))
       0x2a)
  /\ udp_sync 1 self 2
     = (Raise ApiConnectionSyncError,
        with_socket self (Some (mkSocket [request_of self] [ack; [x2b]]))).
Proof.
  intros ack self. split.
  - destruct (X17_sync_attempts_bounded_without_syncback 0 self [] 3
                [[x2b]; [x2b]] ack [[x2b]]) as [H _];
      [cbn; lia|reflexivity|reflexivity|].
    apply H; [cbn; lia|reflexivity].
  - destruct (X17_sync_attempts_bounded_without_syncback 0 self [] 2
                [[x2b]; [x2b]] ack [ack; [x2b]]) as [_ H];
      [cbn; lia|reflexivity|reflexivity|].
    apply H; reflexivity.
Defined.

End SyncBounded.

(* ================================================================== *)
(** * A call and its answer                                            *)
(* ================================================================== *)

Module CallFacts.

Import PyFacts Valid Hlinknet ReceiveFacts TcpFacts.


(** [receive] on a TCP transport whose next read is the frame of the
    awaited response. *)
Lemma receive_answer (self : comm) (out : list bytes) (msg : bytes) (rest : list bytes)
      (message_id : Z) :
  kind self = TCP -> _socket self = Some (mkSocket out (tcp_frame RCL_RESP msg :: rest)) ->
  socket_content self = [] ->
  forallb (passed_over message_id) (_response_queue self) = true ->
  Z.of_nat (length msg) < 2 ^ 32 -> recorded_id msg = Some message_id ->
  Hlinknet.receive self message_id
  = (Ok msg, with_response_queue (with_socket self (Some (mkSocket out rest))) []).
Proof.
  intros Hk Hs Hc Hq Hl Hid. unfold Hlinknet.receive. rewrite Hs.
  cbn [incoming receive_loop].
  rewrite <- (app_nil_r (_response_queue self)).
  rewrite receive_queued_passed by exact Hq. cbn [receive_queued].
  cbn [_socket with_response_queue]. rewrite Hs.
  unfold poll_received. cbn [kind with_socket with_response_queue sent]. rewrite Hk.
  rewrite whole_frame_dispatched by (auto; cbn; exact Hc).
  unfold dispatch. change (RCL_RESP =? RCL_NOTIFY) with false. cbv iota.
  cbn [_response_queue with_response_queue with_socket app].
  destruct rest as [|r rest]; cbn [receive_loop _response_queue with_response_queue];
    rewrite receive_queued_head with (i := message_id) by exact Hid;
    rewrite Z.ltb_irrefl, Z.eqb_refl; reflexivity.
Qed.

End CallFacts.

Module CallEndToEnd.

Import PyFacts Valid Hlinknet ReceiveFacts TcpFacts TcpStream CallFacts Library.



(** X19: a message longer than the protocol allows is refused before
    anything happens: when the payload makes the extended length exceed
    0xF000, [generic_api_call] raises ApiProtocolTransmitError and leaves
    the link as it was; no message id is taken and nothing is transmitted. *)
Theorem X19_oversized_call_refused_untouched
  (self : Library.t) (rapi_cmd opt_arg : Z) (sendonly force16 : bool) (payload : bytes) :
  0xF000 < 2 + Z.of_nat (length payload) + 2 ->
  generic_api_call self rapi_cmd opt_arg sendonly payload None force16
  = (Raise ApiProtocolTransmitError, self).
Proof.
  intro H. unfold generic_api_call.
  replace (2 + Z.of_nat (length payload) >? 0xFF) with true
    by (symmetry; rewrite Z.gtb_ltb; apply Z.ltb_lt; lia).
  replace (2 + Z.of_nat (length payload) + 2 >? 0xF000) with true
    by (symmetry; rewrite Z.gtb_ltb; apply Z.ltb_lt; lia).
  reflexivity.
Qed.

(** A payload of 0xEFFD bytes. *)
Lemma X19_oversized_call_refused_untouched_witness :
  generic_api_call idle_library 0x74 0 false (repeat x00 (Z.to_nat 0xEFFD)) None false
  = (Raise ApiProtocolTransmitError, idle_library).
Proof.
  apply (X19_oversized_call_refused_untouched idle_library 0x74 0 false false).
  rewrite repeat_length. lia.
Defined.

(** A message that [send_data] builds passed the size check and is at
    most seven bytes longer than its payload. *)
Lemma send_data_built (rapi_cmd opt_arg message_id : Z) (payload envelope : bytes) :
  send_data rapi_cmd opt_arg payload None false message_id = Ok envelope ->
  ((2 + Z.of_nat (length payload) >? 0xFF) || false)
    && (2 + Z.of_nat (length payload) + 2 >? 0xF000) = false
  /\ Z.of_nat (length envelope) < 2 ^ 32.
Proof.
  unfold send_data, pack_B, pack_H, pack_uint.
  pose proof (Nat.mod_upper_bound (length payload) 2 ltac:(lia)) as Hp.
  destruct (2 + Z.of_nat (length payload) >? 0xFF) eqn:E1; cbn [orb andb].
  - destruct (2 + Z.of_nat (length payload) + 2 >? 0xF000) eqn:E2; [discriminate|].
    rewrite Z.gtb_ltb in E2. apply Z.ltb_ge in E2.
    repeat match goal with
           | |- context [if ?c then Ok _ else Raise _] => destruct c; cbn [bind]
           end; try discriminate.
    intro H. apply (f_equal (fun o => match o with Ok e => e | _ => [] end)) in H.
    cbv beta iota in H. rewrite <- H. split; [reflexivity|].
    rewrite !length_app, !length_to_bytes_le, length_pack_s. unfold pack_x.
    rewrite repeat_length. lia.
  - rewrite Z.gtb_ltb in E1. apply Z.ltb_ge in E1.
    repeat match goal with
           | |- context [if ?c then Ok _ else Raise _] => destruct c; cbn [bind]
           end; try discriminate.
    intro H. apply (f_equal (fun o => match o with Ok e => e | _ => [] end)) in H.
    cbv beta iota in H. rewrite <- H. split; [reflexivity|].
    rewrite !length_app, !length_to_bytes_le, length_pack_s. unfold pack_x.
    rewrite repeat_length. lia.
Qed.

(** A message that [send_data] builds passed the size check of
    [generic_api_call]. *)
Lemma send_data_passed (rapi_cmd opt_arg message_id : Z) (payload envelope : bytes)
      (force_length : option Z) (force_16bit_length : bool) :
  send_data rapi_cmd opt_arg payload force_length force_16bit_length message_id
  = Ok envelope ->
  ((match force_length with Some l => l | None => 2 + Z.of_nat (length payload) end
      >? 0xFF) || force_16bit_length)
    && (match force_length with Some l => l | None => 2 + Z.of_nat (length payload) end
          + 2 >? 0xF000) = false.
Proof.
  unfold send_data. cbv zeta.
  destruct ((_ >? 0xFF) || force_16bit_length); cbn [andb]; [|reflexivity].
  now destruct (_ + 2 >? 0xF000).
Qed.

(** The link of a library whose transport is TCP, has sent [out], will
    read [reads] next and holds nothing in cache or queues. *)
Definition tcp_library (message_id : Z) (out reads : list bytes) : Library.t :=
  Library.mk
    (Link.mk (B "localhost") 20000 0x4000 (B "TCP") None message_id
             (with_socket (Hlinknet.init TCP 0x4000 None) (Some (mkSocket out reads)))
             [])
    0x4000.

(** That library after a call that took the next message id, sent
    [envelope] in a request frame and read one frame. *)
Definition answered (message_id : Z) (out rest : list bytes) (envelope : bytes)
  : Library.t :=
  Library.mk
    (Link.mk (B "localhost") 20000 0x4000 (B "TCP") None (message_id + 1)
             (with_socket (Hlinknet.init TCP 0x4000 None)
                (Some (mkSocket (out ++ [tcp_frame T32_NETTCP_RCL_REQ envelope]) rest)))
             [envelope])
    0x4000.

(** A call whose answer is the next frame read. *)
Lemma call_answered
  (message_id rapi_cmd opt_arg status : Z) (out rest : list bytes)
  (payload envelope result : bytes)
  (force_length : option Z) (force_16bit_length : bool) :
  send_data rapi_cmd opt_arg payload force_length force_16bit_length
            ((message_id + 1) mod 255) = Ok envelope ->
  Z.of_nat (length envelope) < 2 ^ 32 ->
  Z.of_nat (length result) + 2 < 2 ^ 32 ->
  0 <= status <= 0xFF -> status <> T32_API_KEEPALIVE ->
  generic_api_call
    (tcp_library message_id out
       (tcp_frame RCL_RESP
          (byte_of_Z status :: byte_of_Z ((message_id + 1) mod 255) :: result) :: rest))
    rapi_cmd opt_arg false payload force_length force_16bit_length
  = (if status =? T32_ERR_OK then Ok (Some result) else Raise (ApiStatusError status),
     answered message_id out rest envelope).
Proof.
  intros Hd Henv Hl Hst Hka.
  set (id := (message_id + 1) mod 255) in *.
  assert (Hid : 0 <= id < 255) by (apply Z.mod_pos_bound; lia).
  pose proof (send_data_passed _ _ _ _ _ _ _ Hd) as Hg.
  unfold generic_api_call. rewrite Hg.
  unfold tcp_library, Link.increment_message_id.
  cbn [_link _maxpacketsize Link._message_id Link.node Link.port Link.packlen
       Link.protocol Link.timeout Link._line Link.transmit_calls].
  fold id. rewrite Hd.
  unfold Link.transmit, Hlinknet.transmit.
  cbn [_link _maxpacketsize Link._message_id Link.node Link.port Link.packlen
       Link.protocol Link.timeout Link._line Link.transmit_calls kind with_socket
       Hlinknet.init app].
  rewrite (tcp_transmit_frame _
             (mkSocket out (tcp_frame RCL_RESP (byte_of_Z status :: byte_of_Z id :: result)
                              :: rest)))
    by (exact Henv || reflexivity).
  unfold Link.receive, Link.get_message_id, Link.with_line.
  cbn [_link _maxpacketsize Link._message_id Link.node Link.port Link.packlen
       Link.protocol Link.timeout Link._line Link.transmit_calls sent incoming].
  fold id.
  assert (Hb0 : Z_of_byte (byte_of_Z status) = status)
    by (rewrite Z_of_byte_of_Z; apply Z.mod_small; lia).
  assert (Hb1 : Z_of_byte (byte_of_Z id) = id)
    by (rewrite Z_of_byte_of_Z; apply Z.mod_small; lia).
  rewrite (receive_answer _ (out ++ [tcp_frame T32_NETTCP_RCL_REQ envelope])
             (byte_of_Z status :: byte_of_Z id :: result) rest id);
    [ | reflexivity | reflexivity | reflexivity | reflexivity
      | cbn [length]; lia
      | unfold recorded_id; rewrite Hb0, Hb1;
        apply Z.eqb_neq in Hka; now rewrite Hka ].
  rewrite Hb0. unfold answered.
  destruct (status =? T32_ERR_OK); reflexivity.
Qed.

(** X20: a call and its answer over TCP.  The call takes the next message
    id, sends its envelope in one request frame, and reads the frame of
    the response.  When the response carries that message id and the
    status 0, the call returns the response without its first two bytes;
    when it carries another status (other than the keepalive mark), the
    call raises the error of that status.  In both cases the message id
    has advanced by one and the request frame is what was sent. *)
Theorem X20_call_and_answer_over_tcp
  (message_id rapi_cmd opt_arg status : Z) (out rest : list bytes)
  (payload envelope result : bytes) :
  let id := (message_id + 1) mod 255 in
  let answer := tcp_frame RCL_RESP (byte_of_Z status :: byte_of_Z id :: result) in
  send_data rapi_cmd opt_arg payload None false id = Ok envelope ->
  Z.of_nat (length result) + 2 < 2 ^ 32 ->
  0 <= status <= 0xFF -> status <> T32_API_KEEPALIVE ->
  generic_api_call (tcp_library message_id out (answer :: rest))
                   rapi_cmd opt_arg false payload None false
  = (if status =? T32_ERR_OK then Ok (Some result) else Raise (ApiStatusError status),
     answered message_id out rest envelope).
Proof.
  intros id answer Hd Hl Hst Hka.
  destruct (send_data_built _ _ _ _ _ Hd) as [_ Henv].
  now apply call_answered.
Qed.

(** A call of two bytes, answered with status 0. *)
Lemma X20_call_and_answer_over_tcp_witness :
  generic_api_call
    (tcp_library 7 [] [tcp_frame RCL_RESP [x00; x08; x2a; x00]])
    0x74 0 false [x01; x02] None false
  = (Ok (Some [x2a; x00]), answered 7 [] [] [x04; x74; x00; x08; x01; x02]).
Proof.
  apply (X20_call_and_answer_over_tcp 7 0x74 0 0 [] [] [x01; x02]
           [x04; x74; x00; x08; x01; x02] [x2a; x00]);
    [reflexivity | reflexivity | split; now vm_compute | now vm_compute].
Defined.

End CallEndToEnd.

(* ================================================================== *)
(** * The UDP connect handshake                                        *)
(* ================================================================== *)

Module ConnectFacts.

Import PyFacts Valid Hlinknet.






End ConnectFacts.

(* ================================================================== *)
(** * The reply to a memory-access bundle                              *)
(* ================================================================== *)

Module BundleReply.

Import PyFacts Valid MemoryBundle.

(** What the peer answers to one access: the status word 1 and, for an
    access that reads, the bytes read; or another status word. *)
Inductive answer : Type :=
| Done (read : bytes)
| Failed (status : Z).

Definition reads (a : MemoryAccess) : bool :=
  match a with MemoryWriteAccess _ _ _ => false | _ => true end.

Definition answer_wire (ar : MemoryAccess * answer) : bytes :=
  match ar with
  | (a, Done d) => to_bytes_le 1 2 ++ (if reads a then d else [])
  | (_, Failed s) => to_bytes_le s 2
  end.

(** The answer fits the access: as many bytes as the access asked for,
    or a 16-bit status other than 1. *)
Definition answer_ok (ar : MemoryAccess * answer) : bool :=
  match ar with
  | (MemoryReadAccess _ length_ _, Done d) => Z.of_nat (length d) =? length_
  | (MemoryWriteAccess _ _ _, Done d) => match d with [] => true | _ => false end
  | (MemoryReadWriteAccess _ data_ _ _, Done d) => (length d =? length data_)%nat
  | (_, Failed s) => (0 <=? s) && (s <? 65536) && negb (s =? 1)
  end.

Definition answer_result (ar : MemoryAccess * answer) : MemoryAccessResult :=
  match ar with
  | (a, Done d) => mkResult (if reads a then Some d else None) false
  | (_, Failed _) => mkResult None true
  end.

Lemma status_word (v : Z) (rest : bytes) :
  0 <= v < 65536 ->
  (length (to_bytes_le v 2 ++ rest) <? 2)%nat = false
  /\ from_bytes_le (slice (to_bytes_le v 2 ++ rest) 0 2) = v
  /\ slice_from (to_bytes_le v 2 ++ rest) 2 = rest.
Proof.
  intro Hv. split; [|split].
  - apply Nat.ltb_ge. rewrite length_app, length_to_bytes_le. lia.
  - unfold slice. cbn [Nat.sub skipn].
    rewrite firstn_app_exact by apply length_to_bytes_le.
    apply from_to_bytes_le. exact Hv.
  - unfold slice_from. apply skipn_app_exact. apply length_to_bytes_le.
Qed.

(** One access takes its answer off the buffer. *)
Lemma access_takes_answer (a : MemoryAccess) (r : answer) (rest : bytes) :
  answer_ok (a, r) = true ->
  access_deserialize a (answer_wire (a, r) ++ rest) = Ok (rest, answer_result (a, r)).
Proof.
  intro H. unfold access_deserialize, answer_wire, answer_result.
  destruct r as [d|s].
  - rewrite <- app_assoc.
    destruct (status_word 1 ((if reads a then d else []) ++ rest)) as (Hl & Hv & Hs); [lia|].
    rewrite Hl, Hv. change (1 =? 1) with true. cbv iota.
    assert (Hd : forall n, n = length d ->
               slice_from (to_bytes_le 1 2 ++ d ++ rest) (2 + n) = rest
               /\ slice (to_bytes_le 1 2 ++ d ++ rest) 2 (2 + n) = d).
    { intros n ->. unfold slice_from, slice. cbn [to_bytes_le app Nat.add skipn].
      split.
      - now apply skipn_app_exact.
      - replace (S (S (length d)) - 2)%nat with (length d) by lia.
        now apply firstn_app_exact. }
    destruct a as [ad len w|ad data w|ad data mask w]; cbn [reads answer_ok] in *.
    + apply Z.eqb_eq in H.
      replace (len <? 0) with false by (symmetry; apply Z.ltb_ge; lia).
      destruct (Hd (Z.to_nat len)) as [-> ->]; [lia|]. reflexivity.
    + destruct d; [|discriminate]. now rewrite Hs.
    + apply Nat.eqb_eq in H.
      destruct (Hd (length data)) as [-> ->]; [now symmetry|]. reflexivity.
  - assert (Hs : 0 <= s < 65536 /\ (s =? 1) = false).
    { destruct a; cbn [answer_ok] in H;
        apply andb_true_iff in H; destruct H as [H H1];
        apply andb_true_iff in H; destruct H as [H2 H3];
        apply Z.leb_le in H2; apply Z.ltb_lt in H3; apply negb_true_iff in H1;
        (split; [lia|exact H1]). }
    destruct Hs as [Hr Hn].
    destruct (status_word s rest Hr) as (Hl & Hv & Hsl).
    rewrite Hl, Hv, Hn, Hsl. now destruct a.
Qed.

Lemma accesses_take_answers (ars : list (MemoryAccess * answer)) (rest : bytes) :
  forallb answer_ok ars = true ->
  deserialize_accesses (map fst ars) (concat (map answer_wire ars) ++ rest)
  = Ok (rest, map answer_result ars).
Proof.
  induction ars as [|[a r] ars IH]; intro H; [reflexivity|].
  cbn [forallb] in H. apply andb_true_iff in H. destruct H as [H1 H2].
  cbn [map fst concat deserialize_accesses]. rewrite <- app_assoc.
  rewrite access_takes_answer by exact H1. cbn [bind].
  rewrite IH by exact H2. reflexivity.
Qed.

(** X22: the reply to a bundle is read access by access.  When the
    reply holds, in the order of the bundle, a status word for each
    access, followed by the bytes read when the status is 1 and the access
    is a read or a read-write, and then the marker XX, [deserialize] gives
    one result per access, in order: the bytes read, nothing for a write,
    an error for every status other than 1; and it returns what follows
    the marker. *)
Theorem X22_bundle_reply_read_per_access
  (ars : list (MemoryAccess * answer)) (tail : bytes) :
  forallb answer_ok ars = true ->
  deserialize (map fst ars) (concat (map answer_wire ars) ++ B "XX" ++ tail)
  = Ok (tail, map answer_result ars).
Proof.
  intro H. unfold deserialize.
  rewrite accesses_take_answers by exact H. cbn [bind].
  reflexivity.
Qed.

(** A read, a write and a read that fails. *)
Lemma X22_bundle_reply_read_per_access_witness :
  deserialize
    [MemoryReadAccess data_0x1000 3 None;
     MemoryWriteAccess data_0x1000 [x2a] None;
     MemoryReadAccess data_0x1000 4 None]
    ([x01; x00; x0a; x0b; x0c] ++ [x01; x00] ++ [x00; x00] ++ B "XX" ++ [xff])
  = Ok ([xff],
        [mkResult (Some [x0a; x0b; x0c]) false; mkResult None false; mkResult None true]).
Proof.
  apply (X22_bundle_reply_read_per_access
           [(MemoryReadAccess data_0x1000 3 None, Done [x0a; x0b; x0c]);
            (MemoryWriteAccess data_0x1000 [x2a] None, Done []);
            (MemoryReadAccess data_0x1000 4 None, Failed 0)] [xff]).
  reflexivity.
Defined.

End BundleReply.

(* ================================================================== *)
(** * The serialized form of a memory-access bundle                    *)
(* ================================================================== *)

Module BundleForm.

Import PyFacts Valid MemoryBundle.

(** [access.serialize()] of each access of a bundle, in order. *)
Fixpoint serialize_each (self : t) : outcome (list bytes) :=
  match self with
  | [] => Ok []
  | a :: rest =>
      s <- access_serialize a ;;
      ss <- serialize_each rest ;;
      Ok (s :: ss)
  end.

Lemma serialize_accesses_concat (self : t) :
  forall (forms : list bytes) (data : bytes),
    serialize_each self = Ok forms ->
    serialize_accesses data self = Ok (data ++ concat forms).
Proof.
  induction self as [|a self IH]; intros forms data H; cbn [serialize_each] in H.
  - injection H as <-. cbn [serialize_accesses concat]. now rewrite app_nil_r.
  - destruct (access_serialize a) as [s| |] eqn:Ea; try discriminate.
    cbn [bind] in H.
    destruct (serialize_each self) as [ss| |] eqn:Es; try discriminate.
    cbn [bind] in H. injection H as <-.
    cbn [serialize_accesses concat]. rewrite Ea. cbn [bind].
    rewrite (IH ss) by reflexivity. now rewrite app_assoc.
Qed.

Lemma length_serialize_each (self : t) :
  forall forms, serialize_each self = Ok forms -> length forms = length self.
Proof.
  induction self as [|a self IH]; intros forms H; cbn [serialize_each] in H.
  - now injection H as <-.
  - destruct (access_serialize a) as [s| |]; try discriminate.
    cbn [bind] in H.
    destruct (serialize_each self) as [ss| |]; try discriminate.
    cbn [bind] in H. injection H as <-. cbn [length]. now rewrite (IH ss).
Qed.

(** X23: the serialized form of a bundle.  When every access can be
    serialized, the accesses are no more than 0xFFFF and the whole form is
    at most 0x3C00 bytes long, [serialize] gives: the length of the whole
    form on 16 bits, the number of accesses on 16 bits, the serialized
    accesses in order, and the marker XX. *)
Theorem X23_bundle_serialized_form (self : t) (forms : list bytes) :
  serialize_each self = Ok forms ->
  Z.of_nat (length self) <= 0xFFFF ->
  4 + Z.of_nat (length (concat forms)) + 2 <= _EMU_CBMAXDATASIZE ->
  serialize self
  = Ok (to_bytes_le (4 + Z.of_nat (length (concat forms)) + 2) 2
          ++ to_bytes_le (Z.of_nat (length self)) 2
          ++ concat forms ++ B "XX")
  /\ Z.of_nat (length (to_bytes_le (4 + Z.of_nat (length (concat forms)) + 2) 2
                         ++ to_bytes_le (Z.of_nat (length self)) 2
                         ++ concat forms ++ B "XX"))
     = 4 + Z.of_nat (length (concat forms)) + 2.
Proof.
  intros Hf Hn Hl. unfold _EMU_CBMAXDATASIZE in Hl.
  assert (Hlen : Z.of_nat (length (to_bytes_le (4 + Z.of_nat (length (concat forms)) + 2) 2
                         ++ to_bytes_le (Z.of_nat (length self)) 2
                         ++ concat forms ++ B "XX"))
     = 4 + Z.of_nat (length (concat forms)) + 2).
  { rewrite !length_app, !length_to_bytes_le. change (length (B "XX")) with 2%nat. lia. }
  split; [|exact Hlen].
  unfold serialize, pack_HH. rewrite !pack_H_ok by lia. cbn [bind].
  rewrite (serialize_accesses_concat self forms) by exact Hf. cbn [bind].
  assert (Hd : Z.of_nat (length (((to_bytes_le 0 2 ++ to_bytes_le (Z.of_nat (length self)) 2)
                                    ++ concat forms) ++ B "XX"))
               = 4 + Z.of_nat (length (concat forms)) + 2).
  { rewrite !length_app, !length_to_bytes_le. change (length (B "XX")) with 2%nat. lia. }
  rewrite Hd. rewrite pack_H_ok by lia. cbn [bind].
  assert (Hs : slice_from (((to_bytes_le 0 2 ++ to_bytes_le (Z.of_nat (length self)) 2)
                              ++ concat forms) ++ B "XX") 2
               = to_bytes_le (Z.of_nat (length self)) 2 ++ concat forms ++ B "XX").
  { unfold slice_from. rewrite <- !app_assoc. apply skipn_app_exact.
    apply length_to_bytes_le. }
  rewrite Hs, Hlen.
  replace (4 + Z.of_nat (length (concat forms)) + 2 >? _EMU_CBMAXDATASIZE) with false
    by (symmetry; rewrite Z.gtb_ltb; apply Z.ltb_ge; unfold _EMU_CBMAXDATASIZE; lia).
  reflexivity.
Qed.

(** A bundle of a read of three bytes and a write of one byte. *)
Definition read_and_write : t :=
  [MemoryReadAccess data_0x1000 3 None; MemoryWriteAccess data_0x1000 [x2a] None].

Definition read_and_write_forms : list bytes :=
  Eval vm_compute in
    match serialize_each read_and_write with Ok forms => forms | _ => [] end.

(** A read of three bytes and a write of one byte: 60 bytes. *)
Lemma X23_bundle_serialized_form_witness :
  serialize read_and_write
  = Ok (to_bytes_le 60 2 ++ to_bytes_le 2 2 ++ concat read_and_write_forms ++ B "XX")
  /\ Z.of_nat (length (to_bytes_le 60 2 ++ to_bytes_le 2 2
                         ++ concat read_and_write_forms ++ B "XX")) = 60.
Proof.
  apply (X23_bundle_serialized_form read_and_write read_and_write_forms);
    [reflexivity | now vm_compute | now vm_compute].
Defined.

End BundleForm.

(* ================================================================== *)
(** * A direct access that is too large                                *)
(* ================================================================== *)

Module DirectAccessErrors.

Import PyFacts Valid DirectAccess DirectAccessFacts.

(** The loop on accesses that fit, followed by one that does not: the
    requests closed until then are yielded, then the loop raises. *)
Lemma loop_stops (a : access) (tmp : bytes) (post pre : list access) :
  _serialize a = Ok tmp ->
  _EMU_CBMAXDATASIZE - 1 < Z.of_nat (length tmp) ->
  forall (ss : list bytes) (req : request),
    serialize_all pre = Ok ss -> Forall fits ss ->
    exists ys req',
      _get_requests_loop pre req = (ys, Ok req')
      /\ _get_requests_loop (pre ++ a :: post) req = (ys, Raise DirectAccessError)
      /\ Forall (fun r => flag_of r = T32_DIRECTACCESS_HOLD) ys.
Proof.
  intros Ha Hbig.
  induction pre as [|p pre IH]; intros ss req Hs Hfit.
  - exists [], req. cbn [app _get_requests_loop]. rewrite Ha.
    replace (Z.of_nat (length tmp) >? _EMU_CBMAXDATASIZE - 1) with true
      by (symmetry; rewrite Z.gtb_ltb; apply Z.ltb_lt; lia).
    repeat split. constructor.
  - cbn [serialize_all] in Hs.
    destruct (_serialize p) as [s| |] eqn:Ep; try discriminate. cbn [bind] in Hs.
    destruct (serialize_all pre) as [ss'| |] eqn:Er; try discriminate.
    cbn [bind] in Hs. injection Hs as <-.
    inversion Hfit as [|? ? Hsfit Hfit']; subst.
    cbn [app _get_requests_loop]. rewrite Ep.
    unfold fits in Hsfit.
    replace (Z.of_nat (length s) >? _EMU_CBMAXDATASIZE - 1) with false
      by (symmetry; rewrite Z.gtb_ltb; apply Z.ltb_ge; lia).
    destruct (Z.of_nat (length (payload req)) + Z.of_nat (length s)
              >? _EMU_CBMAXDATASIZE - 1).
    + destruct (IH ss' (add_access new_request p s) eq_refl Hfit')
        as (ys & req' & H1 & H2 & H3).
      rewrite H1, H2.
      exists (mkRequest (access_list req) (payload req ++ [T32_DIRECTACCESS_HOLD]) :: ys), req'.
      repeat split. constructor; [|exact H3].
      apply (body_flag (payload req) T32_DIRECTACCESS_HOLD (access_list req)).
    + destruct (IH ss' (add_access req p s) eq_refl Hfit') as (ys & req' & H1 & H2 & H3).
      exists ys, req'. repeat split; assumption.
Qed.

(** X24: one access whose serialized form alone exceeds the limit ends
    the generation of requests with DirectAccessError.  When the accesses
    before it fit, the requests yielded before the error are those that
    the accesses before it had already filled, each closed with the hold
    flag 0x01; the request under construction is not yielded, and so no
    request with the release flag is. *)
Theorem X24_oversized_access_stops_generation
  (pre post : list access) (a : access) (ss : list bytes) (tmp : bytes)
  (release_debug_port : bool) :
  serialize_all pre = Ok ss -> Forall fits ss ->
  _serialize a = Ok tmp -> _EMU_CBMAXDATASIZE - 1 < Z.of_nat (length tmp) ->
  exists ys final,
    _get_requests pre release_debug_port = (ys ++ [final], Ok tt)
    /\ _get_requests (pre ++ a :: post) release_debug_port
       = (ys, Raise DirectAccessError)
    /\ Forall (fun r => flag_of r = T32_DIRECTACCESS_HOLD) ys.
Proof.
  intros Hs Hfit Ha Hbig.
  destruct (loop_stops a tmp post pre Ha Hbig ss new_request Hs Hfit)
    as (ys & req' & H1 & H2 & H3).
  unfold _get_requests. rewrite H1, H2.
  exists ys. eexists. repeat split. exact H3.
Qed.

(** A raw shift with 0x3C00 bytes of TMS. *)
Definition shift_0x3C00 : access :=
  ShiftRaw 122880 (Some (repeat x00 (Z.to_nat 0x3C00))) None false
           (mkOptions false false false false).

(** A raw shift of 0x3C00 bytes between small accesses. *)
Lemma X24_oversized_access_stops_generation_witness :
  exists ys final,
    _get_requests two_infos true = (ys ++ [final], Ok tt)
    /\ _get_requests (two_infos ++ shift_0x3C00 :: two_infos) true
       = (ys, Raise DirectAccessError)
    /\ Forall (fun r => flag_of r = T32_DIRECTACCESS_HOLD) ys.
Proof.
  pose (ss := match serialize_all two_infos with Ok ss => ss | _ => [] end).
  pose (tmp := match _serialize shift_0x3C00 with Ok s => s | _ => [] end).
  apply (X24_oversized_access_stops_generation two_infos two_infos shift_0x3C00 ss tmp true).
  - vm_compute; reflexivity.
  - repeat constructor; vm_compute; discriminate.
  - vm_compute; reflexivity.
  - vm_compute; reflexivity.
Defined.

End DirectAccessErrors.

(* ================================================================== *)
(** * The header of a direct access                                    *)
(* ================================================================== *)

Module DirectAccessHeader.

Import PyFacts Valid DirectAccess.

Lemma lor_nibbles (c b : Z) :
  0 <= c < 16 -> 0 <= b < 16 -> Z.lor (Z.shiftl c 4) b = 16 * c + b.
Proof.
  intros Hc Hb.
  rewrite <- (Z2Nat.id c), <- (Z2Nat.id b) by lia.
  assert (Hn : (Z.to_nat c < 16)%nat) by lia.
  assert (Hm : (Z.to_nat b < 16)%nat) by lia.
  revert Hn Hm. generalize (Z.to_nat c) as n. generalize (Z.to_nat b) as m.
  clear. intros m n Hn Hm.
  do 16 (destruct n as [|n];
         [do 16 (destruct m as [|m]; [reflexivity|]); lia|]).
  lia.
Qed.

Lemma byte_of_Z_inj (a b : Z) :
  0 <= a < 256 -> 0 <= b < 256 -> byte_of_Z a = byte_of_Z b -> a = b.
Proof.
  intros Ha Hb H. apply (f_equal Z_of_byte) in H.
  rewrite !Z_of_byte_of_Z, !Z.mod_small in H by lia. exact H.
Qed.

Lemma cons_eq {A} (x y : A) (a b : list A) : x :: a = y :: b -> x = y /\ a = b.
Proof. intro H. now injection H. Qed.

(** The three forms of the header. *)
Lemma header_forms (cmd payload_bitlen : Z) (h : bytes) :
  0 <= cmd < 16 -> 0 <= payload_bitlen ->
  _serialize_header cmd payload_bitlen = Ok h ->
  (payload_bitlen < 0x0F /\ h = [byte_of_Z (16 * cmd + payload_bitlen)])
  \/ (0x0F <= payload_bitlen < 0xFF
      /\ h = [byte_of_Z (16 * cmd + 15); byte_of_Z payload_bitlen])
  \/ (0xFF <= payload_bitlen < 2 ^ 32
      /\ h = [byte_of_Z (16 * cmd + 15); xff] ++ to_bytes_le payload_bitlen 4).
Proof.
  intros Hc Hl. unfold _serialize_header.
  destruct (payload_bitlen <? 15) eqn:E1.
  - apply Z.ltb_lt in E1. rewrite lor_nibbles by lia.
    rewrite pack_B_ok by lia. intro H. injection H as <-. left. now split.
  - apply Z.ltb_ge in E1. rewrite lor_nibbles by lia.
    rewrite pack_B_ok by lia. cbn [bind].
    destruct (payload_bitlen <? 255) eqn:E2.
    + apply Z.ltb_lt in E2. rewrite pack_B_ok by lia. cbn [bind app].
      intro H. injection H as <-. right. left. split; [lia|reflexivity].
    + apply Z.ltb_ge in E2. rewrite pack_B_ok by lia. cbn [bind].
      unfold pack_I, pack_uint.
      destruct ((0 <=? payload_bitlen) && (payload_bitlen <? 256 ^ Z.of_nat 4)) eqn:E3;
        cbn [bind]; [|discriminate].
      apply andb_true_iff in E3. destruct E3 as [_ E3]. apply Z.ltb_lt in E3.
      change (256 ^ Z.of_nat 4) with (2 ^ 32) in E3.
      intro H. injection H as <-. right. right. split; [lia|reflexivity].
Qed.

(** X25: the header of a direct access is unambiguous.  For a command
    of four bits and a payload length in bits, the header has one, two or
    six bytes, and a stream that begins with a header determines the
    command, the length and what follows the header: two headers, each
    followed by any bytes, give the same stream only when command, length
    and the bytes that follow are the same. *)
Theorem X25_header_unambiguous
  (cmd1 cmd2 len1 len2 : Z) (h1 h2 r1 r2 : bytes) :
  0 <= cmd1 < 16 -> 0 <= cmd2 < 16 -> 0 <= len1 -> 0 <= len2 ->
  _serialize_header cmd1 len1 = Ok h1 ->
  _serialize_header cmd2 len2 = Ok h2 ->
  (length h1 = 1%nat \/ length h1 = 2%nat \/ length h1 = 6%nat)
  /\ (h1 ++ r1 = h2 ++ r2 -> cmd1 = cmd2 /\ len1 = len2 /\ r1 = r2).
Proof.
  intros Hc1 Hc2 Hl1 Hl2 H1 H2.
  apply header_forms in H1; [|assumption|assumption].
  apply header_forms in H2; [|assumption|assumption].
  remember (16 * cmd1) as k1 eqn:K1. remember (16 * cmd2) as k2 eqn:K2.
  split.
  - destruct H1 as [[_ ->]|[[_ ->]|[_ ->]]]; auto.
  - intro E.
    destruct H1 as [[B1 ->]|[[B1 ->]|[B1 ->]]];
      destruct H2 as [[B2 ->]|[[B2 ->]|[B2 ->]]];
      cbn [app] in E; apply cons_eq in E; destruct E as [E0 E];
      apply byte_of_Z_inj in E0; try lia.
    + repeat split; [lia|lia|exact E].
    + apply cons_eq in E. destruct E as [E1 E].
      apply byte_of_Z_inj in E1; try lia.
      repeat split; [lia|lia|exact E].
    + apply cons_eq in E. destruct E as [E1 _].
      apply (byte_of_Z_inj len1 255) in E1; lia.
    + apply cons_eq in E. destruct E as [E1 _]. symmetry in E1.
      apply (byte_of_Z_inj len2 255) in E1; lia.
    + apply cons_eq in E. destruct E as [_ E].
      assert (E4 : to_bytes_le len1 4 = to_bytes_le len2 4 /\ r1 = r2).
      { apply (f_equal (firstn 4)) in E as Ea. apply (f_equal (skipn 4)) in E as Eb.
        rewrite !firstn_app_exact in Ea by apply length_to_bytes_le.
        rewrite !skipn_app_exact in Eb by apply length_to_bytes_le.
        now split. }
      destruct E4 as [E4 Er]. apply (f_equal from_bytes_le) in E4.
      rewrite !from_to_bytes_le in E4 by (change (256 ^ Z.of_nat 4) with (2 ^ 32); lia).
      repeat split; [lia|exact E4|exact Er].
Qed.

(** The two-byte header of a raw shift with 72 payload bits. *)
Lemma X25_header_unambiguous_witness :
  (length [xcf; x48] = 1%nat \/ length [xcf; x48] = 2%nat \/ length [xcf; x48] = 6%nat)
  /\ ([xcf; x48] ++ [x00; x01] = [xcf; x48] ++ [x00; x01] ->
      12 = 12 /\ 72 = 72 /\ [x00; x01] = [x00; x01]).
Proof.
  apply (X25_header_unambiguous 12 12 72 72 [xcf; x48] [xcf; x48] [x00; x01] [x00; x01]);
    try (split; now vm_compute); try (now vm_compute); reflexivity.
Defined.

End DirectAccessHeader.

(* ================================================================== *)
(** * The transfer of a memory-access bundle                           *)
(* ================================================================== *)

Module BundleTransfer.

Import PyFacts Valid Hlinknet Library MemoryBundle BundleReply CallEndToEnd.

(** What [serialize] returns passed its size check. *)
Lemma serialize_length (self : MemoryBundle.t) (form : bytes) :
  MemoryBundle.serialize self = Ok form ->
  Z.of_nat (length form) <= MemoryBundle._EMU_CBMAXDATASIZE.
Proof.
  unfold MemoryBundle.serialize.
  destruct (pack_HH 0 (Z.of_nat (length self))) as [d0| |]; try discriminate.
  cbn [bind].
  destruct (serialize_accesses d0 self) as [d1| |]; try discriminate.
  cbn [bind].
  destruct (pack_H _) as [h| |]; try discriminate.
  cbn [bind].
  destruct (_ >? MemoryBundle._EMU_CBMAXDATASIZE) eqn:E; [discriminate|].
  intro H. apply (f_equal (fun o => match o with Ok e => e | _ => [] end)) in H.
  cbv beta iota in H. rewrite <- H.
  rewrite Z.gtb_ltb in E. now apply Z.ltb_ge in E.
Qed.

(** The envelope of a bundle transfer: the length byte is 0, whatever
    the length of the serialized bundle. *)
Definition transfer_envelope (id : Z) (form : bytes) : bytes :=
  [x00; byte_of_Z RAPI_CMD_DEVICE_SPECIFIC; byte_of_Z RAPI_DSCMD_BUNDLE_OBJ_TRANSFER;
   byte_of_Z id] ++ form ++ repeat x00 (length form mod 2).

(** X26: the transfer of a bundle over TCP, from the bundle to its
    results.  The serialized bundle is sent in one request frame, in an
    envelope of command 0x74 and subcommand 0x38 whose length byte is 0;
    when the response of that message id has status 0 and carries, for
    each access in order, its status word and the bytes read, then the
    marker XX, the call returns one result per access, in order. *)
Theorem X26_bundle_transfer_over_tcp
  (message_id : Z) (out rest : list bytes) (ars : list (MemoryAccess * answer))
  (form : bytes) :
  let id := (message_id + 1) mod 255 in
  let reply := x00 :: byte_of_Z id :: concat (map answer_wire ars) ++ B "XX" in
  MemoryBundle.serialize (map fst ars) = Ok form ->
  forallb answer_ok ars = true ->
  Z.of_nat (length reply) < 2 ^ 32 ->
  t32_transfermemorybundleobj
    (tcp_library message_id out (tcp_frame RCL_RESP reply :: rest)) (map fst ars)
  = (Ok (map answer_result ars),
     answered message_id out rest (transfer_envelope id form)).
Proof.
  intros id reply Hf Hok Hl.
  assert (Hid : 0 <= id < 255) by (apply Z.mod_pos_bound; lia).
  pose proof (serialize_length _ _ Hf) as Hform.
  unfold MemoryBundle._EMU_CBMAXDATASIZE in Hform.
  unfold t32_transfermemorybundleobj. rewrite Hf.
  assert (Hd : send_data RAPI_CMD_DEVICE_SPECIFIC RAPI_DSCMD_BUNDLE_OBJ_TRANSFER form
                         (Some 0) false id
               = Ok (transfer_envelope id form)).
  { unfold send_data. change ((0 >? 0xFF) || false) with false. cbv iota.
    rewrite !pack_B_ok
      by (unfold RAPI_CMD_DEVICE_SPECIFIC, RAPI_DSCMD_BUNDLE_OBJ_TRANSFER; lia).
    cbn [bind]. rewrite pack_s_exact by reflexivity. reflexivity. }
  change (byte_of_Z T32_ERR_OK) with x00 in *.
  unfold reply.
  change x00 with (byte_of_Z 0) at 1.
  rewrite (call_answered message_id _ _ 0 out rest form (transfer_envelope id form)
             (concat (map answer_wire ars) ++ B "XX") (Some 0) false).
  - change (0 =? T32_ERR_OK) with true. cbv iota.
    unfold MemoryBundle.deserialize.
    rewrite accesses_take_answers by exact Hok. cbn [bind].
    reflexivity.
  - exact Hd.
  - unfold transfer_envelope. rewrite !length_app, repeat_length. cbn [length].
    pose proof (Nat.mod_upper_bound (length form) 2 ltac:(lia)). lia.
  - unfold reply in Hl. cbn [length] in Hl. lia.
  - lia.
  - discriminate.
Qed.

(** A read that succeeds and a write that fails. *)
Lemma X26_bundle_transfer_over_tcp_witness :
  let bundle := [MemoryReadAccess data_0x1000 3 None;
                 MemoryWriteAccess data_0x1000 [x2a] None] in
  let form := match MemoryBundle.serialize bundle with Ok f => f | _ => [] end in
  t32_transfermemorybundleobj
    (tcp_library 7 []
       [tcp_frame RCL_RESP
          (x00 :: x08 :: ([x01; x00; x0a; x0b; x0c] ++ [x00; x00]) ++ B "XX")])
    bundle
  = (Ok [mkResult (Some [x0a; x0b; x0c]) false; mkResult None true],
     answered 7 [] [] (transfer_envelope 8 form)).
Proof.
  intros bundle form.
  apply (X26_bundle_transfer_over_tcp 7 [] []
           [(MemoryReadAccess data_0x1000 3 None, Done [x0a; x0b; x0c]);
            (MemoryWriteAccess data_0x1000 [x2a] None, Failed 0)] form);
    [vm_compute; reflexivity | reflexivity | now vm_compute].
Defined.

End BundleTransfer.
